(** * xfold: atom layouts, layout conversion and attention primitives

    A shallow embedding of [xfold/nn/atom_layout.py], [xfold/nn/attention.py]
    and [xfold/nn/atom_cross_attention.py].

    Arrays are kept the way NumPy and PyTorch store them: a shape together
    with the elements in row-major order.  Python exceptions are values of
    an error monad.  Part I holds the definitions, Part II the proofs. *)

From Stdlib Require Import String.
From Stdlib Require Import List ZArith Lia Bool Arith Floats Reals Lra.
Import ListNotations.

Set Implicit Arguments.

(* ================================================================== *)
(** * Part I: definitions *)
(* ================================================================== *)

(** ** Python values, exceptions and slices *)

Module Py.

Inductive exn : Type :=
| ValueError
| IndexError
| TypeError
| AttributeError
| RuntimeError
| AssertionError
| NotImplementedError.

Inductive result (A : Type) : Type :=
| Ok (a : A)
| Raise (e : exn).

Arguments Ok {A} a.
Arguments Raise {A} e.

Definition bind {A B : Type} (m : result A) (k : A -> result B) : result B :=
  match m with
  | Ok a => k a
  | Raise e => Raise e
  end.

Definition raises {A : Type} (m : result A) : bool :=
  match m with
  | Ok _ => false
  | Raise _ => true
  end.

(** [assert c] *)
Definition assert (c : bool) : result unit :=
  if c then Ok tt else Raise AssertionError.

(** The objects stored in an array of [dtype=object]: strings, [None]
    and integers. *)
Inductive obj : Type :=
| Str (s : string)
| NoneObj
| Int (z : Z).

(** [bool(o)], which is what [.astype(bool)] applies to every element. *)
Definition truthy (o : obj) : bool :=
  match o with
  | Str s => negb (String.eqb s EmptyString)
  | NoneObj => false
  | Int z => negb (z =? 0)%Z
  end.

(** [a == b] on objects. *)
Definition obj_eqb (a b : obj) : bool :=
  match a, b with
  | Str s, Str t => String.eqb s t
  | NoneObj, NoneObj => true
  | Int x, Int y => (x =? y)%Z
  | _, _ => false
  end.

(** A slice bound [i] on a sequence of length [n]: negative bounds count
    from the end, and every bound is clamped to [0..n]. *)
Definition clamp (n : nat) (i : Z) : nat :=
  if (i <? 0)%Z
  then Z.to_nat (Z.max (i + Z.of_nat n) 0)
  else Nat.min (Z.to_nat i) n.

Definition slice_start (n : nat) (a : option Z) : nat :=
  match a with
  | None => 0
  | Some i => clamp n i
  end.

Definition slice_stop (n : nat) (b : option Z) : nat :=
  match b with
  | None => n
  | Some i => clamp n i
  end.

Definition slice_len (n : nat) (a b : option Z) : nat :=
  slice_stop n b - slice_start n a.

(** [l[a:b]] on a tuple or list. *)
Definition slice {A : Type} (l : list A) (a b : option Z) : list A :=
  firstn (slice_len (length l) a b) (skipn (slice_start (length l) a) l).

(** [range(a, b)] *)
Definition range (a b : Z) : list Z :=
  map (fun k => (a + Z.of_nat k)%Z) (seq 0 (Z.to_nat (b - a))).

End Py.

Import Py.

Notation "x <- m ;; k" := (Py.bind m (fun x => k))
  (at level 61, m at next level, right associativity).

(** ** Row-major arrays *)

Module Nd.

(** Number of elements of an array of the given shape. *)
Definition numel (s : list nat) : nat := fold_right Nat.mul 1 s.

(** The [i]-th block of width [w] of a flat list. *)
Definition row {A : Type} (w i : nat) (l : list A) : list A :=
  firstn w (skipn (i * w) l).

Fixpoint list_eqb {A : Type} (eqb : A -> A -> bool) (l m : list A) : bool :=
  match l, m with
  | [], [] => true
  | x :: l', y :: m' => eqb x y && list_eqb eqb l' m'
  | _, _ => false
  end.

Definition shape_eqb : list nat -> list nat -> bool := list_eqb Nat.eqb.

(** One entry of a basic index key: an integer, a slice [a:b], [None]
    (a new axis) or [...]. *)
Inductive index_item : Type :=
| IInt (i : Z)
| ISlice (a b : option Z)
| INone
| IEllipsis.

Definition key : Type := list index_item.

Definition is_int (it : index_item) : bool :=
  match it with
  | IInt _ => true
  | _ => false
  end.

Definition is_ellipsis (it : index_item) : bool :=
  match it with
  | IEllipsis => true
  | _ => false
  end.

(** The entries that index an axis of the array. *)
Definition takes_axis (it : index_item) : bool :=
  match it with
  | IInt _ | ISlice _ _ => true
  | _ => false
  end.

(** An integer index on an axis of size [d], negative indices wrapped. *)
Definition wrap (d : nat) (i : Z) : Z :=
  if (i <? 0)%Z then (i + Z.of_nat d)%Z else i.

Definition in_bounds (d : nat) (i : Z) : bool :=
  (0 <=? wrap d i)%Z && (wrap d i <? Z.of_nat d)%Z.

(** Shape of [a[key]] for an array of shape [s].  An index out of bounds,
    more entries than axes and a second [...] raise [IndexError]; [...]
    stands for the axes that the entries after it leave over. *)
Fixpoint index_shape (k : key) (s : list nat) : result (list nat) :=
  match k with
  | [] => Ok s
  | IInt i :: k' =>
      match s with
      | [] => Raise IndexError
      | d :: ds =>
          if in_bounds d i then index_shape k' ds else Raise IndexError
      end
  | ISlice a b :: k' =>
      match s with
      | [] => Raise IndexError
      | d :: ds =>
          s' <- index_shape k' ds ;;
          Ok (slice_len d a b :: s')
      end
  | INone :: k' =>
      s' <- index_shape k' s ;;
      Ok (1 :: s')
  | IEllipsis :: k' =>
      let used := length (filter takes_axis k') in
      if existsb is_ellipsis k' || (length s <? used)
      then Raise IndexError
      else
        s' <- index_shape k' (skipn (length s - used) s) ;;
        Ok (firstn (length s - used) s ++ s')
  end.

(** Elements of [a[key]], in row-major order. *)
Fixpoint index_data {A : Type} (k : key) (s : list nat) (l : list A)
  : list A :=
  match k with
  | [] => l
  | IInt i :: k' =>
      match s with
      | [] => l
      | d :: ds => index_data k' ds (row (numel ds) (Z.to_nat (wrap d i)) l)
      end
  | ISlice a b :: k' =>
      match s with
      | [] => l
      | d :: ds =>
          flat_map (fun j => index_data k' ds (row (numel ds) j l))
                   (seq (slice_start d a) (slice_len d a b))
      end
  | INone :: k' => index_data k' s l
  | IEllipsis :: k' =>
      let kept := length s - length (filter takes_axis k') in
      flat_map (fun j => index_data k' (skipn kept s)
                                    (row (numel (skipn kept s)) j l))
               (seq 0 (numel (firstn kept s)))
  end.

(** [np.pad(a, pad_width, constant_values=fill)]: shape and elements. *)
Fixpoint pad_shape (s : list nat) (pw : list (nat * nat)) : list nat :=
  match s, pw with
  | d :: ds, (before, after) :: pw' =>
      (before + d + after) :: pad_shape ds pw'
  | _, _ => s
  end.

Fixpoint pad_data {A : Type} (fill : A) (s : list nat)
         (pw : list (nat * nat)) (l : list A) : list A :=
  match s, pw with
  | d :: ds, (before, after) :: pw' =>
      let w := numel (pad_shape ds pw') in
      repeat fill (before * w)
      ++ flat_map (fun j => pad_data fill ds pw' (row (numel ds) j l))
                  (seq 0 d)
      ++ repeat fill (after * w)
  | _, _ => l
  end.

End Nd.

Import Nd.

(** ** NumPy arrays of Python objects *)

Module Np.

Inductive dtype : Type :=
| object
| int64.

Definition dtype_eqb (a b : dtype) : bool :=
  match a, b with
  | object, object | int64, int64 => true
  | _, _ => false
  end.

Record ndarray : Type := mk {
  dtype_of : dtype;
  shape : list nat;
  data : list obj
}.

(** What indexing returns: an array, or the stored object itself when
    every axis is indexed by an integer. *)
Inductive value : Type :=
| Arr (a : ndarray)
| Scalar (o : obj).

(** Every array built by NumPy holds as many elements as its shape says. *)
Definition wfb (a : ndarray) : bool :=
  length (data a) =? numel (shape a).

(** [np.array_equal(a, b)] *)
Definition array_equal (a b : ndarray) : bool :=
  if negb (shape_eqb (shape a) (shape b)) then false
  else list_eqb obj_eqb (data a) (data b).

(** [a.astype(bool)], a boolean array of the same shape. *)
Definition astype_bool (a : ndarray) : list nat * list bool :=
  (shape a, map truthy (data a)).

Fixpoint select {A : Type} (m : list bool) (l : list A) : list A :=
  match m, l with
  | b :: m', x :: l' => if b then x :: select m' l' else select m' l'
  | _, _ => []
  end.

(** [a[mask]] for a boolean array [mask]: the elements under a true
    entry, as a 1-D array; the shapes have to agree. *)
Definition getitem_mask (a : ndarray) (mask : list nat * list bool)
  : result ndarray :=
  if shape_eqb (fst mask) (shape a)
  then let d := select (snd mask) (data a) in
       Ok (mk (dtype_of a) [length d] d)
  else Raise IndexError.

(** [a[key]] for a basic key; the stored object itself comes back when
    every axis is indexed by an integer. *)
Definition getitem (a : ndarray) (k : key) : result value :=
  s' <- index_shape k (shape a) ;;
  let d := index_data k (shape a) (data a) in
  if forallb is_int k && (length k =? length (shape a))
  then match d with
       | [o] => Ok (Scalar o)
       | _ => Raise IndexError
       end
  else Ok (Arr (mk (dtype_of a) s' d)).

(** [np.pad(a, pad_width, constant_values=fill)].  NumPy turns
    [pad_width] into an array and wants it of integer type; the empty
    list becomes an empty array of floats and is refused with
    [TypeError]. *)
Definition pad (a : ndarray) (pw : list (nat * nat)) (fill : obj)
  : result ndarray :=
  match pw with
  | [] => Raise TypeError
  | _ => Ok (mk (dtype_of a) (pad_shape (shape a) pw)
                (pad_data fill (shape a) pw (data a)))
  end.

(** Result type of stacking: [object] as soon as one array holds objects. *)
Definition promote (l : list ndarray) : dtype :=
  if existsb (fun a => dtype_eqb (dtype_of a) object) l
  then object else int64.

(** [np.stack(arrays, axis=0)] *)
Definition stack (l : list ndarray) : result ndarray :=
  match l with
  | [] => Raise ValueError
  | a :: _ =>
      if forallb (fun b => shape_eqb (shape b) (shape a)) l
      then Ok (mk (promote l) (length l :: shape a) (flat_map data l))
      else Raise ValueError
  end.

(** Iterating over an array ([*arr]): its sub-arrays along the first
    axis, or the stored objects themselves when the array is 1-D; a 0-d
    array cannot be iterated. *)
Definition iterate (a : ndarray) : result (list value) :=
  match shape a with
  | [] => Raise TypeError
  | [d] => Ok (map Scalar (firstn d (data a)))
  | d :: ds =>
      Ok (map (fun j => Arr (mk (dtype_of a) ds (row (numel ds) j (data a))))
              (seq 0 d))
  end.

End Np.

(** ** [AtomLayout] *)

Module AtomLayout.

Record t : Type := mk {
  atom_name : Np.ndarray;
  res_id : Np.ndarray;
  chain_id : Np.ndarray;
  atom_element : option Np.ndarray;
  res_name : option Np.ndarray;
  chain_type : option Np.ndarray
}.

Definition shape (self : t) : list nat := Np.shape (atom_name self).

(** Modelled from the spec: [_assert_all_arrays_have_same_shape] is called
    by [__post_init__] but its body is not part of the sources.  The spec
    says that all present fields have identical shape and that
    constructing with mismatched shapes fails with a shape error. *)
Definition _assert_all_arrays_have_same_shape
           (expected_shape : list nat) (attributes : list (option Np.ndarray))
  : result unit :=
  if forallb (fun f => match f with
                       | None => true
                       | Some a => shape_eqb (Np.shape a) expected_shape
                       end) attributes
  then Ok tt else Raise ValueError.

Definition __post_init__ (self : t) : result unit :=
  _ <- _assert_all_arrays_have_same_shape
         (Np.shape (atom_name self))
         [Some (atom_name self); atom_element self; res_name self;
          Some (res_id self); Some (chain_id self); chain_type self] ;;
  if negb (Np.dtype_eqb (Np.dtype_of (atom_name self)) Np.object)
  then Raise ValueError
  else Ok tt.

(** The dataclass constructor: the fields in declaration order, then
    [__post_init__]. *)
Definition make (atom_name res_id chain_id : Np.ndarray)
           (atom_element res_name chain_type : option Np.ndarray)
  : result t :=
  let self := mk atom_name res_id chain_id atom_element res_name chain_type in
  _ <- __post_init__ self ;;
  Ok self.

(** A value handed to the constructor must have a [.shape]; the plain
    objects that integer indexing returns do not. *)
Definition as_array (v : Np.value) : result Np.ndarray :=
  match v with
  | Np.Arr a => Ok a
  | Np.Scalar _ => Raise AttributeError
  end.

Definition getitem_opt (f : option Np.ndarray) (k : key)
  : result (option Np.value) :=
  match f with
  | Some a => v <- Np.getitem a k ;; Ok (Some v)
  | None => Ok None
  end.

Definition as_array_opt (f : option Np.value) : result (option Np.ndarray) :=
  match f with
  | Some v => a <- as_array v ;; Ok (Some a)
  | None => Ok None
  end.

Definition __getitem__ (self : t) (k : key) : result t :=
  an <- Np.getitem (atom_name self) k ;;
  ri <- Np.getitem (res_id self) k ;;
  ci <- Np.getitem (chain_id self) k ;;
  ae <- getitem_opt (atom_element self) k ;;
  rn <- getitem_opt (res_name self) k ;;
  ct <- getitem_opt (chain_type self) k ;;
  an <- as_array an ;;
  ae <- as_array_opt ae ;;
  rn <- as_array_opt rn ;;
  ri <- as_array ri ;;
  ci <- as_array ci ;;
  ct <- as_array_opt ct ;;
  make an ri ci ae rn ct.

(** The two loops of [__eq__]: a field is compared on the masked entries. *)
Definition masked_differ (mask : list nat * list bool)
           (my_arr other_arr : Np.ndarray) : result bool :=
  a <- Np.getitem_mask my_arr mask ;;
  b <- Np.getitem_mask other_arr mask ;;
  Ok (negb (Np.array_equal a b)).

Fixpoint check_essential (mask : list nat * list bool)
         (fields : list (Np.ndarray * Np.ndarray)) (k : result bool)
  : result bool :=
  match fields with
  | [] => k
  | (my_arr, other_arr) :: rest =>
      d <- masked_differ mask my_arr other_arr ;;
      if d then Ok false else check_essential mask rest k
  end.

Fixpoint check_optional (mask : list nat * list bool)
         (fields : list (option Np.ndarray * option Np.ndarray))
  : result bool :=
  match fields with
  | [] => Ok true
  | (Some my_arr, Some other_arr) :: rest =>
      d <- masked_differ mask my_arr other_arr ;;
      if d then Ok false else check_optional mask rest
  | _ :: rest => check_optional mask rest
  end.

Definition __eq__ (self other : t) : result bool :=
  if negb (Np.array_equal (atom_name self) (atom_name other))
  then Ok false
  else
    let mask := Np.astype_bool (atom_name self) in
    check_essential mask
      [(res_id self, res_id other); (chain_id self, chain_id other)]
      (check_optional mask
         [(atom_element self, atom_element other);
          (res_name self, res_name other);
          (chain_type self, chain_type other)]).

Definition pad_opt (f : option Np.ndarray) (pw : list (nat * nat))
           (fill : obj) : result (option Np.ndarray) :=
  match f with
  | Some a => p <- Np.pad a pw fill ;; Ok (Some p)
  | None => Ok None
  end.

Definition copy_and_pad_to (self : t) (shape : list Z) : result t :=
  if negb (length shape =? length (Np.shape (atom_name self)))
  then Raise ValueError
  else if existsb (fun on => (snd on <? Z.of_nat (fst on))%Z)
                  (combine (Np.shape (atom_name self)) shape)
  then Raise ValueError
  else
    let pad_width :=
      map (fun on => (0, Z.to_nat (snd on - Z.of_nat (fst on))))
          (combine (Np.shape (atom_name self)) shape) in
    let pad_val := Str "" in
    an <- Np.pad (atom_name self) pad_width pad_val ;;
    ri <- Np.pad (res_id self) pad_width (Int 0) ;;
    ci <- Np.pad (chain_id self) pad_width pad_val ;;
    ae <- pad_opt (atom_element self) pad_width pad_val ;;
    rn <- pad_opt (res_name self) pad_width pad_val ;;
    ct <- pad_opt (chain_type self) pad_width pad_val ;;
    make an ri ci ae rn ct.

(** [dataclasses.astuple(self)] lists the fields in declaration order. *)
Definition to_array (self : t) : result Np.ndarray :=
  match atom_element self, res_name self, chain_type self with
  | Some ae, Some rn, Some ct =>
      Np.stack [atom_name self; res_id self; chain_id self; ae; rn; ct]
  | _, _, _ => Raise ValueError
  end.

(** An optional field handed to the constructor: [None] leaves the field
    absent, any other plain object has no [.shape]. *)
Definition as_field (v : Np.value) : result (option Np.ndarray) :=
  match v with
  | Np.Arr a => Ok (Some a)
  | Np.Scalar NoneObj => Ok None
  | Np.Scalar _ => Raise AttributeError
  end.

(** [cls( *arr )] passes the six rows positionally, in the order of the
    field declarations. *)
Definition from_array (arr : Np.ndarray) : result t :=
  match Np.shape arr with
  | [] => Raise IndexError
  | d :: _ =>
      if negb (d =? 6) then Raise ValueError
      else
        rows <- Np.iterate arr ;;
        match rows with
        | [a0; a1; a2; a3; a4; a5] =>
            an <- as_array a0 ;;
            ae <- as_field a3 ;;
            rn <- as_field a4 ;;
            ri <- as_array a1 ;;
            ci <- as_array a2 ;;
            ct <- as_field a5 ;;
            make an ri ci ae rn ct
        | _ => Raise TypeError
        end
  end.

(** A layout as the constructor leaves it: [__post_init__] passes and
    every field holds as many elements as its shape says. *)
Definition wfb_opt (f : option Np.ndarray) : bool :=
  match f with
  | Some a => Np.wfb a
  | None => true
  end.

Definition wfb (self : t) : bool :=
  negb (raises (__post_init__ self))
  && Np.wfb (atom_name self) && Np.wfb (res_id self)
  && Np.wfb (chain_id self) && wfb_opt (atom_element self)
  && wfb_opt (res_name self) && wfb_opt (chain_type self).

End AtomLayout.

(** ** PyTorch tensors *)

Module Torch.

Record tensor (A : Type) : Type := mk {
  shape : list nat;
  data : list A
}.

Arguments mk {A} shape data.

Definition ndim {A : Type} (t : tensor A) : nat := length (shape t).

Definition wfb {A : Type} (t : tensor A) : bool :=
  length (data t) =? numel (shape t).

(** What [convert] needs of an element type: the value a boolean is
    promoted to, and the product. *)
Class Dtype (A : Type) : Type := {
  of_bool : bool -> A;
  mul : A -> A -> A
}.

(** [t.reshape(s)] *)
Definition reshape {A : Type} (t : tensor A) (s : list nat)
  : result (tensor A) :=
  if numel s =? numel (shape t) then Ok (mk s (data t))
  else Raise RuntimeError.

(** [t[key]] for a basic key. *)
Definition getitem {A : Type} (t : tensor A) (k : key) : result (tensor A) :=
  s' <- index_shape k (shape t) ;;
  Ok (mk s' (index_data k (shape t) (data t))).

(** Gathering the rows [idxs] of every block: [l] holds [nbatch] blocks of
    [n] rows of width [w]; negative indices wrap. *)
Definition gather_data {A : Type} (nbatch n w : nat) (idxs : list Z)
           (l : list A) : list A :=
  flat_map
    (fun i =>
       let block := row (n * w) i l in
       flat_map (fun j => row w (Z.to_nat (wrap n j)) block) idxs)
    (seq 0 nbatch).

(** [t[:, ..., :, idxs, ...]] with [b] leading colons: the integer tensor
    [idxs] indexes axis [b]; an index outside the axis raises
    [IndexError], and so do more colons than axes. *)
Definition index_axis {A : Type} (b : nat) (idxs : tensor Z) (t : tensor A)
  : result (tensor A) :=
  match skipn b (shape t) with
  | [] => Raise IndexError
  | n :: feats =>
      if forallb (in_bounds n) (data idxs)
      then
        let batch := firstn b (shape t) in
        Ok (mk (batch ++ shape idxs ++ feats)
               (gather_data (numel batch) n (numel feats) (data idxs)
                            (data t)))
      else Raise IndexError
  end.

(** Multiplying row [j] of every block by the promoted [mask[j]]: [l]
    holds [nbatch] blocks of [m] rows of width [w]. *)
Definition mask_data {A : Type} `{Dtype A} (nbatch m w : nat)
           (mask : list bool) (l : list A) : list A :=
  flat_map
    (fun i =>
       let block := row (m * w) i l in
       flat_map
         (fun jm => map (fun x => mul x (of_bool (snd jm)))
                        (row w (fst jm) block))
         (combine (seq 0 m) mask))
    (seq 0 nbatch).

(** [t *= mask.reshape((1,)*nb + mask.shape + (1,)*nf)], in place: the
    boolean [mask] is promoted to the element type of [t] and broadcast
    over [nb] leading and [nf] trailing axes.  The mask of a [GatherInfo]
    has the shape of its indices, so the middle axes of [t] are those of
    [mask]; any other shape is reported as [RuntimeError]. *)
Definition imul_mask {A : Type} `{Dtype A} (t : tensor A) (nb : nat)
           (mask : tensor bool) (nf : nat) : result (tensor A) :=
  let batch := firstn nb (shape t) in
  let feats := skipn (nb + ndim mask) (shape t) in
  if shape_eqb (shape t) (batch ++ shape mask ++ feats)
     && (length feats =? nf)
  then
    Ok (mk (shape t)
           (mask_data (numel batch) (numel (shape mask)) (numel feats)
                      (data mask) (data t)))
  else Raise RuntimeError.

End Torch.

#[export] Instance Dtype_Z : Torch.Dtype Z :=
  {| Torch.of_bool := fun b => if b then 1%Z else 0%Z; Torch.mul := Z.mul |}.

#[export] Instance Dtype_bool : Torch.Dtype bool :=
  {| Torch.of_bool := fun b => b; Torch.mul := andb |}.

(** Floating-point tensors, with the binary64 arithmetic of IEEE 754. *)
#[export] Instance Dtype_float : Torch.Dtype float :=
  {| Torch.of_bool := fun b => if b then 1%float else 0%float;
     Torch.mul := PrimFloat.mul |}.

(** ** [GatherInfo] and [convert] *)

Module GatherInfo.

(** [input_shape] is a 1-D integer tensor; its entries are kept as a list. *)
Record t : Type := mk {
  gather_idxs : Torch.tensor Z;
  gather_mask : Torch.tensor bool;
  input_shape : list Z
}.

Definition shape (self : t) : list nat := Torch.shape (gather_idxs self).

Definition __post_init__ (self : t) : result unit :=
  if negb (shape_eqb (Torch.shape (gather_mask self))
                     (Torch.shape (gather_idxs self)))
  then Raise ValueError
  else Ok tt.

Definition make (gather_idxs : Torch.tensor Z)
           (gather_mask : Torch.tensor bool) (input_shape : list Z)
  : result t :=
  let self := mk gather_idxs gather_mask input_shape in
  _ <- __post_init__ self ;;
  Ok self.

Definition __getitem__ (self : t) (k : key) : result t :=
  gi <- Torch.getitem (gather_idxs self) k ;;
  gm <- Torch.getitem (gather_mask self) k ;;
  make gi gm (input_shape self).

(** A map as the constructor leaves it. *)
Definition wfb (self : t) : bool :=
  negb (raises (__post_init__ self))
  && Torch.wfb (gather_idxs self) && Torch.wfb (gather_mask self).

End GatherInfo.

Section Convert.

Context {A : Type} `{Torch.Dtype A}.

(** [tuple(i if i >= 0 else i + arr.ndim for i in layout_axes)] *)
Definition normalize_axes (ndim : nat) (layout_axes : list Z) : list Z :=
  map (fun i => if (i >=? 0)%Z then i else (i + Z.of_nat ndim)%Z)
      layout_axes.

Definition Z_list_eqb : list Z -> list Z -> bool := list_eqb Z.eqb.

(** The compatibility test on [layout_shape] and [input_shape]; the
    subscript [0] of an empty tuple raises [IndexError], and the
    comparison of the tails is element by element. *)
Definition incompatible (layout_shape : list nat) (input_shape : list Z)
  : result bool :=
  if negb (length layout_shape =? length input_shape) then Ok true
  else
    match layout_shape, input_shape with
    | l0 :: ls, g0 :: gs =>
        Ok ((Z.of_nat l0 <? g0)%Z
            || existsb (fun lg => negb (Z.of_nat (fst lg) =? snd lg)%Z)
                       (combine ls gs))
    | _, _ => Raise IndexError
    end.

Definition convert (gather_info : GatherInfo.t) (arr : Torch.tensor A)
           (layout_axes : list Z) : result (Torch.tensor A) :=
  let layout_axes := normalize_axes (Torch.ndim arr) layout_axes in
  match layout_axes with
  | [] => Raise IndexError
  | layout_axes_begin :: _ =>
      let layout_axes_end := (last layout_axes 0 + 1)%Z in
      if negb (Z_list_eqb layout_axes
                          (range layout_axes_begin layout_axes_end))
      then Raise ValueError
      else
        let layout_shape :=
          slice (Torch.shape arr)
                (Some layout_axes_begin) (Some layout_axes_end) in
        bad <- incompatible layout_shape
                            (GatherInfo.input_shape gather_info) ;;
        if bad then Raise ValueError
        else
          let batch_shape :=
            slice (Torch.shape arr) None (Some layout_axes_begin) in
          let features_shape :=
            slice (Torch.shape arr) (Some layout_axes_end) None in
          let arr_flattened_shape :=
            batch_shape ++ [numel layout_shape] ++ features_shape in
          arr_flattened <- Torch.reshape arr arr_flattened_shape ;;
          out_arr <-
            (if (0 <=? layout_axes_begin)%Z && (layout_axes_begin <=? 4)%Z
             then Torch.index_axis (Z.to_nat layout_axes_begin)
                                   (GatherInfo.gather_idxs gather_info)
                                   arr_flattened
             else Raise ValueError) ;;
          Torch.imul_mask out_arr (length batch_shape)
                          (GatherInfo.gather_mask gather_info)
                          (length features_shape)
  end.

End Convert.

(** ** Vocabulary of the claims about layouts *)

(** The key [0:d0, 0:d1, ...] that cuts an array back to the extents [s]. *)
Definition extents (s : list nat) : key :=
  map (fun d => ISlice (Some 0%Z) (Some (Z.of_nat d))) s.

Definition pads_after (pw : list (nat * nat)) : Prop :=
  Forall (fun p => fst p = 0) pw.

Definition field_ok (s : list nat) (a : Np.ndarray) : Prop :=
  Np.shape a = s /\ length (Np.data a) = numel s.

Definition field_ok_opt (s : list nat) (f : option Np.ndarray) : Prop :=
  match f with
  | Some a => field_ok s a
  | None => True
  end.

Definition fits (s : list nat) (target : list Z) : Prop :=
  Forall2 (fun old new => (Z.of_nat old <= new)%Z) s target.

Definition pad_width_of (s : list nat) (target : list Z) : list (nat * nat) :=
  map (fun on => (0, Z.to_nat (snd on - Z.of_nat (fst on)))) (combine s target).

(** The validity mask of a layout: the truth value of every atom name. *)
Definition valid_slots (L : AtomLayout.t) : list bool :=
  map truthy (Np.data (AtomLayout.atom_name L)).

(** Two arrays hold the same object at every valid slot of [L]. *)
Definition agree_valid (L : AtomLayout.t) (a b : Np.ndarray) : Prop :=
  forall i, nth i (valid_slots L) false = true ->
            nth_error (Np.data a) i = nth_error (Np.data b) i.

(** Optional fields are compared only when both layouts have them. *)
Definition agree_valid_opt (L : AtomLayout.t) (f g : option Np.ndarray)
  : Prop :=
  match f, g with
  | Some a, Some b => agree_valid L a b
  | _, _ => True
  end.

(** ** Vocabulary of the claims about [convert] *)

(** Element types in which a value times the promoted [True] is the value
    itself; so it is for integer, boolean and IEEE floating-point
    tensors. *)
Class MulTrue (A : Type) `{Torch.Dtype A} : Prop :=
  mul_true : forall x : A, Torch.mul x (Torch.of_bool true) = x.

Arguments MulTrue A {_}.

(** What "zero" and "regular value" mean for an element type.  For floats
    the regular values are the finite ones and zero is [+0.0] or [-0.0]. *)
Class ZeroTest (A : Type) : Type := {
  is_zero : A -> bool;
  regular : A -> bool
}.

#[export] Instance ZeroTest_Z : ZeroTest Z :=
  {| is_zero := fun x => (x =? 0)%Z; regular := fun _ => true |}.

#[export] Instance ZeroTest_bool : ZeroTest bool :=
  {| is_zero := negb; regular := fun _ => true |}.

#[export] Instance ZeroTest_float : ZeroTest float :=
  {| is_zero := PrimFloat.is_zero; regular := PrimFloat.is_finite |}.

(** Element types in which a regular value times the promoted [False] is
    zero. *)
Class MulFalse (A : Type) `{Torch.Dtype A} `{ZeroTest A} : Prop :=
  mul_false :
    forall x : A, regular x = true ->
                  is_zero (Torch.mul x (Torch.of_bool false)) = true.

Arguments MulFalse A {_ _}.

Section ConvertVocabulary.

Context {A : Type}.

Definition axes_of (arr : Torch.tensor A) (layout_axes : list Z) : list Z :=
  normalize_axes (Torch.ndim arr) layout_axes.

Definition axes_begin (arr : Torch.tensor A) (layout_axes : list Z) : Z :=
  hd 0%Z (axes_of arr layout_axes).

(** [layout_axes] is a non-empty tuple of axis indices of [arr]. *)
Definition valid_axes (arr : Torch.tensor A) (layout_axes : list Z) : bool :=
  match layout_axes with
  | [] => false
  | _ =>
      forallb (fun i => (- Z.of_nat (Torch.ndim arr) <=? i)%Z
                        && (i <? Z.of_nat (Torch.ndim arr))%Z)
              layout_axes
  end.

(** The sizes of [arr] along its layout axes. *)
Definition layout_sizes (arr : Torch.tensor A) (layout_axes : list Z)
  : list nat :=
  map (fun i => nth (Z.to_nat i) (Torch.shape arr) 0) (axes_of arr layout_axes).

Definition not_contiguous (arr : Torch.tensor A) (layout_axes : list Z)
  : bool :=
  let ax := axes_of arr layout_axes in
  negb (Z_list_eqb ax (range (hd 0%Z ax) (last ax 0%Z + 1))).

Definition axis_count_differs (g : GatherInfo.t) (layout_axes : list Z)
  : bool :=
  negb (length layout_axes =? length (GatherInfo.input_shape g)).

Definition first_axis_smaller (g : GatherInfo.t) (arr : Torch.tensor A)
           (layout_axes : list Z) : bool :=
  match layout_sizes arr layout_axes, GatherInfo.input_shape g with
  | l0 :: _, g0 :: _ => (Z.of_nat l0 <? g0)%Z
  | _, _ => false
  end.

Definition later_axis_differs (g : GatherInfo.t) (arr : Torch.tensor A)
           (layout_axes : list Z) : bool :=
  existsb (fun lg => negb (Z.of_nat (fst lg) =? snd lg)%Z)
          (combine (tl (layout_sizes arr layout_axes))
                   (tl (GatherInfo.input_shape g))).

Definition too_many_batch_axes (arr : Torch.tensor A) (layout_axes : list Z)
  : bool :=
  (4 <? axes_begin arr layout_axes)%Z.

(** The five error conditions that the specification lists. *)
Definition listed_errors (g : GatherInfo.t) (arr : Torch.tensor A)
           (layout_axes : list Z) : bool :=
  not_contiguous arr layout_axes
  || axis_count_differs g layout_axes
  || first_axis_smaller g arr layout_axes
  || later_axis_differs g arr layout_axes
  || too_many_batch_axes arr layout_axes.

(** A gather index outside the flattened layout axis. *)
Definition index_out_of_range (g : GatherInfo.t) (arr : Torch.tensor A)
           (layout_axes : list Z) : bool :=
  negb (forallb (in_bounds (numel (layout_sizes arr layout_axes)))
                (Torch.data (GatherInfo.gather_idxs g))).

(** An array that [convert] accepts for the map. *)
Definition compatible (g : GatherInfo.t) (arr : Torch.tensor A)
           (layout_axes : list Z) : bool :=
  valid_axes arr layout_axes
  && negb (listed_errors g arr layout_axes)
  && negb (index_out_of_range g arr layout_axes).

End ConvertVocabulary.

(** What [convert] returns when none of its checks fails: the layout
    axes are replaced by the axes of the map, every block of the input is
    gathered and the gathered rows are multiplied by the mask. *)
Definition converted {A : Type} `{Torch.Dtype A} (g : GatherInfo.t)
           (arr : Torch.tensor A) (layout_axes : list Z) : Torch.tensor A :=
  let b := Z.to_nat (axes_begin arr layout_axes) in
  let e := b + length layout_axes in
  let batch := firstn b (Torch.shape arr) in
  let feats := skipn e (Torch.shape arr) in
  Torch.mk
    (batch ++ GatherInfo.shape g ++ feats)
    (Torch.mask_data
       (numel batch) (numel (GatherInfo.shape g)) (numel feats)
       (Torch.data (GatherInfo.gather_mask g))
       (Torch.gather_data
          (numel batch) (numel (layout_sizes arr layout_axes)) (numel feats)
          (Torch.data (GatherInfo.gather_idxs g)) (Torch.data arr))).

(** The identity permutation over a source layout of shape [s]. *)
Definition identity_map (s : list nat) : GatherInfo.t :=
  GatherInfo.mk (Torch.mk s (map Z.of_nat (seq 0 (numel s))))
                (Torch.mk s (repeat true (numel s)))
                (map Z.of_nat s).

(** A map of output shape [s] that masks every position. *)
Definition all_masked (g : GatherInfo.t) : bool :=
  forallb negb (Torch.data (GatherInfo.gather_mask g)).

(** ** [dot_product_attention]

    One (batch, head) slice of the tensors: [q], [k] and [v] are matrices
    given by their rows, and [mask] and [bias] are broadcast to the shape
    of the logits.  The entries are floating-point numbers, taken to be
    finite: they are real numbers.  The operations on them round and
    underflow, so they are parameters of the model ([Arith]); what a
    statement needs of them is a hypothesis of that statement. *)

Module Attention.

Definition matrix : Type := list (list R).

Class Arith : Type := {
  (** [x * d ** -0.5], for [d = q.size(-1)] *)
  scale : nat -> R -> R;
  (** the inner product of two rows, as [torch.matmul] computes it *)
  dot : list R -> list R -> R;
  (** [x + y], as [logits += bias] computes it *)
  add : R -> R -> R;
  (** [torch.softmax(row, dim=-1)] *)
  softmax : list R -> list R
}.

(** Broadcasting an operand of an in-place operation along one axis: its
    size is the size of the target, or it is 1 and the entry is repeated;
    any other size is a [RuntimeError]. *)
Definition broadcast_axis {X : Type} (n : nat) (l : list X)
  : result (list X) :=
  if length l =? n then Ok l
  else match l with
       | [x] => Ok (repeat x n)
       | _ => Raise RuntimeError
       end.

Fixpoint broadcast_rows {X : Type} (n : nat) (M : list (list X))
  : result (list (list X)) :=
  match M with
  | [] => Ok []
  | r :: M' =>
      r' <- broadcast_axis n r ;;
      M'' <- broadcast_rows n M' ;;
      Ok (r' :: M'')
  end.

(** An operand broadcast to [nq] rows of [nk] entries. *)
Definition broadcast_to {X : Type} (nq nk : nat) (M : list (list X))
  : result (list (list X)) :=
  rows <- broadcast_rows nk M ;;
  broadcast_axis nq rows.

Definition zip_with {X Y Z : Type} (f : X -> Y -> Z) (a : list X)
           (b : list Y) : list Z :=
  map (fun p => f (fst p) (snd p)) (combine a b).

(** [~mask] *)
Definition invert (mask : list (list bool)) : list (list bool) :=
  map (map negb) mask.

Definition fill_row (row : list R) (fill : list bool) (value : R) : list R :=
  map (fun xm : R * bool => if snd xm then value else fst xm)
      (combine row fill).

(** [logits.masked_fill_(fill, value)] on logits of [nq] rows and [nk]
    columns *)
Definition masked_fill (nq nk : nat) (logits : matrix)
           (fill : list (list bool)) (value : R) : result matrix :=
  f <- broadcast_to nq nk fill ;;
  Ok (zip_with (fun row frow => fill_row row frow value) logits f).

(** The constant written [-1e9] in the source. *)
Definition neg_1e9 : R := (-1000000000)%R.

Section WithArith.

Context `{Arith}.

(** [torch.matmul(q, k.transpose(-1, -2))] *)
Definition matmul_transposed (q k : matrix) : matrix :=
  map (fun qi => map (fun kj => dot qi kj) k) q.

Definition column (c : nat) (v : matrix) : list R :=
  map (fun vj => nth c vj 0%R) v.

(** [torch.matmul(w, v)] *)
Definition matmul (w v : matrix) : matrix :=
  map (fun wi => map (fun c => dot wi (column c v))
                     (seq 0 (length (hd [] v))))
      w.

(** [logits += bias] on logits of [nq] rows and [nk] columns *)
Definition add_bias (nq nk : nat) (logits bias : matrix) : result matrix :=
  b <- broadcast_to nq nk bias ;;
  Ok (zip_with (zip_with add) logits b).

(** The logits after the bias and before the mask. *)
Definition biased_logits (q k : matrix) (bias : option matrix)
  : result matrix :=
  let scaled := map (map (scale (length (hd [] q)))) q in
  let logits := matmul_transposed scaled k in
  match bias with
  | Some b => add_bias (length q) (length k) logits b
  | None => Ok logits
  end.

(** The logits as they enter the softmax. *)
Definition masked_logits (q k : matrix) (mask : option (list (list bool)))
           (bias : option matrix) : result matrix :=
  logits <- biased_logits q k bias ;;
  match mask with
  | Some m => masked_fill (length q) (length k) logits (invert m) neg_1e9
  | None => Ok logits
  end.

Definition attention_weights (q k : matrix) (mask : option (list (list bool)))
           (bias : option matrix) : result matrix :=
  logits <- masked_logits q k mask bias ;;
  Ok (map softmax logits).

Definition dot_product_attention (q k v : matrix)
           (mask : option (list (list bool))) (bias : option matrix)
  : result matrix :=
  weights <- attention_weights q k mask bias ;;
  Ok (matmul weights v).

End WithArith.

(** *** The arithmetic of the real numbers, and the words of the claim *)

Definition sum (l : list R) : R := fold_right Rplus 0%R l.

(** The softmax of a row in exact arithmetic. *)
Definition softmax_exact (row : list R) : list R :=
  map (fun x => (exp x / sum (map exp row))%R) row.

(** Computed weights [w] that are non-negative and lie within a relative
    error [u] and an absolute error [eta] of the exact weights [e]. *)
Definition close (u eta : R) (w e : list R) : Prop :=
  Forall2 (fun x y => (0 <= x /\ y - (u * y + eta) <= x <= y + (u * y + eta))%R)
          w e.

(** The weights of a row that fall on the keys selected by [keep]. *)
Fixpoint weight_on (keep : list bool) (w : list R) : R :=
  match keep, w with
  | b :: keep', x :: w' =>
      ((if b then x else 0) + weight_on keep' w')%R
  | _, _ => 0%R
  end.

(** The number of masked keys of a row of the mask. *)
Definition masked_keys (mrow : list bool) : nat :=
  length (filter negb mrow).

(** Exact products and sums, and a softmax that returns the exact weight
    rounded: below [1e-9] it underflows to 0, within [1e-9] of 1 it is 1.
    On the example inputs this arithmetic returns what the floating-point
    operations return. *)
Definition flush (w : R) : R :=
  if Rlt_dec w (/ 1000000000) then 0%R
  else if Rlt_dec (1 - / 1000000000) w then 1%R
  else w.

Definition flushing : Arith :=
  {| scale := fun d x => (x * / sqrt (INR d))%R;
     dot := fun u v =>
              sum (map (fun p => (fst p * snd p)%R) (combine u v));
     add := Rplus;
     softmax := fun row => map flush (softmax_exact row) |}.

End Attention.

(** ** The neural-network modules

    The layers and tensor operations of PyTorch that the modules call are
    kept abstract: a layer is created by its constructor and applied to a
    tensor, and every operation returns a tensor.  What is modelled in full
    is what the modules themselves do: which attributes [__init__] sets,
    the order of the calls, the assertions, the layout conversions and the
    exceptions raised. *)

Module Nn.

Class Ops (A : Type) : Type := {
  Linear : Type;
  LayerNorm : Type;
  DiffusionCrossAttTransformer : Type;
  (** [nn.Linear(in_features, out_features, bias=...)] *)
  new_linear : nat -> nat -> bool -> Linear;
  (** [nn.LayerNorm(c)] *)
  new_layer_norm : nat -> LayerNorm;
  (** [DiffusionCrossAttTransformer(c_query=...)] *)
  new_transformer : nat -> DiffusionCrossAttTransformer;
  linear : Linear -> Torch.tensor A -> Torch.tensor A;
  layer_norm : LayerNorm -> Torch.tensor A -> Torch.tensor A;
  (** the transformer applied to [queries_act], [queries_mask],
      [queries_to_keys], [keys_mask], [queries_single_cond],
      [keys_single_cond] and [pair_cond] *)
  transformer :
    DiffusionCrossAttTransformer -> Torch.tensor A -> Torch.tensor A ->
    GatherInfo.t -> Torch.tensor A -> Torch.tensor A -> Torch.tensor A ->
    Torch.tensor A -> Torch.tensor A;
  (** [a + b], [a - b], [a * b] and [a == b], with broadcasting *)
  add : Torch.tensor A -> Torch.tensor A -> Torch.tensor A;
  sub : Torch.tensor A -> Torch.tensor A -> Torch.tensor A;
  mul : Torch.tensor A -> Torch.tensor A -> Torch.tensor A;
  eq : Torch.tensor A -> Torch.tensor A -> Torch.tensor A;
  relu : Torch.tensor A -> Torch.tensor A;
  sigmoid : Torch.tensor A -> Torch.tensor A;
  arcsinh : Torch.tensor A -> Torch.tensor A;
  square : Torch.tensor A -> Torch.tensor A;
  clone : Torch.tensor A -> Torch.tensor A;
  (** [torch.softmax(t, dim=-1)] and [torch.sum(t, dim=-1)] *)
  softmax : Torch.tensor A -> Torch.tensor A;
  sum_last : Torch.tensor A -> Torch.tensor A;
  (** [1.0 / (1 + t)] *)
  inv_one_plus : Torch.tensor A -> Torch.tensor A;
  (** [t[..., None, ...]] with the new axis at the given position *)
  unsqueeze : Z -> Torch.tensor A -> Torch.tensor A;
  (** [F.one_hot(t.to(dtype=torch.int64), n)] cast to the weights' dtype *)
  one_hot : nat -> Torch.tensor A -> Torch.tensor A;
  (** [t.reshape(num_token, num_dense, -1)] and
      [t.reshape(t.shape[:-2] + (-1,))] *)
  flatten_last2 : Torch.tensor A -> Torch.tensor A;
  (** [(1e9 * (mask.to(dtype=x.dtype) - 1.0))[..., None, None, :]] *)
  mask_bias : Torch.tensor A -> Torch.tensor A -> Torch.tensor A;
  (** [einops.rearrange(t, 'n (h c) -> n h c', h=num_head)] *)
  split_heads : nat -> Torch.tensor A -> Torch.tensor A;
  (** [torch.einsum('...qhc,...khc->...hqk', q * qkv_dim ** (-0.5), k)] *)
  scaled_logits : nat -> Torch.tensor A -> Torch.tensor A -> Torch.tensor A;
  (** [torch.einsum('...hqk,...khc->...qhc', weights, v)] *)
  weighted_values : Torch.tensor A -> Torch.tensor A -> Torch.tensor A;
  (** [utils.mask_mean(mask, value, dim=-2)] *)
  mask_mean : Torch.tensor A -> Torch.tensor A -> Torch.tensor A
}.

End Nn.

(** ** [AttentionPairBias] *)

Module AttentionPairBias.

Section WithOps.

Context {A : Type} `{Nn.Ops A}.

(** The attributes of a module instance; [layer_norm] is set by
    [__init__] only for some arguments, and reading an attribute that was
    never set raises [AttributeError]. *)
Record t : Type := mk {
  c_single : nat;
  num_head : nat;
  qkv_dim : nat;
  use_single_cond : bool;
  layer_norm : option Nn.LayerNorm;
  q_projection : Nn.Linear;
  k_projection : Nn.Linear;
  v_projection : Nn.Linear;
  gating_query : Nn.Linear;
  transition2 : Nn.Linear
}.

Definition __init__ (c_single num_head : nat) (use_single_cond : bool) : t :=
  mk c_single num_head (c_single / num_head) use_single_cond
     (if use_single_cond then None else Some (Nn.new_layer_norm c_single))
     (Nn.new_linear c_single c_single true)
     (Nn.new_linear c_single c_single false)
     (Nn.new_linear c_single c_single false)
     (Nn.new_linear c_single c_single false)
     (Nn.new_linear c_single c_single false).

(** [self.layer_norm] *)
Definition getattr_layer_norm (self : t) : result Nn.LayerNorm :=
  match layer_norm self with
  | Some ln => Ok ln
  | None => Raise AttributeError
  end.

Definition forward (self : t) (x mask : Torch.tensor A)
           (pair_logits : option (Torch.tensor A))
  : result (Torch.tensor A) :=
  let bias := Nn.mask_bias mask x in
  ln <- getattr_layer_norm self ;;
  let x := Nn.layer_norm ln x in
  let q := Nn.linear (q_projection self) x in
  let k := Nn.linear (k_projection self) x in
  let v := Nn.linear (v_projection self) x in
  let q := Nn.split_heads (num_head self) q in
  let k := Nn.split_heads (num_head self) k in
  let v := Nn.split_heads (num_head self) v in
  let logits := Nn.add (Nn.scaled_logits (qkv_dim self) q k) bias in
  let logits := match pair_logits with
                | Some pl => Nn.add logits pl
                | None => logits
                end in
  let weights := Nn.softmax logits in
  let weighted_avg := Nn.weighted_values weights v in
  let weighted_avg := Nn.flatten_last2 weighted_avg in
  let gate_logits := Nn.linear (gating_query self) x in
  let weighted_avg := Nn.mul weighted_avg (Nn.sigmoid gate_logits) in
  Ok (Nn.linear (transition2 self) weighted_avg).

End WithOps.

Arguments t A {_}.

End AttentionPairBias.

(** ** [AtomCrossAttEncoder] *)

Module AtomCrossAttEncoder.

Section WithOps.

Context {A : Type} `{Torch.Dtype A} `{Nn.Ops A}.

(** Modelled from the spec: [feat_batch.Batch] is not part of the
    sources.  The spec lists what the encoder reads from it: the features
    of the reference structure, the atom mask of the predicted structure
    and the three layout index maps. *)
Record RefStructure : Type := mkRefStructure {
  positions : Torch.tensor A;
  mask : Torch.tensor A;
  element : Torch.tensor A;
  charge : Torch.tensor A;
  atom_name_chars : Torch.tensor A;
  ref_space_uid : Torch.tensor A
}.

Record AtomCrossAtt : Type := mkAtomCrossAtt {
  token_atoms_to_queries : GatherInfo.t;
  queries_to_keys : GatherInfo.t;
  queries_to_token_atoms : GatherInfo.t
}.

Record PredictedStructureInfo : Type := mkPredictedStructureInfo {
  atom_mask : Torch.tensor A
}.

Record Batch : Type := mkBatch {
  ref_structure : RefStructure;
  predicted_structure_info : PredictedStructureInfo;
  atom_cross_att : AtomCrossAtt
}.

Record AtomCrossAttEncoderOutput : Type := mkOutput {
  token_act : Torch.tensor A;
  skip_connection : Torch.tensor A;
  queries_mask : Torch.tensor A;
  queries_single_cond : Torch.tensor A;
  keys_mask : Torch.tensor A;
  keys_single_cond : Torch.tensor A;
  pair_cond : Torch.tensor A
}.

Record t : Type := mk {
  with_token_atoms_act : bool;
  with_trunk_single_cond : bool;
  with_trunk_pair_cond : bool;
  embed_ref_pos : Nn.Linear;
  embed_ref_mask : Nn.Linear;
  embed_ref_element : Nn.Linear;
  embed_ref_charge : Nn.Linear;
  embed_ref_atom_name : Nn.Linear;
  single_to_pair_cond_row : Nn.Linear;
  single_to_pair_cond_col : Nn.Linear;
  embed_pair_offsets : Nn.Linear;
  embed_pair_distances : Nn.Linear;
  single_to_pair_cond_row_1 : Nn.Linear;
  single_to_pair_cond_col_1 : Nn.Linear;
  embed_pair_offsets_1 : Nn.Linear;
  embed_pair_distances_1 : Nn.Linear;
  embed_pair_offsets_valid : Nn.Linear;
  pair_mlp_1 : Nn.Linear;
  pair_mlp_2 : Nn.Linear;
  pair_mlp_3 : Nn.Linear;
  atom_transformer_encoder : Nn.DiffusionCrossAttTransformer;
  project_atom_features_for_aggr : Nn.Linear
}.

Definition __init__ (per_token_channels per_atom_channels
                     per_atom_pair_channels : nat)
           (with_token_atoms_act with_trunk_single_cond
            with_trunk_pair_cond : bool) : t :=
  let c_positions := 3 in
  let c_mask := 1 in
  let c_element := 128 in
  let c_charge := 1 in
  let c_atom_name := 256 in
  let c_pair_distance := 1 in
  let c_query := 128 in
  mk with_token_atoms_act with_trunk_single_cond with_trunk_pair_cond
     (Nn.new_linear c_positions per_atom_channels false)
     (Nn.new_linear c_mask per_atom_channels false)
     (Nn.new_linear c_element per_atom_channels false)
     (Nn.new_linear c_charge per_atom_channels false)
     (Nn.new_linear c_atom_name per_atom_channels false)
     (Nn.new_linear per_atom_channels per_atom_pair_channels false)
     (Nn.new_linear per_atom_channels per_atom_pair_channels false)
     (Nn.new_linear c_positions per_atom_pair_channels false)
     (Nn.new_linear c_pair_distance per_atom_pair_channels false)
     (Nn.new_linear 128 per_atom_pair_channels false)
     (Nn.new_linear 128 per_atom_pair_channels false)
     (Nn.new_linear c_positions per_atom_pair_channels false)
     (Nn.new_linear 1 per_atom_pair_channels false)
     (Nn.new_linear 1 per_atom_pair_channels false)
     (Nn.new_linear per_atom_pair_channels per_atom_pair_channels false)
     (Nn.new_linear per_atom_pair_channels per_atom_pair_channels false)
     (Nn.new_linear per_atom_pair_channels per_atom_pair_channels false)
     (Nn.new_transformer c_query)
     (Nn.new_linear c_query per_token_channels false).

Definition _per_atom_conditioning (self : t) (batch : Batch)
  : Torch.tensor A * Torch.tensor A :=
  let rs := ref_structure batch in
  let act := Nn.linear (embed_ref_pos self) (positions rs) in
  let act :=
    Nn.add act (Nn.linear (embed_ref_mask self) (Nn.unsqueeze 2 (mask rs))) in
  let act :=
    Nn.add act (Nn.linear (embed_ref_element self)
                          (Nn.one_hot 128 (element rs))) in
  let act :=
    Nn.add act (Nn.linear (embed_ref_charge self)
                          (Nn.unsqueeze 2 (Nn.arcsinh (charge rs)))) in
  let atom_name_chars_1hot := Nn.one_hot 64 (atom_name_chars rs) in
  let act :=
    Nn.add act (Nn.linear (embed_ref_atom_name self)
                          (Nn.flatten_last2 atom_name_chars_1hot)) in
  let act := Nn.mul act (Nn.unsqueeze 2 (mask rs)) in
  let row_act := Nn.linear (single_to_pair_cond_row self) (Nn.relu act) in
  let col_act := Nn.linear (single_to_pair_cond_col self) (Nn.relu act) in
  let pair_act := Nn.add (Nn.unsqueeze 2 row_act) (Nn.unsqueeze 1 col_act) in
  let offsets :=
    Nn.sub (Nn.unsqueeze 2 (positions rs)) (Nn.unsqueeze 1 (positions rs)) in
  let pair_act :=
    Nn.add pair_act (Nn.linear (embed_pair_offsets self) offsets) in
  let sq_dists := Nn.sum_last (Nn.square offsets) in
  let pair_act :=
    Nn.add pair_act
           (Nn.linear (embed_pair_distances self)
                      (Nn.inv_one_plus (Nn.unsqueeze 3 sq_dists))) in
  (act, pair_act).

Definition is_not_None {X : Type} (o : option X) : bool :=
  match o with
  | Some _ => true
  | None => false
  end.

Definition forward (self : t) (batch : Batch)
           (token_atoms_act trunk_single_cond trunk_pair_cond
            : option (Torch.tensor A))
  : result AtomCrossAttEncoderOutput :=
  _ <- assert (Bool.eqb (is_not_None token_atoms_act)
                        (with_token_atoms_act self)) ;;
  _ <- assert (Bool.eqb (is_not_None trunk_single_cond)
                        (with_trunk_single_cond self)) ;;
  _ <- assert (Bool.eqb (is_not_None trunk_pair_cond)
                        (with_trunk_pair_cond self)) ;;
  let maps := atom_cross_att batch in
  let token_atoms_single_cond := fst (_per_atom_conditioning self batch) in
  let token_atoms_mask := atom_mask (predicted_structure_info batch) in
  queries_single_cond <-
    convert (token_atoms_to_queries maps) token_atoms_single_cond
            [-3; -2]%Z ;;
  queries_mask <-
    convert (token_atoms_to_queries maps) token_atoms_mask [-2; -1]%Z ;;
  queries_act <-
    match token_atoms_act with
    | None => Ok (Nn.clone queries_single_cond)
    | Some _ => Raise NotImplementedError
    end ;;
  keys_single_cond <-
    convert (queries_to_keys maps) queries_single_cond [-3; -2]%Z ;;
  keys_mask <- convert (queries_to_keys maps) queries_mask [-2; -1]%Z ;;
  let row_act :=
    Nn.linear (single_to_pair_cond_row_1 self)
              (Nn.relu queries_single_cond) in
  pair_cond_keys_input <-
    convert (queries_to_keys maps) queries_single_cond [-3; -2]%Z ;;
  let col_act :=
    Nn.linear (single_to_pair_cond_col_1 self)
              (Nn.relu pair_cond_keys_input) in
  let pair_act := Nn.add (Nn.unsqueeze 2 row_act) (Nn.unsqueeze 1 col_act) in
  _ <- match trunk_pair_cond with
       | Some _ => Raise NotImplementedError
       | None => Ok tt
       end ;;
  queries_ref_pos <-
    convert (token_atoms_to_queries maps)
            (positions (ref_structure batch)) [-3; -2]%Z ;;
  queries_ref_space_uid <-
    convert (token_atoms_to_queries maps)
            (ref_space_uid (ref_structure batch)) [-2; -1]%Z ;;
  keys_ref_pos <-
    convert (queries_to_keys maps) queries_ref_pos [-3; -2]%Z ;;
  keys_ref_space_uid <-
    convert (queries_to_keys maps)
            (ref_space_uid (ref_structure batch)) [-2; -1]%Z ;;
  let offsets_valid :=
    Nn.eq (Nn.unsqueeze 2 queries_ref_space_uid)
          (Nn.unsqueeze 1 keys_ref_space_uid) in
  let offsets :=
    Nn.sub (Nn.unsqueeze 2 queries_ref_pos) (Nn.unsqueeze 1 keys_ref_pos) in
  let pair_act :=
    Nn.add pair_act
           (Nn.mul (Nn.linear (embed_pair_offsets_1 self) offsets)
                   (Nn.unsqueeze 3 offsets_valid)) in
  let sq_dists := Nn.sum_last (Nn.square offsets) in
  let pair_act :=
    Nn.add pair_act
           (Nn.mul (Nn.linear (embed_pair_distances_1 self)
                              (Nn.inv_one_plus (Nn.unsqueeze 3 sq_dists)))
                   (Nn.unsqueeze 3 offsets_valid)) in
  let pair_act :=
    Nn.add pair_act
           (Nn.linear (embed_pair_offsets_valid self)
                      (Nn.unsqueeze 3 offsets_valid)) in
  let pair_act2 := Nn.linear (pair_mlp_1 self) (Nn.relu pair_act) in
  let pair_act2 := Nn.linear (pair_mlp_2 self) (Nn.relu pair_act2) in
  let pair_act :=
    Nn.add pair_act (Nn.linear (pair_mlp_3 self) (Nn.relu pair_act2)) in
  let queries_act :=
    Nn.transformer (atom_transformer_encoder self) queries_act queries_mask
                   (queries_to_keys maps) keys_mask queries_single_cond
                   keys_single_cond pair_act in
  let queries_act := Nn.mul queries_act (Nn.unsqueeze (-1) queries_mask) in
  let skip_connection := Nn.clone queries_act in
  let queries_act :=
    Nn.linear (project_atom_features_for_aggr self) queries_act in
  token_atoms_act <-
    convert (queries_to_token_atoms maps) queries_act [-3; -2]%Z ;;
  let token_act :=
    Nn.mask_mean (Nn.unsqueeze (-1) token_atoms_mask)
                 (Nn.relu token_atoms_act) in
  Ok (mkOutput token_act skip_connection queries_mask queries_single_cond
               keys_mask keys_single_cond pair_act).

End WithOps.

Arguments t A {_}.
Arguments Batch A : clear implicits.
Arguments RefStructure A : clear implicits.
Arguments PredictedStructureInfo A : clear implicits.
Arguments AtomCrossAttEncoderOutput A : clear implicits.

End AtomCrossAttEncoder.

(** ** Example inputs *)

Module Examples.

Definition obj_array (s : list nat) (l : list obj) : Np.ndarray :=
  Np.mk Np.object s l.

Definition int_array (s : list nat) (l : list Z) : Np.ndarray :=
  Np.mk Np.int64 s (map Int l).

(** Two residues with two atom slots each; the last slot is padding. *)
Definition layout_2x2 : AtomLayout.t :=
  AtomLayout.mk
    (obj_array [2; 2] [Str "N"; Str "CA"; Str "N"; Str ""])
    (int_array [2; 2] [1; 1; 2; 0]%Z)
    (obj_array [2; 2] [Str "A"; Str "A"; Str "A"; Str ""])
    (Some (obj_array [2; 2] [Str "N"; Str "C"; Str "N"; Str ""]))
    (Some (obj_array [2; 2] [Str "GLY"; Str "GLY"; Str "ALA"; Str ""]))
    (Some (obj_array [2; 2] [Str "polypeptide(L)"; Str "polypeptide(L)";
                             Str "polypeptide(L)"; Str ""])).

(** A layout of rank 0: every field is a 0-d array. *)
Definition layout_0d : AtomLayout.t :=
  AtomLayout.mk (obj_array [] [Str "CA"]) (int_array [] [1%Z])
                (obj_array [] [Str "A"]) None None None.

(** A layout of rank 0 with every optional field present. *)
Definition layout_0d_full : AtomLayout.t :=
  AtomLayout.mk (obj_array [] [Str "CA"]) (int_array [] [1%Z])
                (obj_array [] [Str "A"]) (Some (obj_array [] [Str "C"]))
                (Some (obj_array [] [Str "ALA"]))
                (Some (obj_array [] [Str "polypeptide(L)"])).

(** One atom and one padding slot, padded in three ways: with empty
    strings and zero, with [None] as the padding atom name, and with
    other residue and chain entries in the padding slot. *)
Definition layout_pad_empty : AtomLayout.t :=
  AtomLayout.mk (obj_array [2] [Str "CA"; Str ""]) (int_array [2] [1; 0]%Z)
                (obj_array [2] [Str "A"; Str ""]) None None None.

Definition layout_pad_none : AtomLayout.t :=
  AtomLayout.mk (obj_array [2] [Str "CA"; NoneObj]) (int_array [2] [1; 0]%Z)
                (obj_array [2] [Str "A"; Str ""]) None None None.

Definition layout_pad_other : AtomLayout.t :=
  AtomLayout.mk (obj_array [2] [Str "CA"; Str ""]) (int_array [2] [1; 7]%Z)
                (obj_array [2] [Str "A"; Str "Z"]) None None None.

(** Inputs of [convert]. *)
Definition ints (s : list nat) (l : list Z) : Torch.tensor Z := Torch.mk s l.

Definition floats (s : list nat) (l : list float) : Torch.tensor float :=
  Torch.mk s l.

(** A map over a source of two rows: it reverses the rows, repeats the
    first one and masks the last position. *)
Definition map_3_of_2 : GatherInfo.t :=
  GatherInfo.mk (Torch.mk [3] [1; 0; 0]%Z) (Torch.mk [3] [true; true; false])
                [2%Z].

(** A map whose only index lies outside a source of two rows. *)
Definition map_out_of_range : GatherInfo.t :=
  GatherInfo.mk (Torch.mk [1] [5%Z]) (Torch.mk [1] [true]) [2%Z].

(** A map that masks its only position. *)
Definition map_masked : GatherInfo.t :=
  GatherInfo.mk (Torch.mk [1] [0%Z]) (Torch.mk [1] [false]) [1%Z].

(** A map that masks both of its positions. *)
Definition map_masked_2 : GatherInfo.t :=
  GatherInfo.mk (Torch.mk [2] [1; 0]%Z) (Torch.mk [2] [false; false]) [2%Z].

(** Inputs of [dot_product_attention]: two queries of width 1 and two
    keys; a mask that excludes both keys, and one that excludes the
    second.  The masks have one row, which is broadcast over the
    queries. *)
Definition att_q : Attention.matrix := [[0%R]; [0%R]].

Definition att_k : Attention.matrix := [[0%R]; [0%R]].

Definition mask_none_valid : list (list bool) := [[false; false]].

Definition mask_first_valid : list (list bool) := [[true; false]].

(** The row of logits of either query under [mask_first_valid]. *)
Definition logits_first_valid : list R :=
  [@Attention.dot Attention.flushing
     [@Attention.scale Attention.flushing 1 0%R] [0%R];
   Attention.neg_1e9].

(** Tensor operations that hand back their first tensor argument; they
    serve to run the encoder on a small batch. *)
Definition plain_ops : Nn.Ops Z :=
  {| Nn.Linear := unit;
     Nn.LayerNorm := unit;
     Nn.DiffusionCrossAttTransformer := unit;
     Nn.new_linear := fun _ _ _ => tt;
     Nn.new_layer_norm := fun _ => tt;
     Nn.new_transformer := fun _ => tt;
     Nn.linear := fun _ t => t;
     Nn.layer_norm := fun _ t => t;
     Nn.transformer := fun _ queries_act _ _ _ _ _ _ => queries_act;
     Nn.add := fun a _ => a;
     Nn.sub := fun a _ => a;
     Nn.mul := fun a _ => a;
     Nn.eq := fun a _ => a;
     Nn.relu := fun t => t;
     Nn.sigmoid := fun t => t;
     Nn.arcsinh := fun t => t;
     Nn.square := fun t => t;
     Nn.clone := fun t => t;
     Nn.softmax := fun t => t;
     Nn.sum_last := fun t => t;
     Nn.inv_one_plus := fun t => t;
     Nn.unsqueeze := fun _ t => t;
     Nn.one_hot := fun _ t => t;
     Nn.flatten_last2 := fun t => t;
     Nn.mask_bias := fun m _ => m;
     Nn.split_heads := fun _ t => t;
     Nn.scaled_logits := fun _ q _ => q;
     Nn.weighted_values := fun w _ => w;
     Nn.mask_mean := fun _ v => v |}.

(** Two tokens with three dense atom slots each and identity maps between
    the token-atom, query and key layouts. *)
Definition per_atom (l : list Z) : Torch.tensor Z := Torch.mk [2; 3] l.

Definition small_batch : AtomCrossAttEncoder.Batch Z :=
  AtomCrossAttEncoder.mkBatch
    (AtomCrossAttEncoder.mkRefStructure
       (Torch.mk [2; 3; 3] (repeat 0%Z 18))
       (per_atom [1; 1; 1; 1; 1; 0]%Z)
       (per_atom [7; 6; 6; 7; 6; 0]%Z)
       (per_atom [0; 0; 0; 0; 0; 0]%Z)
       (Torch.mk [2; 3; 4] (repeat 0%Z 24))
       (per_atom [0; 0; 0; 1; 1; 1]%Z))
    (AtomCrossAttEncoder.mkPredictedStructureInfo
       (per_atom [1; 1; 1; 1; 1; 0]%Z))
    (AtomCrossAttEncoder.mkAtomCrossAtt
       (identity_map [2; 3]) (identity_map [2; 3]) (identity_map [2; 3])).

Definition trunk_single : Torch.tensor Z := Torch.mk [2; 4] (repeat 0%Z 8).

End Examples.

(** ** Python dictionaries and [GatherInfo.as_dict] / [from_dict] *)

Module Dict.

(** A dictionary with string keys, newest binding first: a lookup returns
    the value that was stored last under the key. *)
Definition t (V : Type) : Type := list (string * V).

(** What a lookup or a constructor call ends in. *)
Inductive outcome (A : Type) : Type :=
| Returned (a : A)
| KeyError (key : string)
| Raised (e : exn).

Arguments Returned {A} a.
Arguments KeyError {A} key.
Arguments Raised {A} e.

Definition then_ {A B : Type} (m : outcome A) (k : A -> outcome B)
  : outcome B :=
  match m with
  | Returned a => k a
  | KeyError key => KeyError key
  | Raised e => Raised e
  end.

(** [d[key]] *)
Fixpoint get {V : Type} (d : t V) (key : string) : outcome V :=
  match d with
  | [] => KeyError key
  | (k, v) :: d' => if String.eqb key k then Returned v else get d' key
  end.

(** [d[key] = v] *)
Definition set {V : Type} (d : t V) (key : string) (v : V) : t V :=
  (key, v) :: d.

(** [{**d1, **d2}]: the bindings of [d2] win. *)
Definition update {V : Type} (d1 d2 : t V) : t V := d2 ++ d1.

End Dict.

Module GatherInfoDict.

Import Dict.

(** The tensors stored in the dictionary, by element type. *)
Inductive tensor_value : Type :=
| Ints (t : Torch.tensor Z)
| Bools (t : Torch.tensor bool)
| Shape (l : list Z).

(** [f'{key_prefix}:' if key_prefix else '']: [None] and the empty string
    give no prefix. *)
Definition prefix_of (key_prefix : option string) : string :=
  match key_prefix with
  | None => ""
  | Some p => if String.eqb p "" then "" else (p ++ ":")
  end%string.

Definition as_dict (self : GatherInfo.t) (key_prefix : option string)
  : Dict.t tensor_value :=
  let prefix := prefix_of key_prefix in
  set (set (set [] (prefix ++ "gather_idxs")%string
                (Ints (GatherInfo.gather_idxs self)))
           (prefix ++ "gather_mask")%string
           (Bools (GatherInfo.gather_mask self)))
      (prefix ++ "input_shape")%string
      (Shape (GatherInfo.input_shape self)).

(** [from_dict] looks the three keys up in the order of the constructor
    arguments and calls the constructor.  The fields of the model are
    typed; a stored tensor of another element type is outside the model
    and is reported as [TypeError]. *)
Definition from_dict (d : Dict.t tensor_value) (key_prefix : option string)
  : outcome GatherInfo.t :=
  let prefix := prefix_of key_prefix in
  then_ (get d (prefix ++ "gather_idxs")%string) (fun gi =>
  then_ (get d (prefix ++ "gather_mask")%string) (fun gm =>
  then_ (get d (prefix ++ "input_shape")%string) (fun sh =>
  match gi, gm, sh with
  | Ints gi, Bools gm, Shape sh =>
      match GatherInfo.make gi gm sh with
      | Ok g => Returned g
      | Raise e => Raised e
      end
  | _, _, _ => Raised TypeError
  end))).

(** The names under which the fields are stored. *)
Definition field_name (n : string) : Prop :=
  n = "gather_idxs"%string \/ n = "gather_mask"%string
  \/ n = "input_shape"%string.

End GatherInfoDict.

(** ** Vocabulary of the further properties of layouts *)

(** The objects of an array at the valid slots of a mask, compared one by
    one. *)
Definition same_on (m : list bool) (a b : Np.ndarray) : bool :=
  list_eqb obj_eqb (Np.select m (Np.data a)) (Np.select m (Np.data b)).

Definition same_on_opt (m : list bool) (f g : option Np.ndarray) : bool :=
  match f, g with
  | Some a, Some b => same_on m a b
  | _, _ => true
  end.

(** What [A == B] computes on well-formed layouts. *)
Definition layouts_equal (X Y : AtomLayout.t) : bool :=
  Np.array_equal (AtomLayout.atom_name X) (AtomLayout.atom_name Y)
  && same_on (valid_slots X) (AtomLayout.res_id X) (AtomLayout.res_id Y)
  && same_on (valid_slots X) (AtomLayout.chain_id X) (AtomLayout.chain_id Y)
  && same_on_opt (valid_slots X) (AtomLayout.atom_element X)
                 (AtomLayout.atom_element Y)
  && same_on_opt (valid_slots X) (AtomLayout.res_name X)
                 (AtomLayout.res_name Y)
  && same_on_opt (valid_slots X) (AtomLayout.chain_type X)
                 (AtomLayout.chain_type Y).

(** The atom names at the valid slots of a layout, in order. *)
Definition valid_names (L : AtomLayout.t) : list obj :=
  filter truthy (Np.data (AtomLayout.atom_name L)).

(** A stacked array of shape (6, 2): the six fields of two atoms. *)
Definition stacked_6x2 : Np.ndarray :=
  Examples.obj_array [6; 2]
    [Str "N"; Str "CA"; Int 1; Int 1; Str "A"; Str "A";
     Str "N"; Str "C"; Str "GLY"; Str "GLY"; Str "p"; Str "p"].

(** Entry [p] of a 1-D gather: the entry of [l] at index [idxs[p]]
    (negative indices wrapped), multiplied by the promoted [mask[p]]. *)
Definition gather_masked {A : Type} `{Torch.Dtype A} (d : A) (l : list A)
           (idxs : list Z) (mask : list bool) : list A :=
  map (fun jm => Torch.mul (nth (Z.to_nat (wrap (length l) (fst jm))) l d)
                           (Torch.of_bool (snd jm)))
      (combine idxs mask).

(** The mask of the logits' shape that excludes no key. *)
Definition full_mask (q k : Attention.matrix) : list (list bool) :=
  repeat (repeat true (length k)) (length q).

(** The three assertions at the head of [AtomCrossAttEncoder.forward]:
    each optional input is given exactly when the encoder was constructed
    for it. *)
Definition flags_match {A : Type} `{Nn.Ops A}
           (self : AtomCrossAttEncoder.t A)
           (token_atoms_act trunk_single_cond trunk_pair_cond
            : option (Torch.tensor A)) : bool :=
  Bool.eqb (AtomCrossAttEncoder.is_not_None token_atoms_act)
           (AtomCrossAttEncoder.with_token_atoms_act self)
  && Bool.eqb (AtomCrossAttEncoder.is_not_None trunk_single_cond)
              (AtomCrossAttEncoder.with_trunk_single_cond self)
  && Bool.eqb (AtomCrossAttEncoder.is_not_None trunk_pair_cond)
              (AtomCrossAttEncoder.with_trunk_pair_cond self).

(** An optional field of the middle layout is present whenever the two
    outer layouts both have it. *)
Definition opt_covered (y x z : option Np.ndarray) : Prop :=
  match x, z with
  | Some _, Some _ => y <> None
  | _, _ => True
  end.

(** One atom, with the given element or without the element field. *)
Definition layout_element (e : string) : AtomLayout.t :=
  AtomLayout.mk (Examples.obj_array [1] [Str "CA"])
                (Examples.int_array [1] [1%Z])
                (Examples.obj_array [1] [Str "A"])
                (Some (Examples.obj_array [1] [Str e])) None None.

Definition layout_no_element : AtomLayout.t :=
  AtomLayout.mk (Examples.obj_array [1] [Str "CA"])
                (Examples.int_array [1] [1%Z])
                (Examples.obj_array [1] [Str "A"]) None None None.

(** The layout [Examples.layout_2x2] with other entries in its padding
    slot: every field but [atom_name] holds [fill] there ([res_id] holds
    [n]). *)
Definition layout_2x2_padded (n : Z) (fill : string) : AtomLayout.t :=
  AtomLayout.mk
    (Examples.obj_array [2; 2] [Str "N"; Str "CA"; Str "N"; Str ""])
    (Examples.int_array [2; 2] [1; 1; 2; n]%Z)
    (Examples.obj_array [2; 2] [Str "A"; Str "A"; Str "A"; Str fill])
    (Some (Examples.obj_array [2; 2] [Str "N"; Str "C"; Str "N"; Str fill]))
    (Some (Examples.obj_array [2; 2]
             [Str "GLY"; Str "GLY"; Str "ALA"; Str fill]))
    (Some (Examples.obj_array [2; 2]
             [Str "polypeptide(L)"; Str "polypeptide(L)";
              Str "polypeptide(L)"; Str fill])).

(* ================================================================== *)
(** * Part II: properties *)
(* ================================================================== *)

Unset Implicit Arguments.

(** ** Blocks of a flat list *)

Section Blocks.

Context {A : Type}.

Lemma firstn_plus (a b : nat) (l : list A) :
  firstn (a + b) l = firstn a l ++ firstn b (skipn a l).
Proof.
  revert l; induction a as [|a IH]; intros l; simpl; [reflexivity|].
  destruct l as [|x l]; simpl.
  - now rewrite firstn_nil.
  - now rewrite IH.
Qed.

Lemma row_length (w i : nat) (l : list A) :
  (i + 1) * w <= length l -> length (row w i l) = w.
Proof.
  intros Hl. unfold row.
  rewrite length_firstn, length_skipn. lia.
Qed.

(** Consecutive blocks put end to end are a segment of the list. *)
Lemma flat_map_row_seq (w : nat) (l : list A) (n a : nat) :
  flat_map (fun j => row w j l) (seq a n) = firstn (n * w) (skipn (a * w) l).
Proof.
  revert a; induction n as [|n IH]; intros a; simpl; [reflexivity|].
  rewrite IH, firstn_plus. unfold row. f_equal.
  now rewrite skipn_skipn.
Qed.

Lemma flat_map_row_all (w n : nat) (l : list A) :
  length l = n * w -> flat_map (fun j => row w j l) (seq 0 n) = l.
Proof.
  intros Hl. rewrite flat_map_row_seq. simpl.
  apply firstn_all2. lia.
Qed.

Lemma flat_map_ext_in' {B : Type} (f g : B -> list A) (js : list B) :
  (forall j, In j js -> f j = g j) -> flat_map f js = flat_map g js.
Proof.
  induction js as [|j js IH]; intros E; simpl; [reflexivity|].
  rewrite (E j (or_introl eq_refl)), IH; [reflexivity|].
  intros; apply E; now right.
Qed.

Lemma flat_map_length_const {B : Type} (f : B -> list A) (w : nat)
      (js : list B) :
  (forall j, In j js -> length (f j) = w) ->
  length (flat_map f js) = length js * w.
Proof.
  induction js as [|j js IH]; intros E; simpl; [reflexivity|].
  rewrite length_app, (E j (or_introl eq_refl)), IH; [reflexivity|].
  intros; apply E; now right.
Qed.

(** The [i]-th block of pieces of equal width is the [i]-th piece. *)
Lemma row_flat_map {B : Type} (f : B -> list A) (w : nat) (js : list B)
      (rest : list A) (i : nat) (j : B) :
  (forall j, In j js -> length (f j) = w) ->
  nth_error js i = Some j ->
  row w i (flat_map f js ++ rest) = f j.
Proof.
  revert i; induction js as [|j0 js IH]; intros i E Hi.
  - destruct i; discriminate.
  - assert (E0 : length (f j0) = w) by (apply E; now left).
    destruct i as [|i]; simpl in Hi.
    + injection Hi as ->. unfold row; simpl.
      rewrite <- app_assoc, firstn_app, E0, Nat.sub_diag; simpl.
      rewrite app_nil_r. apply firstn_all2; lia.
    + unfold row; simpl. rewrite <- app_assoc.
      replace (w + i * w) with (length (f j0) + i * w) by lia.
      rewrite skipn_app, skipn_all2 by lia; simpl.
      replace (length (f j0) + i * w - length (f j0)) with (i * w) by lia.
      apply IH; [|exact Hi]. intros; apply E; now right.
Qed.

End Blocks.

(** ** Shapes, padding and slicing *)

Lemma list_eqb_eq {A : Type} (eqb : A -> A -> bool) :
  (forall x y, eqb x y = true <-> x = y) ->
  forall l m, list_eqb eqb l m = true <-> l = m.
Proof.
  intros E; induction l as [|x l IH]; destruct m as [|y m]; simpl;
    try (split; [discriminate|discriminate]); [tauto|].
  rewrite andb_true_iff, E, IH. split.
  - now intros [-> ->].
  - intros [= -> ->]; tauto.
Qed.

Lemma shape_eqb_eq (s s' : list nat) : shape_eqb s s' = true <-> s = s'.
Proof. apply list_eqb_eq, Nat.eqb_eq. Qed.

Lemma shape_eqb_refl (s : list nat) : shape_eqb s s = true.
Proof. now apply shape_eqb_eq. Qed.

Lemma obj_eqb_eq (a b : obj) : obj_eqb a b = true <-> a = b.
Proof.
  destruct a, b; simpl; try (split; [discriminate|discriminate]);
    try tauto.
  - rewrite String.eqb_eq. split; [now intros ->|now intros [= ->]].
  - rewrite Z.eqb_eq. split; [now intros ->|now intros [= ->]].
Qed.

Lemma obj_list_eqb_refl (l : list obj) : list_eqb obj_eqb l l = true.
Proof. now apply (list_eqb_eq _ obj_eqb_eq). Qed.

Lemma slice_extent (d a : nat) :
  slice_start (0 + d + a) (Some 0%Z) = 0 /\
  slice_len (0 + d + a) (Some 0%Z) (Some (Z.of_nat d)) = d.
Proof.
  unfold slice_len, slice_stop, slice_start, clamp.
  change (0 <? 0)%Z with false.
  destruct (Z.of_nat d <? 0)%Z eqn:E; [apply Z.ltb_lt in E; lia|].
  rewrite Nat2Z.id. simpl. lia.
Qed.

Section PadSlice.

Context {A : Type} (fill : A).

Lemma pad_data_length (s : list nat) :
  forall (pw : list (nat * nat)) (l : list A),
    length l = numel s ->
    length (pad_data fill s pw l) = numel (pad_shape s pw).
Proof.
  induction s as [|d ds IH]; intros pw l Hl; [exact Hl|].
  destruct pw as [|[b a] pw]; [exact Hl|].
  cbn [pad_data pad_shape numel fold_right] in *.
  fold (numel ds) in Hl. fold (numel (pad_shape ds pw)).
  rewrite !length_app, !repeat_length.
  rewrite (flat_map_length_const _ (numel (pad_shape ds pw))).
  - rewrite length_seq. lia.
  - intros j Hj. apply in_seq in Hj. apply IH, row_length. nia.
Qed.

Lemma index_shape_pad (s : list nat) :
  forall pw : list (nat * nat),
    length pw = length s -> pads_after pw ->
    index_shape (extents s) (pad_shape s pw) = Ok s.
Proof.
  induction s as [|d ds IH]; intros pw Hn Hp; [reflexivity|].
  destruct pw as [|[b a] pw]; [discriminate|].
  inversion Hp as [|? ? Hb Hp']; subst. simpl in Hb; subst b.
  cbn [extents map pad_shape index_shape].
  fold (extents ds). rewrite IH by (simpl in Hn; auto with arith).
  cbn [bind]. now rewrite (proj2 (slice_extent d a)).
Qed.

(** Cutting a padded array back to its extents gives back its elements. *)
Lemma index_data_pad (s : list nat) :
  forall (pw : list (nat * nat)) (l : list A),
    length pw = length s -> pads_after pw -> length l = numel s ->
    index_data (extents s) (pad_shape s pw) (pad_data fill s pw l) = l.
Proof.
  induction s as [|d ds IH]; intros pw l Hn Hp Hl; [reflexivity|].
  destruct pw as [|[b a] pw]; [discriminate|].
  inversion Hp as [|? ? Hb Hp']; subst. simpl in Hb; subst b.
  cbn [extents map pad_shape pad_data index_data].
  fold (extents ds).
  destruct (slice_extent d a) as [-> ->].
  cbn [numel fold_right] in Hl. fold (numel ds) in Hl.
  cbn [Nat.mul repeat app].
  transitivity (flat_map (fun j => row (numel ds) j l) (seq 0 d));
    [|apply flat_map_row_all; lia].
  apply flat_map_ext_in'. intros j Hj.
  assert (Hr : length (row (numel ds) j l) = numel ds).
  { apply in_seq in Hj. apply row_length. nia. }
  rewrite (row_flat_map _ (numel (pad_shape ds pw)) (seq 0 d) _ j j).
  - apply IH; [simpl in Hn; lia|assumption|assumption].
  - intros i Hi. apply pad_data_length, row_length.
    apply in_seq in Hi. nia.
  - apply in_seq in Hj.
    rewrite nth_error_nth' with (d := 0) by (rewrite length_seq; lia).
    rewrite seq_nth by lia. reflexivity.
Qed.

End PadSlice.

(** ** Well-formed layouts *)

Lemma np_wfb_ok (a : Np.ndarray) (s : list nat) :
  shape_eqb (Np.shape a) s = true -> Np.wfb a = true -> field_ok s a.
Proof.
  intros Hs Hw. apply shape_eqb_eq in Hs. apply Nat.eqb_eq in Hw.
  split; [exact Hs|now rewrite <- Hs].
Qed.

Lemma post_init_inv (L : AtomLayout.t) :
  AtomLayout.__post_init__ L = Ok tt <->
  Np.dtype_of (AtomLayout.atom_name L) = Np.object /\
  forallb (fun f => match f with
                    | None => true
                    | Some a => shape_eqb (Np.shape a) (AtomLayout.shape L)
                    end)
          [Some (AtomLayout.atom_name L); AtomLayout.atom_element L;
           AtomLayout.res_name L; Some (AtomLayout.res_id L);
           Some (AtomLayout.chain_id L); AtomLayout.chain_type L] = true.
Proof.
  unfold AtomLayout.__post_init__, AtomLayout._assert_all_arrays_have_same_shape,
    AtomLayout.shape.
  destruct (forallb _ _); cbn [bind].
  - destruct (Np.dtype_of (AtomLayout.atom_name L)); simpl; split;
      try tauto; try discriminate. intros [? _]; discriminate.
  - split; [discriminate|]. intros [_ ?]; discriminate.
Qed.

Lemma layout_wfb_inv (L : AtomLayout.t) :
  AtomLayout.wfb L = true ->
  AtomLayout.__post_init__ L = Ok tt /\
  field_ok (AtomLayout.shape L) (AtomLayout.atom_name L) /\
  field_ok (AtomLayout.shape L) (AtomLayout.res_id L) /\
  field_ok (AtomLayout.shape L) (AtomLayout.chain_id L) /\
  field_ok_opt (AtomLayout.shape L) (AtomLayout.atom_element L) /\
  field_ok_opt (AtomLayout.shape L) (AtomLayout.res_name L) /\
  field_ok_opt (AtomLayout.shape L) (AtomLayout.chain_type L).
Proof.
  unfold AtomLayout.wfb. rewrite !andb_true_iff.
  intros [[[[[[Hp Wn] Wr] Wc] We] Ws] Wt].
  assert (Hp' : AtomLayout.__post_init__ L = Ok tt).
  { destruct (AtomLayout.__post_init__ L) as [[]|]; [reflexivity|discriminate]. }
  split; [exact Hp'|].
  apply post_init_inv in Hp'. destruct Hp' as [_ Hs].
  cbn [forallb] in Hs. rewrite !andb_true_iff in Hs.
  destruct Hs as (Sn & Se & Ss & Sr & Sc & St & _).
  repeat split; try (apply np_wfb_ok; assumption);
    try (destruct L as [an ri ci [ae|] [rn|] [ct|]]; simpl in *;
         try exact I; apply np_wfb_ok; assumption).
  all: try (apply Nat.eqb_eq in Wn; exact Wn).
Qed.

Lemma make_ok (an ri ci : Np.ndarray) (ae rn ct : option Np.ndarray) :
  Np.dtype_of an = Np.object ->
  Np.shape ri = Np.shape an -> Np.shape ci = Np.shape an ->
  (forall a, ae = Some a -> Np.shape a = Np.shape an) ->
  (forall a, rn = Some a -> Np.shape a = Np.shape an) ->
  (forall a, ct = Some a -> Np.shape a = Np.shape an) ->
  AtomLayout.make an ri ci ae rn ct = Ok (AtomLayout.mk an ri ci ae rn ct).
Proof.
  intros Hd Hr Hc He Hn Ht. unfold AtomLayout.make.
  replace (AtomLayout.__post_init__ _) with (@Ok unit tt); [reflexivity|].
  symmetry. apply post_init_inv. split; [exact Hd|].
  unfold AtomLayout.shape. cbn [forallb AtomLayout.atom_name
    AtomLayout.atom_element AtomLayout.res_name AtomLayout.res_id
    AtomLayout.chain_id AtomLayout.chain_type].
  rewrite Hr, Hc, shape_eqb_refl. cbn [andb].
  destruct ae as [a|]; [rewrite (He a eq_refl), shape_eqb_refl|];
    destruct rn as [b|]; [rewrite (Hn b eq_refl), shape_eqb_refl| |
                          rewrite (Hn b eq_refl), shape_eqb_refl|];
    destruct ct as [c|]; try rewrite (Ht c eq_refl), shape_eqb_refl;
    reflexivity.
Qed.

(** ** [copy_and_pad_to] followed by slicing *)

Lemma fits_iff (s : list nat) (target : list Z) :
  fits s target <->
  length target = length s /\
  existsb (fun on => (snd on <? Z.of_nat (fst on))%Z) (combine s target) = false.
Proof.
  revert target; induction s as [|d s IH]; intros [|n target]; simpl.
  - split; [auto|constructor].
  - split; [inversion 1|intros [? _]; discriminate].
  - split; [inversion 1|intros [? _]; discriminate].
  - rewrite orb_false_iff, Z.ltb_ge. split.
    + inversion 1; subst. apply IH in H5. destruct H5. repeat split; auto.
    + intros [Hn [Hd He]]. constructor; [exact Hd|].
      apply IH. split; [lia|exact He].
Qed.

Lemma pad_width_of_length (s : list nat) (target : list Z) :
  length target = length s -> length (pad_width_of s target) = length s.
Proof.
  intros Hn. unfold pad_width_of.
  rewrite length_map, length_combine. lia.
Qed.

Lemma pad_width_of_after (s : list nat) (target : list Z) :
  pads_after (pad_width_of s target).
Proof.
  unfold pads_after, pad_width_of. apply Forall_map, Forall_forall.
  reflexivity.
Qed.

Lemma pad_shape_pad_width (s : list nat) (target : list Z) :
  fits s target -> pad_shape s (pad_width_of s target) = map Z.to_nat target.
Proof.
  induction 1 as [|d n s target Hd _ IH]; [reflexivity|].
  unfold pad_width_of in *. cbn [combine map pad_shape fst snd].
  rewrite IH. f_equal. lia.
Qed.

Lemma pad_then_cut (a : Np.ndarray) (s : list nat) (pw : list (nat * nat))
      (fill : obj) :
  field_ok s a -> s <> [] -> length pw = length s -> pads_after pw ->
  exists p,
    Np.pad a pw fill = Ok p /\
    Np.shape p = pad_shape s pw /\
    Np.dtype_of p = Np.dtype_of a /\
    Np.getitem p (extents s) = Ok (Np.Arr a).
Proof.
  intros [Hs Hl] Hne Hn Hp. destruct a as [dt sh da]; simpl in *; subst sh.
  exists (Np.mk dt (pad_shape s pw) (pad_data fill s pw da)).
  split; [|split; [reflexivity|split; [reflexivity|]]].
  - unfold Np.pad. destruct pw; [|reflexivity].
    destruct s; [contradiction|discriminate].
  - unfold Np.getitem. cbn [Np.shape Np.data Np.dtype_of].
    rewrite index_shape_pad, index_data_pad by assumption.
    cbn [bind]. destruct s as [|d ds]; [contradiction|]. reflexivity.
Qed.

Lemma pad_then_cut_opt (f : option Np.ndarray) (s : list nat)
      (pw : list (nat * nat)) (fill : obj) :
  field_ok_opt s f -> s <> [] -> length pw = length s -> pads_after pw ->
  exists p v,
    AtomLayout.pad_opt f pw fill = Ok p /\
    (forall b, p = Some b -> Np.shape b = pad_shape s pw) /\
    AtomLayout.getitem_opt p (extents s) = Ok v /\
    AtomLayout.as_array_opt v = Ok f.
Proof.
  intros Hf Hne Hn Hp. destruct f as [a|]; simpl in *.
  - destruct (pad_then_cut a s pw fill Hf Hne Hn Hp) as (p & E & Sp & _ & G).
    exists (Some p), (Some (Np.Arr a)). rewrite E; cbn [bind].
    split; [reflexivity|]. split; [now intros b [= <-]|].
    cbn [AtomLayout.getitem_opt]. now rewrite G.
  - exists None, None. repeat split; discriminate.
Qed.

(** C8: for every well-formed AtomLayout [L] (layouts have at least one
    axis) and every target shape [S] of the same rank whose dimensions are
    at least those of [L], [copy_and_pad_to] succeeds, the padded layout has
    shape [S], and cutting it back to the extents of [L] gives [L] itself,
    field by field; for any other [S] (another rank or a smaller dimension)
    [copy_and_pad_to] raises [ValueError]. *)
Theorem copy_and_pad_to_slice_back (L : AtomLayout.t) (S : list Z) :
  AtomLayout.wfb L = true ->
  AtomLayout.shape L <> [] ->
  (fits (AtomLayout.shape L) S ->
   exists P,
     AtomLayout.copy_and_pad_to L S = Ok P /\
     AtomLayout.shape P = map Z.to_nat S /\
     AtomLayout.__getitem__ P (extents (AtomLayout.shape L)) = Ok L) /\
  (~ fits (AtomLayout.shape L) S ->
   AtomLayout.copy_and_pad_to L S = Raise ValueError).
Proof.
  intros Hw Hne.
  destruct (layout_wfb_inv L Hw) as (Hpi & Fn & Fr & Fc & Fe & Fs & Ft).
  unfold AtomLayout.copy_and_pad_to. fold (AtomLayout.shape L).
  fold (pad_width_of (AtomLayout.shape L) S).
  split.
  - intros Hfit. pose proof (pad_shape_pad_width _ _ Hfit) as Hps.
    apply fits_iff in Hfit as [Hlen Hex].
    rewrite Hlen, Nat.eqb_refl, Hex. cbn [negb].
    pose proof (pad_width_of_length _ _ Hlen) as Hn.
    pose proof (pad_width_of_after (AtomLayout.shape L) S) as Hp.
    set (pw := pad_width_of (AtomLayout.shape L) S) in *.
    destruct (pad_then_cut _ _ pw (Str "") Fn Hne Hn Hp)
      as (pn & En & Sn & Dn & Gn).
    destruct (pad_then_cut _ _ pw (Int 0) Fr Hne Hn Hp)
      as (pr & Er & Sr & _ & Gr).
    destruct (pad_then_cut _ _ pw (Str "") Fc Hne Hn Hp)
      as (pc & Ec & Sc & _ & Gc).
    destruct (pad_then_cut_opt _ _ pw (Str "") Fe Hne Hn Hp)
      as (pe & ve & Ee & Se & Ge & Ae).
    destruct (pad_then_cut_opt _ _ pw (Str "") Fs Hne Hn Hp)
      as (ps & vs & Es & Ss & Gs & As).
    destruct (pad_then_cut_opt _ _ pw (Str "") Ft Hne Hn Hp)
      as (pt & vt & Et & St & Gt & At).
    rewrite En, Er, Ec, Ee, Es, Et. cbn [bind].
    assert (Hd : Np.dtype_of (AtomLayout.atom_name L) = Np.object)
      by (apply post_init_inv in Hpi; tauto).
    rewrite make_ok;
      [|congruence|congruence|congruence
       |intros a Ha; rewrite (Se a Ha); congruence
       |intros a Ha; rewrite (Ss a Ha); congruence
       |intros a Ha; rewrite (St a Ha); congruence].
    eexists; split; [reflexivity|]. split.
    + unfold AtomLayout.shape at 1; cbn [AtomLayout.atom_name]. congruence.
    + unfold AtomLayout.__getitem__.
      cbn [AtomLayout.atom_name AtomLayout.res_id AtomLayout.chain_id
           AtomLayout.atom_element AtomLayout.res_name AtomLayout.chain_type].
      rewrite Gn, Gr, Gc, Ge, Gs, Gt. cbn [bind AtomLayout.as_array].
      rewrite Ae, As, At. cbn [bind].
      unfold AtomLayout.make. destruct L; cbn in Hpi |- *.
      now rewrite Hpi.
  - intros Hfit.
    destruct (length S =? length (AtomLayout.shape L)) eqn:El;
      [|reflexivity].
    destruct (existsb _ _) eqn:Ex; [reflexivity|].
    exfalso. apply Hfit, fits_iff. apply Nat.eqb_eq in El. auto.
Qed.

(** ** Masked equality of layouts *)

Lemma select_agree {A : Type} (m : list bool) :
  forall x y : list A,
    length x = length m -> length y = length m ->
    (forall i, nth i m false = true -> nth_error x i = nth_error y i) ->
    Np.select m x = Np.select m y.
Proof.
  induction m as [|b m IH]; intros x y Hx Hy E; [reflexivity|].
  destruct x as [|u x]; [discriminate|]. destruct y as [|v y]; [discriminate|].
  simpl in Hx, Hy.
  assert (T : Np.select m x = Np.select m y).
  { apply IH; [lia|lia|]. intros i Hi. exact (E (S i) Hi). }
  simpl. destruct b; [|exact T].
  specialize (E 0 eq_refl). simpl in E. injection E as ->. now rewrite T.
Qed.

Lemma masked_differ_agree (L : AtomLayout.t) (a b : Np.ndarray) :
  field_ok (AtomLayout.shape L) (AtomLayout.atom_name L) ->
  field_ok (AtomLayout.shape L) a -> field_ok (AtomLayout.shape L) b ->
  agree_valid L a b ->
  AtomLayout.masked_differ (Np.astype_bool (AtomLayout.atom_name L)) a b
  = Ok false.
Proof.
  intros [_ Ln] [Sa La] [Sb Lb] E.
  unfold AtomLayout.masked_differ, Np.getitem_mask, Np.astype_bool.
  cbn [fst snd]. fold (AtomLayout.shape L).
  rewrite Sa, Sb, shape_eqb_refl. cbn [bind].
  rewrite (select_agree _ (Np.data a) (Np.data b)).
  - unfold Np.array_equal; cbn [Np.shape Np.data].
    now rewrite shape_eqb_refl, obj_list_eqb_refl.
  - rewrite length_map. congruence.
  - rewrite length_map. congruence.
  - exact E.
Qed.

Lemma masked_differ_agree_opt (L : AtomLayout.t) (f g : option Np.ndarray)
      (rest : list (option Np.ndarray * option Np.ndarray)) :
  field_ok (AtomLayout.shape L) (AtomLayout.atom_name L) ->
  field_ok_opt (AtomLayout.shape L) f -> field_ok_opt (AtomLayout.shape L) g ->
  agree_valid_opt L f g ->
  AtomLayout.check_optional (Np.astype_bool (AtomLayout.atom_name L))
                            ((f, g) :: rest)
  = AtomLayout.check_optional (Np.astype_bool (AtomLayout.atom_name L)) rest.
Proof.
  intros Fn Ff Fg E. destruct f as [a|], g as [b|]; try reflexivity.
  cbn [AtomLayout.check_optional].
  now rewrite (masked_differ_agree L a b Fn Ff Fg E).
Qed.

(** Layouts with the same atom names whose other fields agree on the
    valid slots compare equal. *)
Lemma layout_eq_fields (X Y : AtomLayout.t) :
  let s := AtomLayout.shape X in
  field_ok s (AtomLayout.atom_name X) -> field_ok s (AtomLayout.atom_name Y) ->
  field_ok s (AtomLayout.res_id X) -> field_ok s (AtomLayout.res_id Y) ->
  field_ok s (AtomLayout.chain_id X) -> field_ok s (AtomLayout.chain_id Y) ->
  field_ok_opt s (AtomLayout.atom_element X) ->
  field_ok_opt s (AtomLayout.atom_element Y) ->
  field_ok_opt s (AtomLayout.res_name X) ->
  field_ok_opt s (AtomLayout.res_name Y) ->
  field_ok_opt s (AtomLayout.chain_type X) ->
  field_ok_opt s (AtomLayout.chain_type Y) ->
  Np.data (AtomLayout.atom_name X) = Np.data (AtomLayout.atom_name Y) ->
  agree_valid X (AtomLayout.res_id X) (AtomLayout.res_id Y) ->
  agree_valid X (AtomLayout.chain_id X) (AtomLayout.chain_id Y) ->
  agree_valid_opt X (AtomLayout.atom_element X) (AtomLayout.atom_element Y) ->
  agree_valid_opt X (AtomLayout.res_name X) (AtomLayout.res_name Y) ->
  agree_valid_opt X (AtomLayout.chain_type X) (AtomLayout.chain_type Y) ->
  AtomLayout.__eq__ X Y = Ok true.
Proof.
  intros s Fn Gn Fr Gr Fc Gc Fe Ge Fs Gs Ft Gt Hn Er Ec Ee Es Et.
  unfold AtomLayout.__eq__, Np.array_equal.
  rewrite (proj1 Fn), (proj1 Gn), shape_eqb_refl, Hn, obj_list_eqb_refl.
  cbn [negb AtomLayout.check_essential].
  rewrite (masked_differ_agree X _ _ Fn Fr Gr Er). cbn [bind].
  rewrite (masked_differ_agree X _ _ Fn Fc Gc Ec). cbn [bind].
  rewrite !masked_differ_agree_opt by assumption.
  reflexivity.
Qed.

(** C3, as amended: two well-formed AtomLayout values of the same shape
    whose [atom_name] arrays hold the same objects at every slot, padding
    included, and whose other fields agree on every valid slot (those with
    a truthy atom name; an optional field only when both layouts have it)
    compare equal, whatever the padding slots of the other fields hold. *)
Theorem eq_ignores_padding_of_other_fields (X Y : AtomLayout.t) :
  AtomLayout.wfb X = true -> AtomLayout.wfb Y = true ->
  AtomLayout.shape X = AtomLayout.shape Y ->
  Np.data (AtomLayout.atom_name X) = Np.data (AtomLayout.atom_name Y) ->
  agree_valid X (AtomLayout.res_id X) (AtomLayout.res_id Y) ->
  agree_valid X (AtomLayout.chain_id X) (AtomLayout.chain_id Y) ->
  agree_valid_opt X (AtomLayout.atom_element X) (AtomLayout.atom_element Y) ->
  agree_valid_opt X (AtomLayout.res_name X) (AtomLayout.res_name Y) ->
  agree_valid_opt X (AtomLayout.chain_type X) (AtomLayout.chain_type Y) ->
  AtomLayout.__eq__ X Y = Ok true.
Proof.
  intros Hx Hy Hs Hn Er Ec Ee Es Et.
  destruct (layout_wfb_inv X Hx) as (_ & Fn & Fr & Fc & Fe & Fs & Ft).
  destruct (layout_wfb_inv Y Hy) as (_ & Gn & Gr & Gc & Ge & Gs & Gt).
  rewrite <- Hs in Gn, Gr, Gc, Ge, Gs, Gt.
  now apply layout_eq_fields.
Qed.

(** ** Stacking a layout and rebuilding it *)

Lemma stack_rows (s : list nat) (fields : list Np.ndarray) (j : nat)
      (a : Np.ndarray) :
  Forall (field_ok s) fields ->
  nth_error fields j = Some a ->
  row (numel s) j (flat_map Np.data fields) = Np.data a.
Proof.
  intros Hf Hj. rewrite <- (app_nil_r (flat_map Np.data fields)).
  apply (row_flat_map Np.data (numel s) fields [] j a); [|exact Hj].
  intros b Hb. rewrite Forall_forall in Hf. exact (proj2 (Hf b Hb)).
Qed.

Lemma field_ok_rebuild (dt : Np.dtype) (s : list nat) (a : Np.ndarray) :
  field_ok s a -> field_ok s (Np.mk dt s (Np.data a)).
Proof. intros [_ Hl]. split; [reflexivity|exact Hl]. Qed.

Lemma agree_valid_same_data (L : AtomLayout.t) (a b : Np.ndarray) :
  Np.data a = Np.data b -> agree_valid L a b.
Proof. intros E i _. now rewrite E. Qed.

(** C7: layouts hold one entry per atom slot and have at least one axis
    (atoms, or residues by atom slots).  For every such well-formed
    AtomLayout [L] with all three optional fields present, [to_array] succeeds,
    [from_array] accepts its result, and the rebuilt layout compares equal
    to [L]; [to_array] raises [ValueError] when an optional field is
    absent, and [from_array] raises [ValueError] on an array whose first
    dimension is not 6. *)
Theorem from_array_to_array (L : AtomLayout.t) :
  AtomLayout.wfb L = true ->
  AtomLayout.shape L <> [] ->
  (forall ae rn ct,
      AtomLayout.atom_element L = Some ae ->
      AtomLayout.res_name L = Some rn ->
      AtomLayout.chain_type L = Some ct ->
      exists arr L',
        AtomLayout.to_array L = Ok arr /\
        Np.shape arr = 6 :: AtomLayout.shape L /\
        AtomLayout.from_array arr = Ok L' /\
        AtomLayout.__eq__ L' L = Ok true) /\
  (AtomLayout.atom_element L = None \/ AtomLayout.res_name L = None \/
   AtomLayout.chain_type L = None ->
   AtomLayout.to_array L = Raise ValueError) /\
  (forall arr d ds,
      Np.shape arr = d :: ds -> d <> 6 ->
      AtomLayout.from_array arr = Raise ValueError).
Proof.
  intros Hw Hne. split; [|split].
  - intros ae rn ct He Hn Ht.
    destruct (layout_wfb_inv L Hw) as (Hpi & Fn & Fr & Fc & Fe & Fs & Ft).
    rewrite He in Fe; rewrite Hn in Fs; rewrite Ht in Ft.
    cbn [field_ok_opt] in Fe, Fs, Ft.
    apply post_init_inv in Hpi. destruct Hpi as [Hd _].
    set (s := AtomLayout.shape L) in *.
    set (fields := [AtomLayout.atom_name L; AtomLayout.res_id L;
                    AtomLayout.chain_id L; ae; rn; ct]).
    assert (Hall : Forall (field_ok s) fields).
    { unfold fields. repeat (apply Forall_cons; [assumption|]).
      apply Forall_nil. }
    assert (Hst : AtomLayout.to_array L
                  = Ok (Np.mk Np.object (6 :: s) (flat_map Np.data fields))).
    { unfold AtomLayout.to_array. rewrite He, Hn, Ht. fold fields.
      unfold Np.stack, fields. fold fields. fold s.
      replace (forallb _ fields) with true.
      - unfold Np.promote, fields. cbn [existsb]. rewrite Hd. reflexivity.
      - symmetry. apply forallb_forall. intros b Hb.
        rewrite Forall_forall in Hall. rewrite (proj1 (Hall b Hb)).
        apply shape_eqb_refl. }
    eexists. eexists. split; [exact Hst|]. split; [reflexivity|].
    unfold AtomLayout.from_array, Np.iterate.
    cbn [Np.shape Np.data Np.dtype_of Nat.eqb negb].
    destruct s as [|d0 s0] eqn:Es; [contradiction|]. rewrite <- Es in *.
    cbn [bind seq map AtomLayout.as_array AtomLayout.as_field].
    rewrite (stack_rows s fields 0 _ Hall eq_refl),
      (stack_rows s fields 1 _ Hall eq_refl),
      (stack_rows s fields 2 _ Hall eq_refl),
      (stack_rows s fields 3 _ Hall eq_refl),
      (stack_rows s fields 4 _ Hall eq_refl),
      (stack_rows s fields 5 _ Hall eq_refl).
    split.
    + apply make_ok; try reflexivity; intros a [= <-]; reflexivity.
    + apply layout_eq_fields;
        cbn [AtomLayout.shape AtomLayout.atom_name AtomLayout.res_id
             AtomLayout.chain_id AtomLayout.atom_element AtomLayout.res_name
             AtomLayout.chain_type field_ok_opt agree_valid_opt Np.shape
             Np.data];
        fold (AtomLayout.shape L); rewrite <- ?Es;
        try rewrite He; try rewrite Hn; try rewrite Ht;
        cbn [field_ok_opt agree_valid_opt];
        try assumption; try reflexivity;
        try (apply agree_valid_same_data; reflexivity);
        try (apply field_ok_rebuild; assumption).
  - unfold AtomLayout.to_array. intros [E|[E|E]]; rewrite E;
      repeat match goal with |- context [match ?f with _ => _ end] =>
                               destruct f end; reflexivity.
  - intros arr d ds Hs Hd. unfold AtomLayout.from_array. rewrite Hs.
    apply Nat.eqb_neq in Hd. now rewrite Hd.
Qed.

(** ** The layout claims on the example layouts *)

Lemma agree_valid_pad_slot (L : AtomLayout.t) (x u v : obj)
      (dt1 dt2 : Np.dtype) :
  valid_slots L = [true; false] ->
  agree_valid L (Np.mk dt1 [2] [x; u]) (Np.mk dt2 [2] [x; v]).
Proof.
  intros Hv i Hi. rewrite Hv in Hi.
  destruct i as [|[|i]]; [reflexivity|discriminate|].
  destruct i; discriminate.
Qed.

(** C3 as stated fails: the two layouts agree on every valid slot of every
    field and differ only in the padding entry of [atom_name] (the empty
    string against [None]), and [__eq__] answers [False]. *)
Lemma eq_compares_padding_atom_names :
  AtomLayout.wfb Examples.layout_pad_empty = true /\
  AtomLayout.wfb Examples.layout_pad_none = true /\
  AtomLayout.shape Examples.layout_pad_empty
  = AtomLayout.shape Examples.layout_pad_none /\
  agree_valid Examples.layout_pad_empty
              (AtomLayout.atom_name Examples.layout_pad_empty)
              (AtomLayout.atom_name Examples.layout_pad_none) /\
  agree_valid Examples.layout_pad_empty
              (AtomLayout.res_id Examples.layout_pad_empty)
              (AtomLayout.res_id Examples.layout_pad_none) /\
  agree_valid Examples.layout_pad_empty
              (AtomLayout.chain_id Examples.layout_pad_empty)
              (AtomLayout.chain_id Examples.layout_pad_none) /\
  AtomLayout.__eq__ Examples.layout_pad_empty Examples.layout_pad_none
  = Ok false.
Proof.
  split; [reflexivity|]. split; [reflexivity|]. split; [reflexivity|].
  split; [|split; [|split; [|reflexivity]]];
    apply agree_valid_pad_slot; reflexivity.
Qed.

Lemma eq_ignores_padding_of_other_fields_witness :
  AtomLayout.__eq__ Examples.layout_pad_empty Examples.layout_pad_other
  = Ok true.
Proof.
  apply (eq_ignores_padding_of_other_fields
           Examples.layout_pad_empty Examples.layout_pad_other);
    try reflexivity; try exact I;
    apply agree_valid_pad_slot; reflexivity.
Defined.

(** A layout of rank 0 lies outside the layouts the code builds.  For the
    record: [to_array] stacks its six 0-d fields into a 1-D array of six
    objects, and [from_array] hands the plain objects to the constructor,
    which fails on the first [.shape]. *)
Lemma from_array_rank0_raises :
  AtomLayout.wfb Examples.layout_0d_full = true /\
  AtomLayout.to_array Examples.layout_0d_full
  = Ok (Examples.obj_array [6] [Str "CA"; Int 1; Str "A"; Str "C"; Str "ALA";
                                Str "polypeptide(L)"]) /\
  AtomLayout.from_array
    (Examples.obj_array [6] [Str "CA"; Int 1; Str "A"; Str "C"; Str "ALA";
                             Str "polypeptide(L)"])
  = Raise AttributeError.
Proof. repeat split. Qed.

Lemma from_array_to_array_witness :
  exists arr L',
    AtomLayout.to_array Examples.layout_2x2 = Ok arr /\
    Np.shape arr = 6 :: AtomLayout.shape Examples.layout_2x2 /\
    AtomLayout.from_array arr = Ok L' /\
    AtomLayout.__eq__ L' Examples.layout_2x2 = Ok true.
Proof.
  exact (proj1 (from_array_to_array Examples.layout_2x2 eq_refl
                                    ltac:(discriminate))
               _ _ _ eq_refl eq_refl eq_refl).
Defined.

(** A layout of rank 0 lies outside the layouts the code builds.  For the
    record: its target shape [()] has the same rank and no smaller
    dimension, and [copy_and_pad_to] raises when it pads with an empty
    [pad_width]. *)
Lemma copy_and_pad_to_rank0_raises :
  AtomLayout.wfb Examples.layout_0d = true /\
  fits (AtomLayout.shape Examples.layout_0d) [] /\
  AtomLayout.copy_and_pad_to Examples.layout_0d [] = Raise TypeError /\
  ~ (exists P,
        AtomLayout.copy_and_pad_to Examples.layout_0d [] = Ok P /\
        AtomLayout.__getitem__ P (extents (AtomLayout.shape Examples.layout_0d))
        = Ok Examples.layout_0d).
Proof.
  split; [reflexivity|]. split; [constructor|]. split; [reflexivity|].
  intros (P & E & _). discriminate E.
Qed.

Lemma copy_and_pad_to_slice_back_witness :
  exists P,
    AtomLayout.copy_and_pad_to Examples.layout_2x2 [3; 4]%Z = Ok P /\
    AtomLayout.shape P = map Z.to_nat [3; 4]%Z /\
    AtomLayout.__getitem__ P (extents (AtomLayout.shape Examples.layout_2x2))
    = Ok Examples.layout_2x2.
Proof.
  apply (proj1 (copy_and_pad_to_slice_back Examples.layout_2x2 [3; 4]%Z
                  eq_refl ltac:(discriminate))).
  repeat constructor; discriminate.
Defined.

(** ** Slicing a [GatherInfo] *)

(** C10: for every GatherInfo [g] that satisfies the construction
    invariant and every index key (integers, slices, [None] and [...]),
    [g[key]] raises exactly when indexing the index tensor does; otherwise
    it returns a GatherInfo with the same [input_shape] whose [gather_idxs]
    and [gather_mask] are those of [g] indexed by the same key, and the two
    have the same shape again. *)
Theorem gather_info_getitem (g : GatherInfo.t) (k : key) :
  GatherInfo.__post_init__ g = Ok tt ->
  match Torch.getitem (GatherInfo.gather_idxs g) k with
  | Raise e => GatherInfo.__getitem__ g k = Raise e
  | Ok gi =>
      exists g',
        GatherInfo.__getitem__ g k = Ok g' /\
        GatherInfo.input_shape g' = GatherInfo.input_shape g /\
        GatherInfo.gather_idxs g' = gi /\
        Torch.getitem (GatherInfo.gather_mask g) k
        = Ok (GatherInfo.gather_mask g') /\
        Torch.shape (GatherInfo.gather_idxs g')
        = Torch.shape (GatherInfo.gather_mask g') /\
        GatherInfo.__post_init__ g' = Ok tt
  end.
Proof.
  unfold GatherInfo.__post_init__. intros Hinv.
  destruct (shape_eqb _ _) eqn:Hs; [|discriminate]. apply shape_eqb_eq in Hs.
  unfold GatherInfo.__getitem__, Torch.getitem. rewrite Hs.
  destruct (index_shape k (Torch.shape (GatherInfo.gather_idxs g)))
    as [s'|e]; cbn [bind]; [|reflexivity].
  unfold GatherInfo.make, GatherInfo.__post_init__.
  cbn [GatherInfo.gather_idxs GatherInfo.gather_mask Torch.shape].
  rewrite shape_eqb_refl. cbn [negb bind].
  eexists. split; [reflexivity|].
  cbn [GatherInfo.gather_idxs GatherInfo.gather_mask GatherInfo.input_shape
       Torch.shape].
  rewrite shape_eqb_refl. repeat split.
Qed.

(** ** Layout axes and the span they select *)

Lemma numel_app (a b : list nat) : numel (a ++ b) = numel a * numel b.
Proof.
  induction a as [|x a IH]; simpl; [lia|].
  fold (numel (a ++ b)) (numel a). rewrite IH. lia.
Qed.

Lemma nth_skipn_plus {A : Type} (d : A) (b k : nat) (l : list A) :
  nth k (skipn b l) d = nth (b + k) l d.
Proof.
  revert l; induction b as [|b IH]; intros l; [reflexivity|].
  destruct l as [|x l]; simpl; [now destruct k|apply IH].
Qed.

Lemma map_nth_seq {A : Type} (d : A) (l : list A) (m : nat) :
  m <= length l -> map (fun k => nth k l d) (seq 0 m) = firstn m l.
Proof.
  revert l; induction m as [|m IH]; intros l Hm; [reflexivity|].
  destruct l as [|x l]; [simpl in Hm; lia|].
  cbn [seq map firstn nth]. rewrite <- seq_shift, map_map. f_equal.
  apply IH. simpl in Hm. lia.
Qed.

Lemma range_length (a b : Z) : length (range a b) = Z.to_nat (b - a).
Proof. unfold range. now rewrite length_map, length_seq. Qed.

Lemma Z_list_eqb_eq (l m : list Z) : Z_list_eqb l m = true <-> l = m.
Proof. apply list_eqb_eq, Z.eqb_eq. Qed.

(** The sizes along a run of axes [b..e-1] are a segment of the shape. *)
Lemma sizes_of_range (s : list nat) (b e : nat) :
  b <= e -> e <= length s ->
  map (fun i => nth (Z.to_nat i) s 0) (range (Z.of_nat b) (Z.of_nat e))
  = firstn (e - b) (skipn b s).
Proof.
  intros Hbe He. unfold range. rewrite map_map.
  replace (Z.to_nat (Z.of_nat e - Z.of_nat b)) with (e - b) by lia.
  rewrite <- (map_nth_seq 0) by (rewrite length_skipn; lia).
  apply map_ext. intros k. rewrite nth_skipn_plus. f_equal. lia.
Qed.

Lemma slice_segment {A : Type} (l : list A) (b e : nat) :
  b <= e -> e <= length l ->
  slice l (Some (Z.of_nat b)) (Some (Z.of_nat e)) = firstn (e - b) (skipn b l)
  /\ slice l None (Some (Z.of_nat b)) = firstn b l
  /\ slice l (Some (Z.of_nat e)) None = skipn e l.
Proof.
  intros Hbe He.
  assert (C : forall k, k <= length l -> clamp (length l) (Z.of_nat k) = k).
  { intros k Hk. unfold clamp.
    destruct (Z.of_nat k <? 0)%Z eqn:E; [apply Z.ltb_lt in E; lia|].
    rewrite Nat2Z.id. lia. }
  unfold slice, slice_len, slice_start, slice_stop.
  rewrite !C by lia. repeat split.
  - now rewrite Nat.sub_0_r.
  - apply firstn_all2. rewrite length_skipn. lia.
Qed.

Lemma firstn_app_len {A : Type} (b : nat) (l1 l2 : list A) :
  length l1 = b -> firstn b (l1 ++ l2) = l1.
Proof.
  intros <-. rewrite firstn_app, Nat.sub_diag, firstn_all. simpl.
  apply app_nil_r.
Qed.

Lemma skipn_app_len {A : Type} (b : nat) (l1 l2 : list A) :
  length l1 = b -> skipn b (l1 ++ l2) = l2.
Proof.
  intros <-. now rewrite skipn_app, Nat.sub_diag, skipn_all.
Qed.

Lemma segments_app {A : Type} (l : list A) (b e : nat) :
  b <= e -> firstn b l ++ firstn (e - b) (skipn b l) ++ skipn e l = l.
Proof.
  intros Hbe.
  replace (skipn e l) with (skipn (e - b) (skipn b l))
    by (rewrite skipn_skipn; f_equal; lia).
  now rewrite !firstn_skipn.
Qed.

Section Axes.

Context {A : Type} (arr : Torch.tensor A) (layout_axes : list Z).

Let n := Torch.ndim arr.
Let ax := axes_of arr layout_axes.

Lemma axes_of_length : length ax = length layout_axes.
Proof. apply length_map. Qed.

Lemma valid_axes_normalized :
  valid_axes arr layout_axes = true ->
  Forall (fun i => (0 <= i < Z.of_nat n)%Z) ax /\ ax <> [].
Proof.
  unfold valid_axes, ax, axes_of, normalize_axes. fold n.
  destruct layout_axes as [|i0 l]; [discriminate|]. intros Hv. split.
  - apply Forall_map, Forall_forall. intros i Hi.
    rewrite forallb_forall in Hv. specialize (Hv i Hi).
    apply andb_true_iff in Hv. destruct Hv as [Hl Hu].
    apply Z.leb_le in Hl. apply Z.ltb_lt in Hu.
    destruct (i >=? 0)%Z eqn:E; [apply Z.geb_le in E|rewrite Z.geb_leb in E;
      apply Z.leb_gt in E]; lia.
  - discriminate.
Qed.

(** For valid, contiguous layout axes the run [b..e-1] lies within the
    rank, and the span that [convert] slices out of the shape lists the
    sizes of the layout axes. *)
Lemma contiguous_span :
  valid_axes arr layout_axes = true ->
  not_contiguous arr layout_axes = false ->
  exists b e : nat,
    ax = range (Z.of_nat b) (Z.of_nat e) /\
    hd 0%Z ax = Z.of_nat b /\ (last ax 0 + 1)%Z = Z.of_nat e /\
    b < e /\ e <= n /\ e = b + length layout_axes /\
    layout_sizes arr layout_axes = firstn (e - b) (skipn b (Torch.shape arr)).
Proof.
  intros Hv Hc. destruct (valid_axes_normalized Hv) as [Hr Hne].
  unfold not_contiguous in Hc. fold ax in Hc.
  apply negb_false_iff, Z_list_eqb_eq in Hc.
  assert (Hb : (0 <= hd 0 ax < Z.of_nat n)%Z).
  { destruct ax as [|x l]; [contradiction|]. inversion Hr; assumption. }
  assert (Hl : (0 <= last ax 0 < Z.of_nat n)%Z).
  { destruct (exists_last Hne) as (l & x & E). rewrite E, last_last.
    rewrite E in Hr. apply Forall_app in Hr. destruct Hr as [_ Hx].
    inversion Hx; assumption. }
  assert (Hlen : length ax = Z.to_nat (last ax 0%Z + 1 - hd 0%Z ax)).
  { rewrite Hc at 1. apply range_length. }
  assert (Hpos : 0 < length ax) by (destruct ax; [contradiction|simpl; lia]).
  set (bz := hd 0%Z ax) in *. set (ez := (last ax 0%Z + 1)%Z) in *.
  exists (Z.to_nat bz), (Z.to_nat ez).
  rewrite !Z2Nat.id by lia.
  split; [exact Hc|]. split; [reflexivity|]. split; [reflexivity|].
  split; [lia|]. split; [lia|]. split; [rewrite <- axes_of_length; lia|].
  unfold layout_sizes. fold ax. rewrite Hc.
  replace (range bz ez)
    with (range (Z.of_nat (Z.to_nat bz)) (Z.of_nat (Z.to_nat ez)))
    by (now rewrite !Z2Nat.id by lia).
  apply sizes_of_range; unfold n, Torch.ndim in *; lia.
Qed.

End Axes.

(** ** The control flow of [convert] *)

Section ConvertCases.

Context {A : Type} `{Torch.Dtype A}.

Lemma gather_info_invariant (g : GatherInfo.t) :
  GatherInfo.__post_init__ g = Ok tt ->
  Torch.shape (GatherInfo.gather_mask g) = GatherInfo.shape g.
Proof.
  unfold GatherInfo.__post_init__, GatherInfo.shape.
  destruct (shape_eqb _ _) eqn:E; [|discriminate].
  intros _. now apply shape_eqb_eq.
Qed.

(** [convert] raises exactly under the listed conditions or on an index
    out of range, and returns [converted] otherwise. *)
Lemma convert_cases (g : GatherInfo.t) (arr : Torch.tensor A)
      (layout_axes : list Z) :
  GatherInfo.__post_init__ g = Ok tt ->
  valid_axes arr layout_axes = true ->
  if listed_errors g arr layout_axes || index_out_of_range g arr layout_axes
  then raises (convert g arr layout_axes) = true
  else convert g arr layout_axes = Ok (converted g arr layout_axes).
Proof.
  intros Hinv Hv. apply gather_info_invariant in Hinv.
  destruct (valid_axes_normalized arr layout_axes Hv) as [_ Hne].
  unfold listed_errors, convert, converted, axes_begin.
  fold (axes_of arr layout_axes).
  destruct (not_contiguous arr layout_axes) eqn:Hc; cbn [orb].
  - unfold not_contiguous in Hc.
    destruct (axes_of arr layout_axes) as [|b0 rest]; [contradiction|].
    cbn [hd] in Hc. now rewrite Hc.
  - destruct (contiguous_span arr layout_axes Hv Hc)
      as (b & e & _ & Hb & He & Hbe & Hen & Hel & Hsz).
    unfold not_contiguous in Hc.
    destruct (axes_of arr layout_axes) as [|b0 rest] eqn:Eax; [contradiction|].
    cbn [hd] in Hc, Hb. apply negb_false_iff in Hc. rewrite Hc. cbn [negb hd].
    rewrite He. subst b0. rewrite Nat2Z.id.
    unfold Torch.ndim in Hen.
    destruct (slice_segment (Torch.shape arr) b e) as (S1 & S2 & S3);
      [lia|lia|].
    rewrite S1, S2, S3, <- Hsz.
    assert (Hlen : length (layout_sizes arr layout_axes) = length layout_axes).
    { unfold layout_sizes. now rewrite length_map, axes_of_length. }
    unfold incompatible, axis_count_differs. rewrite Hlen.
    destruct (length layout_axes =? length (GatherInfo.input_shape g)) eqn:En;
      cbn [negb bind orb]; [|reflexivity].
    apply Nat.eqb_eq in En.
    unfold first_axis_smaller, later_axis_differs, index_out_of_range,
      too_many_batch_axes, axes_begin.
    rewrite Eax. cbn [hd].
    destruct (layout_sizes arr layout_axes) as [|l0 ls] eqn:El;
      [simpl in Hlen; lia|].
    destruct (GatherInfo.input_shape g) as [|g0 gs];
      [simpl in En; lia|].
    cbn [tl bind].
    destruct ((Z.of_nat l0 <? g0)%Z || existsb _ (combine ls gs));
      cbn [orb]; [reflexivity|].
    unfold Torch.reshape. cbn [Torch.shape Torch.data].
    replace (numel (firstn b (Torch.shape arr) ++ [numel (l0 :: ls)]
                    ++ skipn e (Torch.shape arr)))
      with (numel (Torch.shape arr)).
    2:{ rewrite <- (segments_app (Torch.shape arr) b e) at 1 by lia.
        rewrite <- Hsz, !numel_app.
        change (numel [numel (l0 :: ls)]) with (numel (l0 :: ls) * 1). lia. }
    rewrite Nat.eqb_refl. cbn [bind].
    replace (0 <=? Z.of_nat b)%Z with true by (symmetry; apply Z.leb_le; lia).
    rewrite Z.leb_antisym. cbn [andb].
    destruct (4 <? Z.of_nat b)%Z; cbn [negb orb bind]; [reflexivity|].
    assert (Lb : length (firstn b (Torch.shape arr)) = b)
      by (rewrite length_firstn; lia).
    unfold Torch.index_axis. cbn [Torch.shape Torch.data].
    rewrite (skipn_app_len _ _ _ Lb), (firstn_app_len _ _ _ Lb).
    cbn [app].
    destruct (forallb _ _); cbn [negb bind]; [|reflexivity].
    unfold Torch.imul_mask, Torch.ndim. cbn [Torch.shape Torch.data].
    rewrite Hinv. unfold GatherInfo.shape.
    rewrite (firstn_app_len _ _ _ eq_refl).
    rewrite app_assoc, (skipn_app_len _ _ _ (length_app _ _)).
    rewrite <- app_assoc, shape_eqb_refl, Nat.eqb_refl. cbn [andb].
    rewrite Hel. reflexivity.
Qed.

End ConvertCases.

(** C6, as amended: for a GatherInfo that satisfies its construction
    invariant and a non-empty [layout_axes] whose entries are axis indices
    of [arr], [convert] raises if and only if the normalized axes are not a
    contiguous run, or their number differs from the rank of
    [input_shape], or the first layout-axis size is strictly smaller than
    [input_shape[0]], or a later layout-axis size differs from
    [input_shape], or more than 4 batch axes precede the layout axes, or a
    gather index lies outside the flattened layout axis; otherwise the
    call succeeds. *)
Theorem convert_raises_iff {A : Type} `{Torch.Dtype A} (g : GatherInfo.t)
        (arr : Torch.tensor A) (layout_axes : list Z) :
  GatherInfo.__post_init__ g = Ok tt ->
  valid_axes arr layout_axes = true ->
  raises (convert g arr layout_axes)
  = listed_errors g arr layout_axes || index_out_of_range g arr layout_axes.
Proof.
  intros Hinv Hv. pose proof (convert_cases g arr layout_axes Hinv Hv) as C.
  destruct (listed_errors g arr layout_axes
            || index_out_of_range g arr layout_axes).
  - exact C.
  - now rewrite C.
Qed.

(** ** Gathering with the identity map, masking with an all-false mask *)

Section GatherMask.

Context {A : Type} `{Torch.Dtype A}.

Lemma gather_identity (nbatch n w : nat) (l : list A) :
  length l = nbatch * (n * w) ->
  Torch.gather_data nbatch n w (map Z.of_nat (seq 0 n)) l = l.
Proof.
  intros Hl. unfold Torch.gather_data.
  transitivity (flat_map (fun i => row (n * w) i l) (seq 0 nbatch));
    [|now apply flat_map_row_all].
  apply flat_map_ext. intros i.
  rewrite flat_map_concat_map, map_map, <- flat_map_concat_map.
  rewrite (flat_map_ext _ (fun k => row w k (row (n * w) i l))).
  - rewrite flat_map_row_seq. cbn [Nat.mul skipn]. unfold row.
    rewrite firstn_firstn. f_equal. lia.
  - intros k. unfold wrap.
    destruct (Z.of_nat k <? 0)%Z eqn:E; [apply Z.ltb_lt in E; lia|].
    now rewrite Nat2Z.id.
Qed.

Lemma mask_rows_true `{!MulTrue A} (w m a : nat) (block : list A) :
  flat_map (fun jm : nat * bool =>
              map (fun x => Torch.mul x (Torch.of_bool (snd jm)))
                  (row w (fst jm) block))
           (combine (seq a m) (repeat true m))
  = flat_map (fun j => row w j block) (seq a m).
Proof.
  revert a; induction m as [|m IH]; intros a; [reflexivity|].
  cbn [seq repeat combine flat_map fst snd]. rewrite IH. f_equal.
  transitivity (map (fun x => x) (row w a block)); [|apply map_id].
  apply map_ext. intros x. apply mul_true.
Qed.

Lemma mask_all_true `{!MulTrue A} (nbatch m w : nat) (l : list A) :
  length l = nbatch * (m * w) ->
  Torch.mask_data nbatch m w (repeat true m) l = l.
Proof.
  intros Hl. unfold Torch.mask_data.
  transitivity (flat_map (fun i => row (m * w) i l) (seq 0 nbatch));
    [|now apply flat_map_row_all].
  apply flat_map_ext. intros i.
  rewrite mask_rows_true, flat_map_row_seq. cbn [Nat.mul skipn]. unfold row.
  rewrite firstn_firstn. f_equal. lia.
Qed.

Lemma In_row (w i : nat) (l : list A) (x : A) : In x (row w i l) -> In x l.
Proof.
  unfold row. intros Hx.
  rewrite <- (firstn_skipn (i * w) l). apply in_or_app. right.
  rewrite <- (firstn_skipn w (skipn (i * w) l)). apply in_or_app. now left.
Qed.

Lemma gather_data_elems (nbatch n w : nat) (idxs : list Z) (l : list A)
      (y : A) :
  In y (Torch.gather_data nbatch n w idxs l) -> In y l.
Proof.
  unfold Torch.gather_data. intros Hy.
  apply in_flat_map in Hy. destruct Hy as (i & _ & Hy).
  apply in_flat_map in Hy. destruct Hy as (j & _ & Hy).
  apply In_row in Hy. now apply In_row in Hy.
Qed.

(** Every element of a masked array is an element of the array times a
    promoted entry of the mask. *)
Lemma mask_data_elems (nbatch m w : nat) (mask : list bool) (l : list A)
      (y : A) :
  In y (Torch.mask_data nbatch m w mask l) ->
  exists x b, In x l /\ In b mask /\ y = Torch.mul x (Torch.of_bool b).
Proof.
  unfold Torch.mask_data. intros Hy.
  apply in_flat_map in Hy. destruct Hy as (i & _ & Hy).
  apply in_flat_map in Hy. destruct Hy as ([j b] & Hjb & Hy).
  apply in_map_iff in Hy. destruct Hy as (x & <- & Hx). cbn [fst snd] in *.
  exists x, b. split; [|split; [|reflexivity]].
  - apply In_row in Hx. now apply In_row in Hx.
  - now apply in_combine_r in Hjb.
Qed.

End GatherMask.

#[export] Instance MulTrue_Z : MulTrue Z.
Proof. exact Z.mul_1_r. Qed.

#[export] Instance MulTrue_bool : MulTrue bool.
Proof. exact andb_true_r. Qed.

#[export] Instance MulFalse_Z : MulFalse Z.
Proof. intros x _. apply Z.eqb_eq, Z.mul_0_r. Qed.

#[export] Instance MulFalse_bool : MulFalse bool.
Proof. intros x _. cbn. now rewrite andb_false_r. Qed.

(** A finite float times [0.0] is [+0.0] or [-0.0]; [NaN] and the
    infinities give [NaN]. *)
#[export] Instance MulFalse_float : MulFalse float.
Proof.
  intros x Hf. cbn in Hf |- *. unfold PrimFloat.is_zero.
  rewrite FloatAxioms.eqb_spec, FloatAxioms.mul_spec.
  unfold PrimFloat.is_finite, PrimFloat.is_nan, PrimFloat.is_infinity in Hf.
  rewrite !FloatAxioms.eqb_spec, FloatAxioms.abs_spec in Hf.
  change (Prim2SF 0%float) with (S754_zero false).
  change (Prim2SF zero) with (S754_zero false).
  change (Prim2SF infinity) with (S754_infinity false) in Hf.
  destruct (Prim2SF x) as [sg|sg| |sg m e].
  - now destruct sg.
  - destruct sg; discriminate Hf.
  - discriminate Hf.
  - now destruct sg.
Qed.

(** A finite float times [1.0] is the float itself: the product of the
    mantissas ends in 52 zero bits, which the rounding shifts out again
    without loss. *)
Lemma SFmul_one_finite (s : bool) (m : positive) (e : Z) :
  SpecFloat.bounded FloatOps.prec FloatOps.emax m e = true ->
  SF64mul (S754_finite s m e) (S754_finite false 4503599627370496 (-52))
  = S754_finite s m e.
Proof.
  unfold SpecFloat.bounded, SpecFloat.canonical_mantissa. intros Hb.
  apply andb_true_iff in Hb. destruct Hb as [Hc He].
  apply Z.eqb_eq in Hc.
  unfold SF64mul, SFmul, binary_round_aux.
  rewrite xorb_false_r.
  change 4503599627370496%positive with (Pos.iter xO 1%positive 52).
  cbn [Pos.iter].
  rewrite !Pos.mul_xO_r, Pos.mul_1_r.
  unfold shr_fexp at 1. cbn [Zdigits2 digits2_pos shr_record_of_loc].
  rewrite !Pos2Z.inj_succ.
  replace (fexp FloatOps.prec FloatOps.emax _ - (e + -52))%Z with 52%Z.
  2:{ match goal with
      | |- _ = (fexp _ _ ?a - _)%Z =>
          replace a with (Z.pos (digits2_pos m) + e)%Z by lia
      end.
      rewrite Hc. lia. }
  cbn [shr SpecFloat.iter_pos shr_1 shr_m shr_r shr_s orb].
  replace (e + -52 + 52)%Z with e by lia.
  cbn [loc_of_shr_record round_nearest_even].
  unfold shr_fexp. cbn [Zdigits2 shr_record_of_loc].
  rewrite Hc, Z.sub_diag. cbn [shr shr_m]. now rewrite He.
Qed.

#[export] Instance MulTrue_float : MulTrue float.
Proof.
  intros x. cbn. apply Prim2SF_inj. rewrite FloatAxioms.mul_spec.
  change (Prim2SF 1) with (S754_finite false 4503599627370496 (-52)).
  pose proof (FloatAxioms.Prim2SF_valid x) as Hv.
  destruct (Prim2SF x) as [s|s| |s m e]; try (now destruct s);
    [reflexivity|].
  now apply SFmul_one_finite.
Qed.

Lemma identity_map_invariant (s : list nat) :
  GatherInfo.__post_init__ (identity_map s) = Ok tt.
Proof.
  unfold GatherInfo.__post_init__, identity_map.
  cbn [GatherInfo.gather_mask GatherInfo.gather_idxs Torch.shape].
  now rewrite shape_eqb_refl.
Qed.

Lemma compatible_inv {A : Type} (g : GatherInfo.t) (arr : Torch.tensor A)
      (layout_axes : list Z) :
  compatible g arr layout_axes = true ->
  valid_axes arr layout_axes = true /\
  listed_errors g arr layout_axes || index_out_of_range g arr layout_axes
  = false /\
  not_contiguous arr layout_axes = false.
Proof.
  unfold compatible. rewrite !andb_true_iff, !negb_true_iff.
  intros [[Hv Hl] Ho]. rewrite Hl, Ho. repeat split; try assumption.
  unfold listed_errors in Hl. rewrite !orb_false_iff in Hl. tauto.
Qed.

(** C4, as amended: for the identity GatherInfo over a source layout of
    shape [s] and every well-formed array [X] that [convert] accepts and
    whose layout-axis sizes are exactly [s] (first axis included),
    [convert(map, X)] returns [X]; the elements are multiplied by the
    promoted [True], which leaves them unchanged. *)
Theorem convert_identity {A : Type} `{Torch.Dtype A} `{!MulTrue A}
        (s : list nat) (X : Torch.tensor A) (layout_axes : list Z) :
  Torch.wfb X = true ->
  compatible (identity_map s) X layout_axes = true ->
  layout_sizes X layout_axes = s ->
  convert (identity_map s) X layout_axes = Ok X.
Proof.
  intros Hw Hc Hs. destruct (compatible_inv _ _ _ Hc) as (Hv & He & Hn).
  pose proof (convert_cases _ X layout_axes (identity_map_invariant s) Hv)
    as C.
  rewrite He in C. rewrite C. f_equal.
  destruct (contiguous_span X layout_axes Hv Hn)
    as (b & e & _ & Hb & _ & Hbe & Hen & Hel & Hsz).
  unfold converted, axes_begin. fold (axes_of X layout_axes).
  rewrite Hb, Nat2Z.id, <- Hel, Hs.
  unfold identity_map, GatherInfo.shape.
  cbn [GatherInfo.gather_idxs GatherInfo.gather_mask Torch.shape Torch.data].
  rewrite Hs in Hsz.
  assert (Esh : firstn b (Torch.shape X) ++ s ++ skipn e (Torch.shape X)
                = Torch.shape X).
  { rewrite Hsz. apply segments_app. lia. }
  assert (El : length (Torch.data X)
               = numel (firstn b (Torch.shape X))
                 * (numel s * numel (skipn e (Torch.shape X)))).
  { apply Nat.eqb_eq in Hw. rewrite Hw. rewrite <- Esh at 1.
    now rewrite !numel_app. }
  rewrite gather_identity, mask_all_true by exact El.
  rewrite Esh. now destruct X.
Qed.

(** C5, as amended: for every GatherInfo whose mask is all-false and every
    array [X] that [convert] accepts (gather indices in range) and whose
    values are regular (any integer or boolean; for floats the finite
    ones), [convert] succeeds and its result is zero at every position
    ([+0.0] or [-0.0] for floats). *)
Theorem convert_all_masked {A : Type} `{Torch.Dtype A} `{ZeroTest A}
        `{!MulFalse A}
        (g : GatherInfo.t) (X : Torch.tensor A) (layout_axes : list Z) :
  GatherInfo.__post_init__ g = Ok tt ->
  compatible g X layout_axes = true ->
  all_masked g = true ->
  forallb regular (Torch.data X) = true ->
  exists out,
    convert g X layout_axes = Ok out /\
    forallb is_zero (Torch.data out) = true.
Proof.
  intros Hinv Hc Hm Hr. destruct (compatible_inv _ _ _ Hc) as (Hv & He & _).
  pose proof (convert_cases g X layout_axes Hinv Hv) as C.
  rewrite He in C. exists (converted g X layout_axes).
  split; [exact C|].
  apply forallb_forall. intros y Hy. unfold converted in Hy.
  cbn [Torch.data] in Hy. apply mask_data_elems in Hy.
  destruct Hy as (x & b & Hx & Hb & ->).
  apply gather_data_elems in Hx.
  unfold all_masked in Hm. rewrite forallb_forall in Hm, Hr.
  apply Hm, negb_true_iff in Hb. subst b.
  apply mul_false. now apply Hr.
Qed.

(** ** The conversion claims on example inputs *)

(** C4 as stated fails: the identity map over two rows accepts an array of
    three rows (the first axis may be larger than the map declares) and
    returns its first two rows, not the array. *)
Lemma convert_identity_drops_padding :
  compatible (identity_map [2]) (Examples.ints [3] [10; 20; 30]%Z) [0%Z]
  = true /\
  convert (identity_map [2]) (Examples.ints [3] [10; 20; 30]%Z) [0%Z]
  = Ok (Examples.ints [2] [10; 20]%Z) /\
  convert (identity_map [2]) (Examples.ints [3] [10; 20; 30]%Z) [0%Z]
  <> Ok (Examples.ints [3] [10; 20; 30]%Z).
Proof.
  split; [reflexivity|]. split; [reflexivity|]. discriminate.
Qed.

Lemma convert_identity_witness :
  convert (identity_map [2; 2])
          (Examples.ints [3; 2; 2; 2]
             [1; 2; 3; 4; 5; 6; 7; 8; 9; 10; 11; 12; 13; 14; 15; 16; 17; 18;
              19; 20; 21; 22; 23; 24]%Z)
          [-3; -2]%Z
  = Ok (Examples.ints [3; 2; 2; 2]
          [1; 2; 3; 4; 5; 6; 7; 8; 9; 10; 11; 12; 13; 14; 15; 16; 17; 18;
           19; 20; 21; 22; 23; 24]%Z).
Proof.
  apply (convert_identity [2; 2]); reflexivity.
Defined.

(** C5 as stated fails on a float array: [NaN] times the promoted [False]
    is [NaN], so the masked position of the result is not zero. *)
Lemma convert_all_masked_keeps_nan :
  GatherInfo.__post_init__ Examples.map_masked = Ok tt /\
  compatible Examples.map_masked (Examples.floats [1] [nan]) [0%Z] = true /\
  all_masked Examples.map_masked = true /\
  convert Examples.map_masked (Examples.floats [1] [nan]) [0%Z]
  = Ok (Examples.floats [1] [nan]) /\
  PrimFloat.is_zero nan = false.
Proof. repeat split. Qed.

Lemma convert_all_masked_witness :
  exists out,
    convert Examples.map_masked_2
            (Examples.floats [2; 2] [1.5; -2; 0.25; 1048576]%float) [0%Z]
    = Ok out /\
    forallb is_zero (Torch.data out) = true.
Proof.
  apply convert_all_masked; reflexivity.
Defined.

(** C6 as stated fails in both directions: a gather index outside the
    flattened axis raises [IndexError] although none of the five listed
    conditions holds; and two layout axes [(1, 2)] on a 2-D array are
    accepted for a map of rank 1, because slicing the shape past its end
    yields a span of one axis. *)
Lemma convert_errors_not_as_listed :
  (GatherInfo.__post_init__ Examples.map_out_of_range = Ok tt /\
   valid_axes (Examples.ints [2] [10; 20]%Z) [0%Z] = true /\
   listed_errors Examples.map_out_of_range (Examples.ints [2] [10; 20]%Z)
                 [0%Z] = false /\
   convert Examples.map_out_of_range (Examples.ints [2] [10; 20]%Z) [0%Z]
   = Raise IndexError) /\
  (axis_count_differs Examples.map_3_of_2 [1; 2]%Z = true /\
   convert Examples.map_3_of_2 (Examples.ints [2; 2] [1; 2; 3; 4]%Z) [1; 2]%Z
   = Ok (Examples.ints [2; 3] [2; 1; 0; 4; 3; 0]%Z)).
Proof. repeat split. Qed.

Lemma convert_raises_iff_witness :
  raises (convert Examples.map_3_of_2
                  (Examples.ints [2; 2; 2] [1; 2; 3; 4; 5; 6; 7; 8]%Z)
                  [-2]%Z)
  = listed_errors Examples.map_3_of_2
                  (Examples.ints [2; 2; 2] [1; 2; 3; 4; 5; 6; 7; 8]%Z) [-2]%Z
    || index_out_of_range Examples.map_3_of_2
                  (Examples.ints [2; 2; 2] [1; 2; 3; 4; 5; 6; 7; 8]%Z) [-2]%Z.
Proof.
  apply convert_raises_iff; reflexivity.
Defined.

Lemma gather_info_getitem_witness :
  exists g',
    GatherInfo.__getitem__ Examples.map_3_of_2
                           [IEllipsis; ISlice (Some 1%Z) None]
    = Ok g' /\
    GatherInfo.input_shape g' = [2%Z] /\
    GatherInfo.gather_idxs g' = Torch.mk [2] [0; 0]%Z /\
    Torch.getitem (GatherInfo.gather_mask Examples.map_3_of_2)
                  [IEllipsis; ISlice (Some 1%Z) None]
    = Ok (GatherInfo.gather_mask g') /\
    Torch.shape (GatherInfo.gather_idxs g')
    = Torch.shape (GatherInfo.gather_mask g') /\
    GatherInfo.__post_init__ g' = Ok tt.
Proof.
  exact (gather_info_getitem Examples.map_3_of_2
                             [IEllipsis; ISlice (Some 1%Z) None] eq_refl).
Defined.

(** ** Softmax over masked logits *)

Section SoftmaxFacts.

Import Attention.
Local Open Scope R_scope.

Lemma sum_exp_nonneg (l : list R) : 0 <= sum (map exp l).
Proof.
  induction l as [|x l IH]; simpl; [lra|].
  pose proof (exp_pos x). lra.
Qed.

Lemma sum_exp_ge (l : list R) (x : R) : In x l -> exp x <= sum (map exp l).
Proof.
  induction l as [|y l IH]; simpl; [contradiction|].
  intros [->|Hx].
  - pose proof (sum_exp_nonneg l). lra.
  - specialize (IH Hx). pose proof (exp_pos y). lra.
Qed.

Lemma sum_exp_pos (l : list R) (x : R) : In x l -> 0 < sum (map exp l).
Proof.
  intros Hx. pose proof (sum_exp_ge l x Hx). pose proof (exp_pos x). lra.
Qed.

Lemma sum_map_div (f : R -> R) (s : R) (l : list R) :
  sum (map (fun x => f x / s) l) = sum (map f l) / s.
Proof.
  induction l as [|x l IH]; simpl; [lra|]. rewrite IH. lra.
Qed.

Lemma softmax_exact_sum (l : list R) : l <> [] -> sum (softmax_exact l) = 1.
Proof.
  intros Hl. unfold softmax_exact. rewrite sum_map_div.
  destruct l as [|x l]; [contradiction|].
  pose proof (sum_exp_pos (x :: l) x (or_introl eq_refl)).
  field. lra.
Qed.

Lemma softmax_exact_length (l : list R) : length (softmax_exact l) = length l.
Proof. apply length_map. Qed.

Lemma softmax_exact_nth (l : list R) (j : nat) (x : R) :
  nth_error l j = Some x ->
  nth_error (softmax_exact l) j = Some (exp x / sum (map exp l)).
Proof. intros Hx. unfold softmax_exact. now rewrite nth_error_map, Hx. Qed.

(** Every exact weight lies in (0, 1]. *)
Lemma softmax_exact_range (l : list R) :
  Forall (fun e => 0 < e <= 1) (softmax_exact l).
Proof.
  unfold softmax_exact. apply Forall_map, Forall_forall. intros x Hx.
  pose proof (sum_exp_pos l x Hx) as Hs. pose proof (sum_exp_ge l x Hx) as Hg.
  pose proof (exp_pos x) as Hp. split.
  - now apply Rdiv_lt_0_compat.
  - apply Rmult_le_reg_r with (sum (map exp l)); [exact Hs|].
    unfold Rdiv. rewrite Rmult_assoc, Rinv_l by lra. lra.
Qed.

Lemma exp_half_pow (n : nat) : exp (INR n * / 2) = exp (/ 2) ^ n.
Proof.
  induction n as [|n IH]; [simpl; rewrite Rmult_0_l; apply exp_0|].
  rewrite S_INR, Rmult_plus_distr_r, Rmult_1_l, exp_plus, IH. simpl. lra.
Qed.

Lemma exp_20 : 10000000 < exp 20.
Proof.
  replace 20 with (INR 40 * / 2) by (simpl; lra). rewrite exp_half_pow.
  assert (H2 : 3 / 2 <= exp (/ 2)).
  { pose proof (exp_ineq1_le (/ 2)). lra. }
  apply Rlt_le_trans with ((3 / 2) ^ 40); [simpl; lra|].
  apply pow_incr. lra.
Qed.

(** A logit of [-1e9] next to a logit at least 20 above it gets an exact
    weight below a ten-millionth. *)
Lemma masked_weight_small (l : list R) (x0 : R) :
  In x0 l -> neg_1e9 + 20 <= x0 ->
  0 < exp neg_1e9 / sum (map exp l) < / 10000000.
Proof.
  intros Hin Hx.
  pose proof (sum_exp_ge l x0 Hin) as Hs.
  pose proof (exp_pos x0) as Hp0. pose proof (exp_pos neg_1e9) as Hpn.
  assert (HS : 0 < sum (map exp l)) by lra.
  split; [apply Rdiv_lt_0_compat; assumption|].
  assert (H20 : exp neg_1e9 * exp 20 <= exp x0).
  { rewrite <- exp_plus.
    destruct (Rle_lt_or_eq_dec _ _ Hx) as [Hlt| ->]; [|lra].
    left. now apply exp_increasing. }
  pose proof exp_20 as E20.
  assert (Hc : exp neg_1e9 * 10000000 < sum (map exp l)).
  { assert (exp neg_1e9 * 10000000 < exp neg_1e9 * exp 20)
      by (apply Rmult_lt_compat_l; assumption).
    lra. }
  apply Rmult_lt_reg_r with (sum (map exp l) * 10000000); [nra|].
  unfold Rdiv. field_simplify; lra.
Qed.

End SoftmaxFacts.

Section MaskedAttention.

Import Attention.
Local Open Scope R_scope.

Context `{Arith}.

Lemma nth_error_combine {X Y : Type} (l1 : list X) (l2 : list Y) (j : nat) :
  nth_error (combine l1 l2) j
  = match nth_error l1 j, nth_error l2 j with
    | Some a, Some b => Some (a, b)
    | _, _ => None
    end.
Proof.
  revert l2 j; induction l1 as [|a l1 IH]; intros [|b l2] [|j]; simpl;
    try reflexivity.
  - now destruct (nth_error l1 j).
  - apply IH.
Qed.

Lemma fill_row_nth (pre : list R) (fill : list bool) (v : R) (j : nat) :
  nth_error (fill_row pre fill v) j
  = match nth_error pre j, nth_error fill j with
    | Some p, Some b => Some (if b then v else p)
    | _, _ => None
    end.
Proof.
  unfold fill_row. rewrite nth_error_map, nth_error_combine.
  destruct (nth_error pre j), (nth_error fill j); reflexivity.
Qed.

(** *** Broadcasting *)

Lemma broadcast_axis_length {X : Type} (n : nat) (l l' : list X) :
  broadcast_axis n l = Ok l' -> length l' = n.
Proof.
  unfold broadcast_axis. destruct (length l =? n)%nat eqn:E.
  - intros [= <-]. now apply Nat.eqb_eq.
  - destruct l as [|x [|]]; try discriminate. intros [= <-].
    apply repeat_length.
Qed.

Lemma broadcast_rows_shape {X : Type} (n : nat) (M : list (list X)) :
  forall M', broadcast_rows n M = Ok M' ->
             Forall (fun r => length r = n) M'.
Proof.
  induction M as [|r M IH]; intros M'; cbn [broadcast_rows].
  - intros [= <-]. constructor.
  - destruct (broadcast_axis n r) as [r'|] eqn:Er; cbn [bind]; [|discriminate].
    destruct (broadcast_rows n M) as [M''|]; cbn [bind]; [|discriminate].
    intros [= <-]. constructor; [exact (broadcast_axis_length _ _ _ Er)|].
    now apply IH.
Qed.

Lemma broadcast_to_shape {X : Type} (nq nk : nat) (M B : list (list X)) :
  broadcast_to nq nk M = Ok B ->
  length B = nq /\ Forall (fun r => length r = nk) B.
Proof.
  unfold broadcast_to.
  destruct (broadcast_rows nk M) as [rows|] eqn:Er; cbn [bind]; [|discriminate].
  intros Hb. split; [exact (broadcast_axis_length _ _ _ Hb)|].
  pose proof (broadcast_rows_shape _ _ _ Er) as Hrows.
  unfold broadcast_axis in Hb. destruct (length rows =? nq)%nat.
  - now injection Hb as <-.
  - destruct rows as [|r [|]]; try discriminate. injection Hb as <-.
    inversion Hrows; subst. apply Forall_forall. intros x Hx.
    now apply repeat_spec in Hx as ->.
Qed.

Lemma broadcast_axis_map {X Y : Type} (f : X -> Y) (n : nat) (l l' : list X) :
  broadcast_axis n l = Ok l' -> broadcast_axis n (map f l) = Ok (map f l').
Proof.
  unfold broadcast_axis. rewrite length_map.
  destruct (length l =? n)%nat; [now intros [= <-]|].
  destruct l as [|x [|]]; try discriminate. intros [= <-].
  cbn [map]. now rewrite map_repeat.
Qed.

Lemma broadcast_rows_map {X Y : Type} (f : X -> Y) (n : nat)
      (M : list (list X)) :
  forall M', broadcast_rows n M = Ok M' ->
             broadcast_rows n (map (map f) M) = Ok (map (map f) M').
Proof.
  induction M as [|r M IH]; intros M'; cbn [broadcast_rows map].
  - now intros [= <-].
  - destruct (broadcast_axis n r) as [r'|] eqn:Er; cbn [bind]; [|discriminate].
    destruct (broadcast_rows n M) as [M''|]; cbn [bind]; [|discriminate].
    intros [= <-]. rewrite (broadcast_axis_map f _ _ _ Er). cbn [bind].
    now rewrite (IH _ eq_refl).
Qed.

Lemma broadcast_to_map {X Y : Type} (f : X -> Y) (nq nk : nat)
      (M B : list (list X)) :
  broadcast_to nq nk M = Ok B ->
  broadcast_to nq nk (map (map f) M) = Ok (map (map f) B).
Proof.
  unfold broadcast_to.
  destruct (broadcast_rows nk M) as [rows|] eqn:Er; cbn [bind]; [|discriminate].
  intros Hb. rewrite (broadcast_rows_map f _ _ _ Er). cbn [bind].
  now apply broadcast_axis_map.
Qed.

(** A matrix of the logits' shape is broadcast to itself. *)
Lemma broadcast_to_same {X : Type} (nq nk : nat) (M : list (list X)) :
  length M = nq -> Forall (fun r => length r = nk) M ->
  broadcast_to nq nk M = Ok M.
Proof.
  intros Hq Hk. unfold broadcast_to.
  assert (Hr : broadcast_rows nk M = Ok M).
  { clear Hq. induction Hk as [|r M Hr _ IH]; [reflexivity|].
    cbn [broadcast_rows]. unfold broadcast_axis at 1.
    rewrite Hr, Nat.eqb_refl. cbn [bind]. now rewrite IH. }
  rewrite Hr. cbn [bind]. unfold broadcast_axis.
  now rewrite Hq, Nat.eqb_refl.
Qed.

(** *** The shape of the logits *)

Lemma zip_with_length {X Y Z : Type} (f : X -> Y -> Z) (a : list X)
      (b : list Y) :
  length a = length b -> length (zip_with f a b) = length a.
Proof.
  intros E. unfold zip_with. rewrite length_map, length_combine, <- E.
  apply Nat.min_id.
Qed.

Lemma biased_logits_shape (q k : matrix) (bias : option matrix)
      (logits : matrix) :
  biased_logits q k bias = Ok logits ->
  length logits = length q /\ Forall (fun r => length r = length k) logits.
Proof.
  unfold biased_logits. cbv zeta.
  set (L0 := matmul_transposed _ k).
  assert (H0 : length L0 = length q /\ Forall (fun r => length r = length k) L0).
  { unfold L0, matmul_transposed. rewrite !length_map. split; [reflexivity|].
    apply Forall_map, Forall_map, Forall_forall. intros qi _.
    apply length_map. }
  destruct bias as [b|]; [|now intros [= <-]].
  unfold add_bias.
  destruct (broadcast_to (length q) (length k) b) as [B|] eqn:EB;
    cbn [bind]; [|discriminate].
  intros [= <-]. destruct (broadcast_to_shape _ _ _ _ EB) as [Bq Bk].
  destruct H0 as [Lq Lk]. split.
  - rewrite zip_with_length; congruence.
  - unfold zip_with at 1. apply Forall_map, Forall_forall.
    intros [l r] Hin. cbn [fst snd].
    rewrite Forall_forall in Lk, Bk.
    pose proof (Lk l (in_combine_l _ _ _ _ Hin)) as El.
    pose proof (Bk r (in_combine_r _ _ _ _ Hin)) as Er.
    rewrite zip_with_length; congruence.
Qed.

(** A row of the masked logits is a row before masking, filled under the
    inverted row of the broadcast mask; both have one entry per key. *)
Lemma masked_logits_row (q k : matrix) (mask bmask : list (list bool))
      (bias : option matrix) (logits : matrix) (i : nat) (lrow : list R)
      (mrow : list bool) :
  masked_logits q k (Some mask) bias = Ok logits ->
  broadcast_to (length q) (length k) mask = Ok bmask ->
  nth_error logits i = Some lrow ->
  nth_error bmask i = Some mrow ->
  exists pre,
    length pre = length k /\ length mrow = length k /\
    lrow = fill_row pre (map negb mrow) neg_1e9.
Proof.
  unfold masked_logits, masked_fill, invert. intros Hl Hb Hi Hm.
  destruct (biased_logits q k bias) as [L1|] eqn:E1; cbn [bind] in Hl;
    [|discriminate].
  rewrite (broadcast_to_map negb _ _ _ _ Hb) in Hl. cbn [bind] in Hl.
  injection Hl as <-.
  unfold zip_with in Hi.
  rewrite nth_error_map, nth_error_combine, nth_error_map, Hm in Hi.
  destruct (nth_error L1 i) as [pre|] eqn:Ep; [|discriminate].
  cbn [option_map fst snd] in Hi. injection Hi as <-.
  destruct (biased_logits_shape _ _ _ _ E1) as [_ Lk].
  destruct (broadcast_to_shape _ _ _ _ Hb) as [_ Bk].
  rewrite Forall_forall in Lk, Bk.
  exists pre. split; [|split; [|reflexivity]].
  - apply Lk. eapply nth_error_In; exact Ep.
  - apply Bk. eapply nth_error_In; exact Hm.
Qed.

(** *** Weights of the valid and of the masked keys *)

Lemma weight_split (m : list bool) :
  forall w : list R,
    length m = length w ->
    weight_on m w + weight_on (map negb m) w = sum w.
Proof.
  induction m as [|b m IH]; intros [|x w] Hl; try discriminate; simpl;
    [lra|].
  injection Hl as Hl. specialize (IH w Hl). destruct b; simpl; lra.
Qed.

Lemma masked_weight_bound (eps : R) (m : list bool) :
  0 <= eps ->
  forall w : list R,
    (forall j x, nth_error m j = Some false -> nth_error w j = Some x ->
                 0 <= x <= eps) ->
    0 <= weight_on (map negb m) w <= INR (masked_keys m) * eps.
Proof.
  intros He. unfold masked_keys.
  induction m as [|b m IH]; intros w Hw; [simpl; lra|].
  assert (Hn : 0 <= INR (length (filter negb m)) * eps)
    by (apply Rmult_le_pos; [apply pos_INR|exact He]).
  destruct w as [|x w].
  - destruct b; cbn [map negb weight_on filter length]; [lra|].
    rewrite S_INR. lra.
  - assert (IHw : 0 <= weight_on (map negb m) w
                  <= INR (length (filter negb m)) * eps).
    { apply IH. intros j y Hj Hy. exact (Hw (S j) y Hj Hy). }
    destruct b; cbn [map negb weight_on filter length]; [lra|].
    rewrite S_INR. pose proof (Hw 0%nat x eq_refl eq_refl). lra.
Qed.

Lemma close_length (u eta : R) (w e : list R) :
  close u eta w e -> length w = length e.
Proof. apply Forall2_length. Qed.

Lemma close_nth (u eta : R) (w e : list R) (j : nat) (x : R) :
  close u eta w e -> nth_error w j = Some x ->
  exists y, nth_error e j = Some y /\
            0 <= x /\ y - (u * y + eta) <= x <= y + (u * y + eta).
Proof.
  intros Hc. revert j. induction Hc as [|x' y' w e Hxy _ IH]; intros [|j];
    try discriminate; cbn [nth_error].
  - intros [= <-]. now exists y'.
  - apply IH.
Qed.

(** The computed weights on any set of keys are as close to the exact
    ones as the single weights are. *)
Lemma weight_on_close (u eta : R) (w e : list R) :
  0 <= eta -> close u eta w e ->
  forall m : list bool,
    weight_on m e - (u * weight_on m e + INR (length e) * eta)
    <= weight_on m w
    <= weight_on m e + (u * weight_on m e + INR (length e) * eta).
Proof.
  intros He Hc. induction Hc as [|x y w e [_ Hxy] _ IH]; intros m.
  - destruct m; simpl; lra.
  - pose proof (pos_INR (length e)) as Hn.
    destruct m as [|b m]; cbn [weight_on length].
    + rewrite S_INR. nra.
    + specialize (IH m). rewrite S_INR. destruct b; nra.
Qed.

(** C9, as amended: with a boolean mask, broadcast over the queries,
    every logit at a masked key position is [-1e9] when it enters the
    softmax over the key axis, in every query row.  In a row that has an
    unmasked key whose logit is at least [-1e9 + 20], and for a softmax
    that computes every weight of the row non-negative and within a
    relative error [u <= 1] and an absolute error [eta <= 5e-7] of its
    exact value, the weight of each masked key lies between 0 and one
    millionth (0 included: the weight may underflow), and the weights of
    the unmasked keys sum to 1 within [u + n * eta], for [n] keys, and one
    millionth per masked key. *)
Theorem masked_keys_negligible (q k : matrix) (mask bmask : list (list bool))
        (bias : option matrix) (logits : matrix) (i : nat) (lrow : list R)
        (mrow : list bool) (u eta : R) :
  masked_logits q k (Some mask) bias = Ok logits ->
  broadcast_to (length q) (length k) mask = Ok bmask ->
  nth_error logits i = Some lrow ->
  nth_error bmask i = Some mrow ->
  (exists weights,
      attention_weights q k (Some mask) bias = Ok weights /\
      nth_error weights i = Some (softmax lrow)) /\
  length mrow = length lrow /\
  (forall j, nth_error mrow j = Some false ->
             nth_error lrow j = Some neg_1e9) /\
  (0 <= u <= 1 -> 0 <= eta <= / 2000000 ->
   close u eta (softmax lrow) (softmax_exact lrow) ->
   (exists j0 x0, nth_error mrow j0 = Some true /\
                  nth_error lrow j0 = Some x0 /\ neg_1e9 + 20 <= x0) ->
   (forall j w, nth_error mrow j = Some false ->
                nth_error (softmax lrow) j = Some w ->
                0 <= w < / 1000000) /\
   1 - (u + INR (length lrow) * eta + INR (masked_keys mrow) * / 1000000)
   <= weight_on mrow (softmax lrow)
   <= 1 + (u + INR (length lrow) * eta)).
Proof.
  intros Hl Hb Hi Hm.
  destruct (masked_logits_row _ _ _ _ _ _ _ _ _ Hl Hb Hi Hm)
    as (pre & Lp & Lm & E).
  assert (Hlen : length mrow = length lrow).
  { rewrite E. unfold fill_row.
    rewrite length_map, length_combine, length_map, Lp, Lm.
    now rewrite Nat.min_id. }
  assert (Hfill : forall j, nth_error mrow j = Some false ->
                            nth_error lrow j = Some neg_1e9).
  { intros j Hj.
    assert (Hlt : (j < length lrow)%nat).
    { rewrite <- Hlen. apply nth_error_Some. now rewrite Hj. }
    apply nth_error_Some in Hlt. rewrite E in Hlt |- *.
    rewrite fill_row_nth in Hlt |- *. rewrite nth_error_map, Hj in Hlt |- *.
    cbn [option_map negb] in Hlt |- *.
    now destruct (nth_error pre j). }
  split; [|split; [exact Hlen|split; [exact Hfill|]]].
  - exists (map softmax logits). unfold attention_weights. rewrite Hl.
    split; [reflexivity|]. now rewrite nth_error_map, Hi.
  - intros Hu He Hc (j0 & x0 & _ & Hx0 & Hge).
    assert (Hin : In x0 lrow) by (eapply nth_error_In; exact Hx0).
    assert (Hex : forall j x, nth_error mrow j = Some false ->
                              nth_error (softmax_exact lrow) j = Some x ->
                              0 <= x <= / 10000000).
    { intros j x Hj Hx. rewrite (softmax_exact_nth lrow j _ (Hfill j Hj)) in Hx.
      injection Hx as <-. pose proof (masked_weight_small lrow x0 Hin Hge).
      lra. }
    split.
    + intros j w Hj Hw.
      destruct (close_nth _ _ _ _ _ _ Hc Hw) as (y & Hy & H0 & Hw').
      specialize (Hex j y Hj Hy). split; [exact H0|]. nra.
    + assert (Hne : lrow <> []) by (intros ->; contradiction).
      pose proof (softmax_exact_sum lrow Hne) as Hsum.
      rewrite <- (weight_split mrow (softmax_exact lrow)) in Hsum
        by (now rewrite softmax_exact_length).
      pose proof (masked_weight_bound (/ 10000000) mrow ltac:(lra)
                    (softmax_exact lrow) Hex) as Hmb.
      pose proof (weight_on_close u eta _ _ (proj1 He) Hc mrow) as Hw.
      rewrite softmax_exact_length in Hw.
      pose proof (pos_INR (masked_keys mrow)) as Hk.
      pose proof (pos_INR (length lrow)) as Hn.
      set (a := weight_on mrow (softmax_exact lrow)) in *.
      set (b := weight_on (map negb mrow) (softmax_exact lrow)) in *.
      set (W := weight_on mrow (softmax lrow)) in *.
      set (K := INR (masked_keys mrow)) in *.
      set (N := INR (length lrow)) in *.
      assert (Hb0 : b <= K * / 1000000) by nra.
      split; nra.
Qed.

End MaskedAttention.

(** ** The attention claim on example inputs *)

Section AttentionExamples.

Import Attention.
Local Open Scope R_scope.

(** The rounded softmax is within [1e-9] of the exact one. *)
Lemma flushing_close (row : list R) :
  close 0 (/ 1000000000) (@softmax flushing row) (softmax_exact row).
Proof.
  cbn [softmax flushing]. pose proof (softmax_exact_range row) as Hr.
  unfold close. induction Hr as [|e l He _ IH]; [constructor|].
  cbn [map]. constructor; [|exact IH].
  unfold flush. destruct (Rlt_dec e (/ 1000000000)); [lra|].
  destruct (Rlt_dec (1 - / 1000000000) e); lra.
Qed.

Lemma flush_half : flush (/ 2) = / 2.
Proof.
  unfold flush. destruct (Rlt_dec (/ 2) (/ 1000000000)); [lra|].
  destruct (Rlt_dec (1 - / 1000000000) (/ 2)); lra.
Qed.

Lemma exp_neg_1e9 : 0 < exp neg_1e9 < / 1000000000.
Proof.
  split; [apply exp_pos|]. unfold neg_1e9.
  replace (-1000000000) with (- (1000000000)) by lra. rewrite exp_Ropp.
  pose proof (exp_ineq1_le 1000000000) as Hge.
  apply Rinv_lt_contravar; [|lra].
  apply Rmult_lt_0_compat; lra.
Qed.

Lemma flush_two_keys (E : R) :
  0 < E < / 1000000000 ->
  flush (exp 0 / (exp 0 + (E + 0))) = 1 /\
  flush (E / (exp 0 + (E + 0))) = 0.
Proof.
  intros HE. rewrite exp_0.
  assert (Hd : 0 < / (1 + (E + 0))) by (apply Rinv_0_lt_compat; lra).
  assert (Hi : / (1 + (E + 0)) * (1 + (E + 0)) = 1) by (apply Rinv_l; lra).
  unfold Rdiv, flush. split.
  - destruct (Rlt_dec (1 * / (1 + (E + 0))) (/ 1000000000)); [nra|].
    destruct (Rlt_dec (1 - / 1000000000) (1 * / (1 + (E + 0)))); [reflexivity|].
    nra.
  - destruct (Rlt_dec (E * / (1 + (E + 0))) (/ 1000000000)); [reflexivity|].
    nra.
Qed.

Lemma logits_first_valid_row :
  Examples.logits_first_valid = [0; neg_1e9].
Proof.
  unfold Examples.logits_first_valid. cbn. f_equal. lra.
Qed.

(** On the example the rounded softmax returns the weights 1 and 0 for
    both queries, as the floating-point softmax does. *)
Lemma first_valid_weights_flushed :
  @attention_weights flushing Examples.att_q Examples.att_k
                     (Some Examples.mask_first_valid) None
  = Ok [[1; 0]; [1; 0]].
Proof.
  assert (E : @masked_logits flushing Examples.att_q Examples.att_k
                             (Some Examples.mask_first_valid) None
              = Ok [Examples.logits_first_valid; Examples.logits_first_valid])
    by reflexivity.
  unfold attention_weights. rewrite E. cbn [bind map].
  rewrite logits_first_valid_row.
  cbn [softmax flushing softmax_exact map sum fold_right].
  destruct (flush_two_keys _ exp_neg_1e9) as [-> ->]. reflexivity.
Qed.

(** C9 as stated fails on a row whose keys are all excluded: both logits
    are [-1e9], the softmax is uniform, each excluded key gets weight 1/2,
    and the weights over valid keys sum to 0. *)
Lemma fully_masked_row_is_uniform :
  @masked_logits flushing Examples.att_q Examples.att_k
                 (Some Examples.mask_none_valid) None
  = Ok [[neg_1e9; neg_1e9]; [neg_1e9; neg_1e9]] /\
  @attention_weights flushing Examples.att_q Examples.att_k
                     (Some Examples.mask_none_valid) None
  = Ok [[/ 2; / 2]; [/ 2; / 2]] /\
  / 1000000 < / 2 /\
  weight_on [false; false] [/ 2; / 2] = 0.
Proof.
  assert (E : @masked_logits flushing Examples.att_q Examples.att_k
                             (Some Examples.mask_none_valid) None
              = Ok [[neg_1e9; neg_1e9]; [neg_1e9; neg_1e9]]) by reflexivity.
  split; [exact E|]. split; [|split; [lra|simpl; lra]].
  unfold attention_weights. rewrite E.
  cbn [bind map softmax flushing softmax_exact sum fold_right].
  pose proof (exp_pos neg_1e9).
  replace (exp neg_1e9 / (exp neg_1e9 + (exp neg_1e9 + 0))) with (/ 2)
    by (field; lra).
  now rewrite flush_half.
Qed.

Lemma masked_keys_negligible_witness :
  (forall j w,
      nth_error [true; false] j = Some false ->
      nth_error (@softmax flushing Examples.logits_first_valid) j = Some w ->
      0 <= w < / 1000000) /\
  1 - (0 + INR (length Examples.logits_first_valid) * / 1000000000
       + INR (masked_keys [true; false]) * / 1000000)
  <= weight_on [true; false] (@softmax flushing Examples.logits_first_valid)
  <= 1 + (0 + INR (length Examples.logits_first_valid) * / 1000000000).
Proof.
  apply (proj2 (proj2 (proj2
           (@masked_keys_negligible flushing
              Examples.att_q Examples.att_k Examples.mask_first_valid
              [[true; false]; [true; false]] None
              [Examples.logits_first_valid; Examples.logits_first_valid]
              1%nat Examples.logits_first_valid [true; false]
              0 (/ 1000000000)
              eq_refl eq_refl eq_refl eq_refl)))).
  - lra.
  - lra.
  - apply flushing_close.
  - exists 0%nat, (@dot flushing [@scale flushing 1 0] [0]).
    split; [reflexivity|]. split; [reflexivity|].
    unfold neg_1e9. cbn. lra.
Defined.

End AttentionExamples.

(** ** The modules and their unsupported paths *)

(** C2: a module constructed in conditioning mode has no [layer_norm]
    attribute, and [forward] reads it unconditionally: every call raises
    [AttributeError].  A module constructed with [use_single_cond = false]
    never raises, and [forward] reads [x] only through the internal layer
    normalization (and through the mask bias, which takes its dtype). *)
Theorem attention_pair_bias_forward_modes {A : Type} `{Nn.Ops A}
        (c_single num_head : nat) (x mask : Torch.tensor A)
        (pair_logits : option (Torch.tensor A)) :
  AttentionPairBias.forward
    (AttentionPairBias.__init__ c_single num_head true) x mask pair_logits
  = Raise AttributeError /\
  raises (AttentionPairBias.forward
            (AttentionPairBias.__init__ c_single num_head false)
            x mask pair_logits) = false /\
  (forall x',
      Nn.layer_norm (Nn.new_layer_norm c_single) x
      = Nn.layer_norm (Nn.new_layer_norm c_single) x' ->
      Nn.mask_bias mask x = Nn.mask_bias mask x' ->
      AttentionPairBias.forward
        (AttentionPairBias.__init__ c_single num_head false)
        x mask pair_logits
      = AttentionPairBias.forward
          (AttentionPairBias.__init__ c_single num_head false)
          x' mask pair_logits).
Proof.
  split; [reflexivity|]. split; [reflexivity|].
  intros x' Hn Hb. unfold AttentionPairBias.forward.
  cbn [AttentionPairBias.__init__ AttentionPairBias.getattr_layer_norm
       AttentionPairBias.layer_norm bind].
  now rewrite Hn, Hb.
Qed.

Section EncoderPaths.

Context {A : Type} `{Torch.Dtype A} `{Nn.Ops A}.

(** The exceptions of [convert]. *)
Lemma convert_exn (g : GatherInfo.t) (arr : Torch.tensor A)
      (layout_axes : list Z) (e : exn) :
  convert g arr layout_axes = Raise e ->
  e = ValueError \/ e = IndexError \/ e = RuntimeError.
Proof.
  unfold convert, incompatible, Torch.reshape, Torch.index_axis,
    Torch.imul_mask.
  repeat match goal with
         | |- context [match ?c with _ => _ end] => destruct c; cbn [bind]
         end;
    intros [= <-]; auto.
Qed.

Ltac through_assert :=
  match goal with
  | |- context [assert ?c] => destruct c; cbn [assert bind]
  end.

Ltac through_convert failed :=
  let E := fresh "E" in
  match goal with
  | |- bind (convert ?g ?a ?l) _ = _ -> _ =>
      destruct (convert g a l) eqn:E; cbn [bind]; [clear E|failed E]
  | |- raises (bind (convert ?g ?a ?l) _) = _ =>
      destruct (convert g a l) eqn:E; cbn [bind]; [clear E|failed E]
  end.

Ltac not_implemented E :=
  apply convert_exn in E; intros [= <-];
  destruct E as [->|[->| ->]]; discriminate.

Ltac raised E := reflexivity.

(** Without [token_atoms_act] and [trunk_pair_cond] the encoder raises
    only through its assertions and the layout conversions. *)
Lemma forward_supported_exn (self : AtomCrossAttEncoder.t A)
      (batch : AtomCrossAttEncoder.Batch A)
      (trunk_single_cond : option (Torch.tensor A)) (e : exn) :
  AtomCrossAttEncoder.forward self batch None trunk_single_cond None
  = Raise e ->
  e <> NotImplementedError.
Proof.
  unfold AtomCrossAttEncoder.forward.
  repeat (through_assert; [|intros [= <-]; discriminate]).
  repeat through_convert not_implemented.
  discriminate.
Qed.

(** The two sibling paths do stop: with [token_atoms_act] or
    [trunk_pair_cond] provided, [forward] never returns an output. *)
Lemma token_atoms_act_never_returns (self : AtomCrossAttEncoder.t A)
      (batch : AtomCrossAttEncoder.Batch A) (t : Torch.tensor A)
      (trunk_single_cond trunk_pair_cond : option (Torch.tensor A)) :
  raises (AtomCrossAttEncoder.forward self batch (Some t) trunk_single_cond
                                      trunk_pair_cond) = true.
Proof.
  unfold AtomCrossAttEncoder.forward.
  repeat (through_assert; [|reflexivity]).
  repeat through_convert raised.
  reflexivity.
Qed.

Lemma trunk_pair_cond_never_returns (self : AtomCrossAttEncoder.t A)
      (batch : AtomCrossAttEncoder.Batch A) (t : Torch.tensor A)
      (token_atoms_act trunk_single_cond : option (Torch.tensor A)) :
  raises (AtomCrossAttEncoder.forward self batch token_atoms_act
                                      trunk_single_cond (Some t)) = true.
Proof.
  unfold AtomCrossAttEncoder.forward.
  repeat (through_assert; [|reflexivity]).
  do 2 through_convert raised.
  destruct token_atoms_act; cbn [bind]; [reflexivity|].
  repeat through_convert raised.
  reflexivity.
Qed.

(** C1 fails on the trunk single-conditioning path: an encoder
    constructed with [with_trunk_single_cond = true] and called with a
    [trunk_single_cond] does exactly what the plain encoder does without
    it, and never raises [NotImplementedError]. *)
Theorem trunk_single_cond_is_ignored
        (per_token_channels per_atom_channels per_atom_pair_channels : nat)
        (batch : AtomCrossAttEncoder.Batch A) (t : Torch.tensor A) :
  AtomCrossAttEncoder.forward
    (AtomCrossAttEncoder.__init__ per_token_channels per_atom_channels
                                  per_atom_pair_channels false true false)
    batch None (Some t) None
  = AtomCrossAttEncoder.forward
      (AtomCrossAttEncoder.__init__ per_token_channels per_atom_channels
                                    per_atom_pair_channels false false false)
      batch None None None /\
  AtomCrossAttEncoder.forward
    (AtomCrossAttEncoder.__init__ per_token_channels per_atom_channels
                                  per_atom_pair_channels false true false)
    batch None (Some t) None
  <> Raise NotImplementedError.
Proof.
  split; [reflexivity|].
  intros E. now apply forward_supported_exn in E.
Qed.

End EncoderPaths.

(** On the small batch the call with a [trunk_single_cond] returns an
    output. *)
Lemma forward_with_trunk_single_cond_returns :
  raises (@AtomCrossAttEncoder.forward
            Z Dtype_Z Examples.plain_ops
            (@AtomCrossAttEncoder.__init__ Z Examples.plain_ops
               384 128 16 false true false)
            Examples.small_batch None (Some Examples.trunk_single) None)
  = false.
Proof. vm_compute. reflexivity. Qed.

(** ** [GatherInfo.as_dict] and [from_dict] *)

Section DictFacts.

Import Dict GatherInfoDict.
Local Open Scope string_scope.

Lemma eqb_append_prefix (p a b : string) :
  String.eqb (p ++ a) (p ++ b) = String.eqb a b.
Proof.
  induction p as [|c p IH]; [reflexivity|]. simpl.
  now rewrite Ascii.eqb_refl.
Qed.

Lemma append_length (a b : string) :
  String.length (a ++ b) = String.length a + String.length b.
Proof. induction a as [|c a IH]; simpl; [reflexivity|now rewrite IH]. Qed.

(** Strings that agree after prefixes of the same length have the same
    prefix. *)
Lemma append_same_length (a b x y : string) :
  String.length a = String.length b -> a ++ x = b ++ y -> a = b /\ x = y.
Proof.
  revert b; induction a as [|c a IH]; intros [|c' b] Hl E;
    try discriminate; [now split|].
  simpl in Hl, E. injection E as -> E. injection Hl as Hl.
  destruct (IH b Hl E) as [-> ->]. now split.
Qed.

(** The three field names have one length, so a key determines its prefix
    and its field name. *)
Lemma key_injective (p q n m : string) :
  field_name n -> field_name m -> p ++ n = q ++ m -> p = q /\ n = m.
Proof.
  intros Hn Hm E. apply append_same_length; [|exact E].
  apply (f_equal String.length) in E. rewrite !append_length in E.
  assert (String.length n = 11 /\ String.length m = 11) as [Ln Lm].
  { destruct Hn as [->|[->| ->]], Hm as [->|[->| ->]]; now split. }
  lia.
Qed.

Lemma key_differs (p q n m : string) :
  field_name n -> field_name m -> p <> q -> String.eqb (p ++ n) (q ++ m) = false.
Proof.
  intros Hn Hm Hpq. apply String.eqb_neq. intros E.
  now destruct (key_injective p q n m Hn Hm E).
Qed.

Lemma get_as_dict_other (g : GatherInfo.t) (kp : option string)
      (q n : string) :
  field_name n -> q <> prefix_of kp ->
  get (as_dict g kp) (q ++ n) = KeyError (q ++ n).
Proof.
  intros Hn Hq. unfold as_dict, set. cbn [get].
  rewrite !key_differs; unfold field_name; auto.
Qed.

Lemma get_as_dict_own (g : GatherInfo.t) (kp : option string) :
  get (as_dict g kp) (prefix_of kp ++ "gather_idxs")
  = Returned (Ints (GatherInfo.gather_idxs g)) /\
  get (as_dict g kp) (prefix_of kp ++ "gather_mask")
  = Returned (Bools (GatherInfo.gather_mask g)) /\
  get (as_dict g kp) (prefix_of kp ++ "input_shape")
  = Returned (Shape (GatherInfo.input_shape g)).
Proof.
  unfold as_dict, set. cbn [get]. rewrite !eqb_append_prefix.
  repeat split.
Qed.

Lemma make_of_invariant (g : GatherInfo.t) :
  GatherInfo.__post_init__ g = Ok tt ->
  GatherInfo.make (GatherInfo.gather_idxs g) (GatherInfo.gather_mask g)
                  (GatherInfo.input_shape g) = Ok g.
Proof.
  intros Hinv. unfold GatherInfo.make. destruct g as [gi gm sh].
  cbn [GatherInfo.gather_idxs GatherInfo.gather_mask GatherInfo.input_shape].
  now rewrite Hinv.
Qed.

(** X1: [from_dict] undoes [as_dict] under the same prefix, and under any
    prefix that is written the same way: [None] and the empty string both
    mean no prefix. *)
Theorem from_dict_as_dict (g : GatherInfo.t) (kp kp' : option string) :
  GatherInfo.__post_init__ g = Ok tt ->
  prefix_of kp' = prefix_of kp ->
  from_dict (as_dict g kp) kp' = Returned g /\
  as_dict g (Some "") = as_dict g None.
Proof.
  intros Hinv Hp. split; [|reflexivity].
  unfold from_dict. rewrite Hp.
  destruct (get_as_dict_own g kp) as (-> & -> & ->). cbn [then_].
  now rewrite make_of_invariant.
Qed.

(** X2: reading a dictionary back under another prefix raises [KeyError]
    for the first key looked up, [gather_idxs] under that prefix. *)
Theorem from_dict_other_prefix (g : GatherInfo.t) (kp kp' : option string) :
  prefix_of kp' <> prefix_of kp ->
  from_dict (as_dict g kp) kp' = KeyError (prefix_of kp' ++ "gather_idxs").
Proof.
  intros Hp. unfold from_dict.
  rewrite get_as_dict_other; [reflexivity|unfold field_name; auto|exact Hp].
Qed.

Lemma get_update_miss {V : Type} (d1 d2 : Dict.t V) (key : string) :
  get d2 key = KeyError key -> get (update d1 d2) key = get d1 key.
Proof.
  unfold update. induction d2 as [|[k v] d2 IH]; intros Hm; [reflexivity|].
  cbn [get app] in *. destruct (String.eqb key k); [discriminate|auto].
Qed.

Lemma get_update_hit {V : Type} (d1 d2 : Dict.t V) (key : string) (v : V) :
  get d2 key = Returned v -> get (update d1 d2) key = Returned v.
Proof.
  unfold update. induction d2 as [|[k x] d2 IH]; intros Hm; [discriminate|].
  cbn [get app] in *. destruct (String.eqb key k); [exact Hm|auto].
Qed.

(** X3: the prefixes keep several maps apart in one dictionary: after
    merging the dictionaries of two maps written under different prefixes,
    each map is read back under its own prefix. *)
Theorem from_dict_merged (g1 g2 : GatherInfo.t) (kp1 kp2 : option string) :
  GatherInfo.__post_init__ g1 = Ok tt ->
  GatherInfo.__post_init__ g2 = Ok tt ->
  prefix_of kp1 <> prefix_of kp2 ->
  from_dict (update (as_dict g1 kp1) (as_dict g2 kp2)) kp1 = Returned g1 /\
  from_dict (update (as_dict g1 kp1) (as_dict g2 kp2)) kp2 = Returned g2.
Proof.
  intros H1 H2 Hp. unfold from_dict. split.
  - rewrite !get_update_miss
      by (apply get_as_dict_other; [unfold field_name; auto|exact Hp]).
    destruct (get_as_dict_own g1 kp1) as (-> & -> & ->). cbn [then_].
    now rewrite make_of_invariant.
  - destruct (get_as_dict_own g2 kp2) as (E1 & E2 & E3).
    rewrite (get_update_hit _ _ _ _ E1), (get_update_hit _ _ _ _ E2),
      (get_update_hit _ _ _ _ E3). cbn [then_].
    now rewrite make_of_invariant.
Qed.

Lemma from_dict_as_dict_witness :
  from_dict (as_dict Examples.map_3_of_2 (Some "")) None
  = Returned Examples.map_3_of_2 /\
  as_dict Examples.map_3_of_2 (Some "") = as_dict Examples.map_3_of_2 None.
Proof.
  apply (from_dict_as_dict Examples.map_3_of_2 (Some "") None);
    reflexivity.
Defined.

Lemma from_dict_other_prefix_witness :
  from_dict (as_dict Examples.map_3_of_2 (Some "token_atoms_to_queries"))
            (Some "queries_to_keys")
  = KeyError "queries_to_keys:gather_idxs".
Proof.
  apply (from_dict_other_prefix Examples.map_3_of_2
           (Some "token_atoms_to_queries") (Some "queries_to_keys")).
  discriminate.
Defined.

Lemma from_dict_merged_witness :
  from_dict (update (as_dict Examples.map_3_of_2 (Some "a"))
                    (as_dict Examples.map_masked None)) (Some "a")
  = Returned Examples.map_3_of_2 /\
  from_dict (update (as_dict Examples.map_3_of_2 (Some "a"))
                    (as_dict Examples.map_masked None)) None
  = Returned Examples.map_masked.
Proof.
  apply (from_dict_merged Examples.map_3_of_2 Examples.map_masked
                          (Some "a") None);
    [reflexivity|reflexivity|discriminate].
Defined.

End DictFacts.

(** ** [__eq__] on well-formed layouts *)

Lemma list_eqb_length {A : Type} (eqb : A -> A -> bool) (l m : list A) :
  list_eqb eqb l m = true -> length l = length m.
Proof.
  revert m; induction l as [|x l IH]; intros [|y m]; simpl;
    try discriminate; [reflexivity|].
  intros H. apply andb_true_iff in H. destruct H as [_ H].
  now rewrite (IH m H).
Qed.

Lemma list_eqb_sym {A : Type} (eqb : A -> A -> bool) :
  (forall x y, eqb x y = eqb y x) ->
  forall l m, list_eqb eqb l m = list_eqb eqb m l.
Proof.
  intros E; induction l as [|x l IH]; intros [|y m]; simpl; try reflexivity.
  now rewrite E, IH.
Qed.

Lemma obj_eqb_sym (a b : obj) : obj_eqb a b = obj_eqb b a.
Proof.
  destruct a, b; simpl; try reflexivity;
    [apply String.eqb_sym|apply Z.eqb_sym].
Qed.

Lemma array_equal_sym (a b : Np.ndarray) :
  Np.array_equal a b = Np.array_equal b a.
Proof.
  unfold Np.array_equal, shape_eqb.
  rewrite (list_eqb_sym Nat.eqb Nat.eqb_sym (Np.shape a)).
  now rewrite (list_eqb_sym obj_eqb obj_eqb_sym (Np.data a)).
Qed.

(** A field is compared through the two masked selections. *)
Lemma masked_differ_same_on (L : AtomLayout.t) (a b : Np.ndarray) :
  field_ok (AtomLayout.shape L) a -> field_ok (AtomLayout.shape L) b ->
  AtomLayout.masked_differ (Np.astype_bool (AtomLayout.atom_name L)) a b
  = Ok (negb (same_on (valid_slots L) a b)).
Proof.
  intros [Sa _] [Sb _].
  unfold AtomLayout.masked_differ, Np.getitem_mask, Np.astype_bool.
  cbn [fst snd]. fold (AtomLayout.shape L) (valid_slots L).
  rewrite Sa, Sb, shape_eqb_refl. cbn [bind].
  unfold Np.array_equal, same_on. cbn [Np.shape Np.data].
  destruct (shape_eqb _ _) eqn:E; cbn [negb]; [reflexivity|].
  destruct (list_eqb obj_eqb _ _) eqn:El; [|reflexivity].
  apply list_eqb_length in El. rewrite El, shape_eqb_refl in E.
  discriminate.
Qed.

Lemma check_optional_same_on (L : AtomLayout.t) (f g : option Np.ndarray)
      (rest : list (option Np.ndarray * option Np.ndarray)) (r : bool) :
  field_ok_opt (AtomLayout.shape L) f -> field_ok_opt (AtomLayout.shape L) g ->
  AtomLayout.check_optional (Np.astype_bool (AtomLayout.atom_name L)) rest
  = Ok r ->
  AtomLayout.check_optional (Np.astype_bool (AtomLayout.atom_name L))
                            ((f, g) :: rest)
  = Ok (same_on_opt (valid_slots L) f g && r).
Proof.
  intros Ff Fg Hr. destruct f as [a|], g as [b|]; cbn [same_on_opt andb];
    try exact Hr.
  cbn [AtomLayout.check_optional].
  rewrite (masked_differ_same_on L a b Ff Fg). cbn [bind].
  destruct (same_on (valid_slots L) a b); cbn [negb andb];
    [exact Hr|reflexivity].
Qed.

(** On well-formed layouts [__eq__] never raises; it returns
    [layouts_equal]. *)
Lemma eq_computes (X Y : AtomLayout.t) :
  AtomLayout.wfb X = true -> AtomLayout.wfb Y = true ->
  AtomLayout.__eq__ X Y = Ok (layouts_equal X Y).
Proof.
  intros Hx Hy.
  destruct (layout_wfb_inv X Hx) as (_ & Fn & Fr & Fc & Fe & Fs & Ft).
  destruct (layout_wfb_inv Y Hy) as (_ & Gn & Gr & Gc & Ge & Gs & Gt).
  unfold AtomLayout.__eq__, layouts_equal.
  destruct (Np.array_equal _ _) eqn:En; cbn [negb andb]; [|reflexivity].
  assert (Hs : AtomLayout.shape Y = AtomLayout.shape X).
  { unfold Np.array_equal in En.
    destruct (shape_eqb _ _) eqn:Es; [|discriminate].
    apply shape_eqb_eq in Es. unfold AtomLayout.shape. now rewrite Es. }
  rewrite Hs in Gr, Gc, Ge, Gs, Gt.
  cbn [AtomLayout.check_essential].
  rewrite (masked_differ_same_on X _ _ Fr Gr). cbn [bind].
  destruct (same_on _ (AtomLayout.res_id X) _); cbn [negb andb];
    [|reflexivity].
  rewrite (masked_differ_same_on X _ _ Fc Gc). cbn [bind].
  destruct (same_on _ (AtomLayout.chain_id X) _); cbn [negb andb];
    [|reflexivity].
  rewrite (check_optional_same_on X _ _ _
             (same_on_opt (valid_slots X) (AtomLayout.res_name X)
                          (AtomLayout.res_name Y)
              && same_on_opt (valid_slots X) (AtomLayout.chain_type X)
                             (AtomLayout.chain_type Y)) Fe Ge).
  - now rewrite andb_assoc.
  - rewrite (check_optional_same_on X _ _ _
               (same_on_opt (valid_slots X) (AtomLayout.chain_type X)
                            (AtomLayout.chain_type Y)) Fs Gs);
      [reflexivity|].
    rewrite (check_optional_same_on X _ _ _ true Ft Gt); [|reflexivity].
    now rewrite andb_true_r.
Qed.

Lemma select_agree_inv {A : Type} (m : list bool) :
  forall x y : list A,
    length x = length m -> length y = length m ->
    Np.select m x = Np.select m y ->
    forall i, nth i m false = true -> nth_error x i = nth_error y i.
Proof.
  induction m as [|b m IH]; intros x y Hx Hy E i Hi;
    [destruct i; discriminate|].
  destruct x as [|u x]; [discriminate|]. destruct y as [|v y]; [discriminate|].
  simpl in Hx, Hy, E. destruct b.
  - injection E as -> E. destruct i as [|i]; [reflexivity|].
    simpl. apply (IH x y); auto with arith.
  - destruct i as [|i]; [discriminate|].
    simpl. apply (IH x y); auto with arith.
Qed.

Lemma same_on_agree (L : AtomLayout.t) (a b : Np.ndarray) :
  field_ok (AtomLayout.shape L) (AtomLayout.atom_name L) ->
  field_ok (AtomLayout.shape L) a -> field_ok (AtomLayout.shape L) b ->
  same_on (valid_slots L) a b = true -> agree_valid L a b.
Proof.
  intros [_ Ln] [_ La] [_ Lb] E. unfold same_on in E.
  apply (list_eqb_eq _ obj_eqb_eq) in E.
  unfold agree_valid. apply select_agree_inv; [| |exact E];
    unfold valid_slots; rewrite length_map; congruence.
Qed.

Lemma same_on_opt_agree (L : AtomLayout.t) (f g : option Np.ndarray) :
  field_ok (AtomLayout.shape L) (AtomLayout.atom_name L) ->
  field_ok_opt (AtomLayout.shape L) f -> field_ok_opt (AtomLayout.shape L) g ->
  same_on_opt (valid_slots L) f g = true -> agree_valid_opt L f g.
Proof.
  intros Fn Ff Fg E. destruct f as [a|], g as [b|]; try exact I.
  now apply same_on_agree.
Qed.

Lemma same_on_refl (m : list bool) (a : Np.ndarray) : same_on m a a = true.
Proof. apply obj_list_eqb_refl. Qed.

Lemma same_on_opt_refl (m : list bool) (f : option Np.ndarray) :
  same_on_opt m f f = true.
Proof. destruct f; [apply same_on_refl|reflexivity]. Qed.

Lemma same_on_sym (m : list bool) (a b : Np.ndarray) :
  same_on m a b = same_on m b a.
Proof. apply (list_eqb_sym obj_eqb obj_eqb_sym). Qed.

Lemma same_on_opt_sym (m : list bool) (f g : option Np.ndarray) :
  same_on_opt m f g = same_on_opt m g f.
Proof. destruct f, g; try reflexivity. apply same_on_sym. Qed.

(** X4: a well-formed layout compares equal to itself. *)
Theorem eq_reflexive (L : AtomLayout.t) :
  AtomLayout.wfb L = true -> AtomLayout.__eq__ L L = Ok true.
Proof.
  intros Hw. rewrite (eq_computes L L Hw Hw). f_equal.
  unfold layouts_equal, Np.array_equal.
  rewrite shape_eqb_refl, obj_list_eqb_refl, !same_on_refl,
    !same_on_opt_refl.
  reflexivity.
Qed.

Lemma layouts_equal_sym (X Y : AtomLayout.t) :
  layouts_equal X Y = layouts_equal Y X.
Proof.
  unfold layouts_equal.
  rewrite (array_equal_sym (AtomLayout.atom_name Y)).
  destruct (Np.array_equal _ _) eqn:En; cbn [andb]; [|reflexivity].
  assert (Hv : valid_slots Y = valid_slots X).
  { unfold Np.array_equal in En.
    destruct (shape_eqb _ _); [|discriminate]. cbn [negb] in En.
    apply (list_eqb_eq _ obj_eqb_eq) in En. unfold valid_slots.
    now rewrite En. }
  rewrite Hv.
  rewrite (same_on_sym _ (AtomLayout.res_id Y)),
    (same_on_sym _ (AtomLayout.chain_id Y)),
    (same_on_opt_sym _ (AtomLayout.atom_element Y)),
    (same_on_opt_sym _ (AtomLayout.res_name Y)),
    (same_on_opt_sym _ (AtomLayout.chain_type Y)).
  reflexivity.
Qed.

(** X5: on well-formed layouts [__eq__] never raises and is symmetric:
    [A == B] and [B == A] return the same boolean. *)
Theorem eq_symmetric (X Y : AtomLayout.t) :
  AtomLayout.wfb X = true -> AtomLayout.wfb Y = true ->
  exists b, AtomLayout.__eq__ X Y = Ok b /\ AtomLayout.__eq__ Y X = Ok b.
Proof.
  intros Hx Hy. exists (layouts_equal X Y). split.
  - now apply eq_computes.
  - rewrite (layouts_equal_sym X Y). now apply eq_computes.
Qed.

(** X6: when [A == B] holds for well-formed layouts, the two have the same
    shape and the same atom names at every slot, padding slots included,
    and their other fields agree on every valid slot (an optional field
    when both layouts have it). *)
Theorem eq_sound (X Y : AtomLayout.t) :
  AtomLayout.wfb X = true -> AtomLayout.wfb Y = true ->
  AtomLayout.__eq__ X Y = Ok true ->
  AtomLayout.shape X = AtomLayout.shape Y /\
  Np.data (AtomLayout.atom_name X) = Np.data (AtomLayout.atom_name Y) /\
  agree_valid X (AtomLayout.res_id X) (AtomLayout.res_id Y) /\
  agree_valid X (AtomLayout.chain_id X) (AtomLayout.chain_id Y) /\
  agree_valid_opt X (AtomLayout.atom_element X) (AtomLayout.atom_element Y) /\
  agree_valid_opt X (AtomLayout.res_name X) (AtomLayout.res_name Y) /\
  agree_valid_opt X (AtomLayout.chain_type X) (AtomLayout.chain_type Y).
Proof.
  intros Hx Hy E. rewrite (eq_computes X Y Hx Hy) in E.
  injection E as E. unfold layouts_equal in E.
  rewrite !andb_true_iff in E.
  destruct E as [[[[[En Er] Ec] Ee] Es] Et].
  destruct (layout_wfb_inv X Hx) as (_ & Fn & Fr & Fc & Fe & Fs & Ft).
  destruct (layout_wfb_inv Y Hy) as (_ & Gn & Gr & Gc & Ge & Gs & Gt).
  unfold Np.array_equal in En.
  destruct (shape_eqb _ _) eqn:Esh; [|discriminate]. cbn [negb] in En.
  apply shape_eqb_eq in Esh. apply (list_eqb_eq _ obj_eqb_eq) in En.
  assert (Hs : AtomLayout.shape X = AtomLayout.shape Y) by exact Esh.
  rewrite <- Hs in Gr, Gc, Ge, Gs, Gt.
  split; [exact Hs|]. split; [exact En|].
  split; [now apply same_on_agree|]. split; [now apply same_on_agree|].
  split; [now apply same_on_opt_agree|].
  split; now apply same_on_opt_agree.
Qed.

Lemma eq_reflexive_witness :
  AtomLayout.__eq__ Examples.layout_2x2 Examples.layout_2x2 = Ok true.
Proof. apply eq_reflexive. reflexivity. Defined.

Lemma eq_symmetric_witness :
  exists b,
    AtomLayout.__eq__ Examples.layout_pad_empty Examples.layout_pad_none
    = Ok b /\
    AtomLayout.__eq__ Examples.layout_pad_none Examples.layout_pad_empty
    = Ok b.
Proof. apply eq_symmetric; reflexivity. Defined.

Lemma eq_sound_witness :
  AtomLayout.shape Examples.layout_pad_empty
  = AtomLayout.shape Examples.layout_pad_other /\
  Np.data (AtomLayout.atom_name Examples.layout_pad_empty)
  = Np.data (AtomLayout.atom_name Examples.layout_pad_other) /\
  agree_valid Examples.layout_pad_empty
              (AtomLayout.res_id Examples.layout_pad_empty)
              (AtomLayout.res_id Examples.layout_pad_other) /\
  agree_valid Examples.layout_pad_empty
              (AtomLayout.chain_id Examples.layout_pad_empty)
              (AtomLayout.chain_id Examples.layout_pad_other) /\
  agree_valid_opt Examples.layout_pad_empty
                  (AtomLayout.atom_element Examples.layout_pad_empty)
                  (AtomLayout.atom_element Examples.layout_pad_other) /\
  agree_valid_opt Examples.layout_pad_empty
                  (AtomLayout.res_name Examples.layout_pad_empty)
                  (AtomLayout.res_name Examples.layout_pad_other) /\
  agree_valid_opt Examples.layout_pad_empty
                  (AtomLayout.chain_type Examples.layout_pad_empty)
                  (AtomLayout.chain_type Examples.layout_pad_other).
Proof. apply eq_sound; reflexivity. Defined.

(** ** Further properties of padding *)

Section PadFacts.

Context {A : Type} (fill : A) (valid : A -> bool).

Hypothesis fill_invalid : valid fill = false.

Lemma filter_repeat_fill (n : nat) : filter valid (repeat fill n) = [].
Proof.
  induction n as [|n IH]; [reflexivity|]. simpl. now rewrite fill_invalid.
Qed.

Lemma filter_flat_map {B : Type} (f : B -> list A) (js : list B) :
  filter valid (flat_map f js) = flat_map (fun j => filter valid (f j)) js.
Proof.
  induction js as [|j js IH]; [reflexivity|]. simpl.
  now rewrite filter_app, IH.
Qed.

(** Padding adds no valid element: the valid elements of the padded array
    are those of the array, in the same order. *)
Lemma filter_pad_data (s : list nat) :
  forall (pw : list (nat * nat)) (l : list A),
    length l = numel s ->
    filter valid (pad_data fill s pw l) = filter valid l.
Proof.
  induction s as [|d ds IH]; intros pw l Hl; [reflexivity|].
  destruct pw as [|[b a] pw]; [reflexivity|].
  cbn [pad_data]. cbn [numel fold_right] in Hl. fold (numel ds) in Hl.
  rewrite !filter_app, !filter_repeat_fill, app_nil_r. cbn [app].
  rewrite filter_flat_map.
  rewrite (flat_map_ext_in' _ (fun j => filter valid (row (numel ds) j l))).
  - rewrite <- filter_flat_map. now rewrite flat_map_row_all by lia.
  - intros j Hj. apply in_seq in Hj. apply IH, row_length. nia.
Qed.

End PadFacts.

Lemma pad_shape_zero (s : list nat) :
  forall pw : list (nat * nat),
    Forall (fun p => p = (0, 0)) pw -> pad_shape s pw = s.
Proof.
  induction s as [|d ds IH]; intros pw Hp; [reflexivity|].
  destruct pw as [|[b a] pw]; [reflexivity|].
  inversion Hp as [|? ? Hba Hp']; subst. injection Hba as -> ->.
  cbn [pad_shape]. rewrite (IH pw Hp'). f_equal. lia.
Qed.

(** Padding by nothing leaves the elements as they are. *)
Lemma pad_data_zero {A : Type} (fill : A) (s : list nat) :
  forall (pw : list (nat * nat)) (l : list A),
    Forall (fun p => p = (0, 0)) pw -> length l = numel s ->
    pad_data fill s pw l = l.
Proof.
  induction s as [|d ds IH]; intros pw l Hp Hl; [reflexivity|].
  destruct pw as [|[b a] pw]; [reflexivity|].
  inversion Hp as [|? ? Hba Hp']; subst. injection Hba as -> ->.
  cbn [pad_data Nat.mul repeat app]. rewrite app_nil_r.
  cbn [numel fold_right] in Hl. fold (numel ds) in Hl.
  transitivity (flat_map (fun j => row (numel ds) j l) (seq 0 d));
    [|apply flat_map_row_all; lia].
  apply flat_map_ext_in'. intros j Hj. apply in_seq in Hj.
  apply IH; [exact Hp'|]. apply row_length. nia.
Qed.

Lemma np_wfb_padded (a : Np.ndarray) (pw : list (nat * nat)) (fill : obj) :
  Np.wfb a = true ->
  Np.wfb (Np.mk (Np.dtype_of a) (pad_shape (Np.shape a) pw)
                (pad_data fill (Np.shape a) pw (Np.data a))) = true.
Proof.
  unfold Np.wfb. cbn [Np.shape Np.data]. rewrite !Nat.eqb_eq.
  apply pad_data_length.
Qed.

(** X7: whenever [copy_and_pad_to] returns, the result is a well-formed
    layout of the requested shape, and padding adds no valid slot: the atom
    names at the valid slots are those of the original layout, in the same
    order. *)
Theorem copy_and_pad_to_keeps_valid (L P : AtomLayout.t) (S : list Z) :
  AtomLayout.wfb L = true ->
  AtomLayout.copy_and_pad_to L S = Ok P ->
  AtomLayout.wfb P = true /\
  AtomLayout.shape P = map Z.to_nat S /\
  valid_names P = valid_names L.
Proof.
  intros Hw E.
  destruct (layout_wfb_inv L Hw) as (_ & Fn & _).
  unfold AtomLayout.wfb in Hw. rewrite !andb_true_iff in Hw.
  destruct Hw as [[[[[[_ Wn] Wr] Wc] We] Ws] Wt].
  unfold AtomLayout.copy_and_pad_to in E. fold (AtomLayout.shape L) in E.
  fold (pad_width_of (AtomLayout.shape L) S) in E.
  destruct (length S =? length (AtomLayout.shape L)) eqn:El;
    [|discriminate]. apply Nat.eqb_eq in El.
  destruct (existsb _ _) eqn:Ex; [discriminate|]. cbn [negb] in E.
  assert (Hfit : fits (AtomLayout.shape L) S) by (apply fits_iff; auto).
  pose proof (pad_shape_pad_width _ _ Hfit) as Hps.
  unfold AtomLayout.pad_opt, AtomLayout.make in E. unfold Np.pad in E.
  destruct (pad_width_of (AtomLayout.shape L) S) as [|p0 pw];
    [discriminate|].
  destruct L as [an ri ci [ae|] [rn|] [ct|]];
    cbn [bind AtomLayout.atom_name AtomLayout.res_id AtomLayout.chain_id
         AtomLayout.atom_element AtomLayout.res_name AtomLayout.chain_type
         AtomLayout.wfb_opt AtomLayout.shape] in *;
    match type of E with
    | context [AtomLayout.__post_init__ ?Q] =>
        destruct (AtomLayout.__post_init__ Q) as [[]|] eqn:Hpi;
        cbn [bind] in E; try discriminate E
    end;
    injection E as <-;
    (split; [|split]);
    try (unfold AtomLayout.wfb; rewrite Hpi;
         cbn [raises negb andb AtomLayout.atom_name AtomLayout.res_id
              AtomLayout.chain_id AtomLayout.atom_element
              AtomLayout.res_name AtomLayout.chain_type AtomLayout.wfb_opt];
         rewrite !np_wfb_padded by assumption; reflexivity);
    try (cbn [AtomLayout.shape AtomLayout.atom_name Np.shape]; exact Hps);
    unfold valid_names; cbn [AtomLayout.atom_name Np.data];
    (apply filter_pad_data; [reflexivity|exact (proj2 Fn)]).
Qed.

(** X8: padding a well-formed layout with at least one axis to its own
    shape returns the layout itself. *)
Theorem copy_and_pad_to_own_shape (L : AtomLayout.t) :
  AtomLayout.wfb L = true ->
  AtomLayout.shape L <> [] ->
  AtomLayout.copy_and_pad_to L (map Z.of_nat (AtomLayout.shape L)) = Ok L.
Proof.
  destruct L as [an ri ci oe orn oct]. intros Hw Hne.
  destruct (layout_wfb_inv _ Hw) as (Hpi & Fn & Fr & Fc & Fe & Fs & Ft).
  unfold AtomLayout.shape in Hne, Fn, Fr, Fc, Fe, Fs, Ft |- *.
  cbn [AtomLayout.atom_name AtomLayout.res_id
       AtomLayout.chain_id AtomLayout.atom_element AtomLayout.res_name
       AtomLayout.chain_type] in Hne, Fn, Fr, Fc, Fe, Fs, Ft |- *.
  remember (Np.shape an) as s eqn:Es.
  assert (Hpw : Forall (fun p => p = (0, 0))
                       (pad_width_of s (map Z.of_nat s))).
  { unfold pad_width_of. apply Forall_map, Forall_forall.
    intros [d n] Hin. cbn [fst snd].
    assert (n = Z.of_nat d); [|subst n; f_equal; lia].
    clear - Hin. induction s as [|x s IH]; [contradiction|].
    destruct Hin as [[= -> <-]|Hin]; [reflexivity|auto]. }
  assert (Hex : existsb (fun on => (snd on <? Z.of_nat (fst on))%Z)
                        (combine s (map Z.of_nat s)) = false).
  { clear. induction s as [|x s IH]; [reflexivity|]. simpl.
    rewrite IH, orb_false_r. apply Z.ltb_irrefl. }
  assert (Hpad : forall (a : Np.ndarray) (fill : obj),
             field_ok s a ->
             Np.pad a (pad_width_of s (map Z.of_nat s)) fill = Ok a).
  { intros a fill [Sa La]. unfold Np.pad.
    destruct (pad_width_of s (map Z.of_nat s)) as [|p0 pw] eqn:Epw.
    - unfold pad_width_of in Epw. clear - Epw Hne.
      destruct s; [congruence|discriminate].
    - rewrite Sa, (pad_shape_zero s _ Hpw),
        (pad_data_zero fill s _ _ Hpw La).
      destruct a; cbn in *. now subst. }
  unfold AtomLayout.copy_and_pad_to.
  cbn [AtomLayout.atom_name AtomLayout.res_id AtomLayout.chain_id
       AtomLayout.atom_element AtomLayout.res_name AtomLayout.chain_type].
  rewrite <- Es. rewrite length_map, Nat.eqb_refl, Hex. cbn [negb].
  fold (pad_width_of s (map Z.of_nat s)).
  rewrite !Hpad by assumption. cbn [bind].
  unfold AtomLayout.pad_opt, AtomLayout.make.
  destruct oe as [ae|], orn as [rn|], oct as [ct|];
    cbn [field_ok_opt] in *;
    rewrite ?Hpad by assumption; cbn [bind]; now rewrite Hpi.
Qed.

Lemma copy_and_pad_to_keeps_valid_witness :
  exists P,
    AtomLayout.copy_and_pad_to Examples.layout_2x2 [3; 4]%Z = Ok P /\
    AtomLayout.wfb P = true /\
    AtomLayout.shape P = map Z.to_nat [3; 4]%Z /\
    valid_names P = valid_names Examples.layout_2x2.
Proof.
  eexists. split; [reflexivity|].
  apply (copy_and_pad_to_keeps_valid Examples.layout_2x2 _ [3; 4]%Z);
    reflexivity.
Defined.

Lemma copy_and_pad_to_own_shape_witness :
  AtomLayout.copy_and_pad_to Examples.layout_2x2 [2; 2]%Z
  = Ok Examples.layout_2x2.
Proof.
  apply (copy_and_pad_to_own_shape Examples.layout_2x2);
    [reflexivity|discriminate].
Defined.

(** ** [from_array] followed by [to_array] *)

Lemma from_array_rows (dt : Np.dtype) (d : nat) (ds : list nat)
      (l : list obj) :
  let r := fun j => Np.mk dt (d :: ds) (row (numel (d :: ds)) j l) in
  AtomLayout.from_array (Np.mk dt (6 :: d :: ds) l)
  = AtomLayout.make (r 0) (r 1) (r 2) (Some (r 3)) (Some (r 4)) (Some (r 5)).
Proof. reflexivity. Qed.

(** X9: a well-formed object array of shape (6, d, ...) is accepted by
    [from_array]; the layout it builds is well formed, has the shape
    (d, ...), and [to_array] of it gives the array back. *)
Theorem to_array_from_array (arr : Np.ndarray) (d : nat) (ds : list nat) :
  Np.dtype_of arr = Np.object ->
  Np.shape arr = 6 :: d :: ds ->
  Np.wfb arr = true ->
  exists L,
    AtomLayout.from_array arr = Ok L /\
    AtomLayout.shape L = d :: ds /\
    AtomLayout.wfb L = true /\
    AtomLayout.to_array L = Ok arr.
Proof.
  destruct arr as [dt s l]. cbn [Np.dtype_of Np.shape]. intros -> -> Hw.
  unfold Np.wfb in Hw. cbn [Np.shape Np.data] in Hw. apply Nat.eqb_eq in Hw.
  change (numel (6 :: d :: ds)) with (6 * numel (d :: ds)) in Hw.
  set (w := numel (d :: ds)) in *.
  assert (Hrow : forall j, j < 6 -> length (row w j l) = w).
  { intros j Hj. apply row_length. nia. }
  rewrite from_array_rows. fold w. cbv zeta.
  rewrite make_ok; cbn [Np.dtype_of Np.shape]; try reflexivity;
    try (intros a [= <-]; reflexivity).
  eexists. split; [reflexivity|]. split; [reflexivity|]. split.
  - unfold AtomLayout.wfb, AtomLayout.__post_init__,
      AtomLayout._assert_all_arrays_have_same_shape, Np.wfb.
    cbn [AtomLayout.atom_name AtomLayout.res_id AtomLayout.chain_id
         AtomLayout.atom_element AtomLayout.res_name AtomLayout.chain_type
         AtomLayout.wfb_opt Np.shape Np.data Np.dtype_of forallb].
    rewrite !shape_eqb_refl. cbn [andb bind Np.dtype_eqb negb raises].
    unfold Np.wfb. cbn [Np.shape Np.data]. fold w.
    rewrite (Hrow 0), (Hrow 1), (Hrow 2), (Hrow 3), (Hrow 4), (Hrow 5) by lia.
    now rewrite Nat.eqb_refl.
  - unfold AtomLayout.to_array, Np.stack, Np.promote.
    cbn [AtomLayout.atom_name AtomLayout.res_id AtomLayout.chain_id
         AtomLayout.atom_element AtomLayout.res_name AtomLayout.chain_type
         Np.shape Np.data Np.dtype_of forallb existsb Np.dtype_eqb orb
         length].
    rewrite !shape_eqb_refl. cbn [andb]. do 2 f_equal.
    change (flat_map Np.data _)
      with (flat_map (fun j => row w j l) (seq 0 6)).
    apply flat_map_row_all. exact Hw.
Qed.

(** X10: [from_array] refuses an array of integers of shape (6, d, ...):
    the first row becomes [atom_name], whose dtype has to be [object]. *)
Theorem from_array_int64_raises (arr : Np.ndarray) (d : nat) (ds : list nat) :
  Np.dtype_of arr = Np.int64 ->
  Np.shape arr = 6 :: d :: ds ->
  AtomLayout.from_array arr = Raise ValueError.
Proof.
  destruct arr as [dt s l]. cbn [Np.dtype_of Np.shape]. intros -> ->.
  rewrite from_array_rows. cbv zeta.
  unfold AtomLayout.make, AtomLayout.__post_init__,
    AtomLayout._assert_all_arrays_have_same_shape.
  cbn [AtomLayout.atom_name AtomLayout.res_id AtomLayout.chain_id
       AtomLayout.atom_element AtomLayout.res_name AtomLayout.chain_type
       Np.shape Np.dtype_of forallb].
  rewrite !shape_eqb_refl. reflexivity.
Qed.

Lemma to_array_from_array_witness :
  exists L,
    AtomLayout.from_array stacked_6x2 = Ok L /\
    AtomLayout.shape L = [2] /\
    AtomLayout.wfb L = true /\
    AtomLayout.to_array L = Ok stacked_6x2.
Proof.
  exact (to_array_from_array stacked_6x2 2 [] eq_refl eq_refl eq_refl).
Defined.

Lemma from_array_int64_raises_witness :
  AtomLayout.from_array
    (Examples.int_array [6; 1] [1; 2; 3; 4; 5; 6]%Z) = Raise ValueError.
Proof.
  exact (from_array_int64_raises
           (Examples.int_array [6; 1] [1; 2; 3; 4; 5; 6]%Z) 1 []
           eq_refl eq_refl).
Defined.

(** ** Indexing keeps arrays well formed *)

Lemma clamp_le (n : nat) (i : Z) : clamp n i <= n.
Proof.
  unfold clamp. destruct (i <? 0)%Z eqn:E; [|lia].
  apply Z.ltb_lt in E. lia.
Qed.

Lemma slice_stop_le (n : nat) (b : option Z) : slice_stop n b <= n.
Proof. destruct b as [i|]; [apply clamp_le|apply Nat.le_refl]. Qed.

Lemma slice_within (n : nat) (a b : option Z) :
  slice_len n a b = 0 \/ slice_start n a + slice_len n a b <= n.
Proof.
  unfold slice_len. pose proof (slice_stop_le n b). lia.
Qed.

Lemma wrap_in_bounds (d : nat) (i : Z) :
  in_bounds d i = true -> Z.to_nat (wrap d i) < d.
Proof.
  unfold in_bounds. rewrite andb_true_iff, Z.leb_le, Z.ltb_lt. lia.
Qed.

Lemma index_shape_exn (k : key) :
  forall (s : list nat) (e : exn),
    index_shape k s = Raise e -> e = IndexError.
Proof.
  induction k as [|it k IH]; intros s e; [discriminate|].
  destruct it as [i|a b| |]; cbn [index_shape].
  - destruct s as [|d ds]; [now intros [= <-]|].
    destruct (in_bounds d i); [apply IH|now intros [= <-]].
  - destruct s as [|d ds]; [now intros [= <-]|].
    destruct (index_shape k ds) as [s'|e'] eqn:E; cbn [bind];
      [discriminate|]. intros [= <-]. exact (IH _ _ E).
  - destruct (index_shape k s) as [s'|e'] eqn:E; cbn [bind];
      [discriminate|]. intros [= <-]. exact (IH _ _ E).
  - destruct (_ || _); [now intros [= <-]|].
    destruct (index_shape k _) as [s'|e'] eqn:E; cbn [bind];
      [discriminate|]. intros [= <-]. exact (IH _ _ E).
Qed.

Lemma numel_firstn_skipn (n : nat) (s : list nat) :
  numel (firstn n s) * numel (skipn n s) = numel s.
Proof. now rewrite <- numel_app, firstn_skipn. Qed.

Lemma index_data_length {A : Type} (k : key) :
  forall (s s' : list nat) (l : list A),
    length l = numel s ->
    index_shape k s = Ok s' ->
    length (index_data k s l) = numel s'.
Proof.
  induction k as [|it k IH]; intros s s' l Hl; [now intros [= <-]|].
  destruct it as [i|a b| |]; cbn [index_shape index_data].
  - destruct s as [|d ds]; [discriminate|].
    destruct (in_bounds d i) eqn:Hb; [|discriminate]. intros E.
    apply wrap_in_bounds in Hb. apply (IH ds); [|exact E].
    apply row_length. change (numel (d :: ds)) with (d * numel ds) in Hl.
    nia.
  - destruct s as [|d ds]; [discriminate|].
    destruct (index_shape k ds) as [s''|] eqn:E; cbn [bind]; [|discriminate].
    intros [= <-]. change (numel (d :: ds)) with (d * numel ds) in Hl.
    rewrite (flat_map_length_const _ (numel s'')).
    + now rewrite length_seq.
    + intros j Hj. apply in_seq in Hj. apply (IH ds); [|exact E].
      apply row_length. destruct (slice_within d a b); nia.
  - destruct (index_shape k s) as [s''|] eqn:E; cbn [bind]; [|discriminate].
    intros [= <-]. change (numel (1 :: s'')) with (1 * numel s'').
    rewrite Nat.mul_1_l. now apply (IH s).
  - destruct (_ || _); [discriminate|].
    set (kept := length s - length (filter takes_axis k)).
    destruct (index_shape k (skipn kept s)) as [s''|] eqn:E; cbn [bind];
      [|discriminate].
    intros [= <-]. rewrite numel_app.
    rewrite (flat_map_length_const _ (numel s'')).
    + now rewrite length_seq.
    + intros j Hj. apply in_seq in Hj. apply (IH (skipn kept s)); [|exact E].
      apply row_length. pose proof (numel_firstn_skipn kept s). nia.
Qed.

Lemma bind_ok_inv {A B : Type} (m : result A) (f : A -> result B) (y : B) :
  bind m f = Ok y -> exists x, m = Ok x /\ f x = Ok y.
Proof. destruct m as [x|e]; [now exists x|discriminate]. Qed.

Lemma np_getitem_arr (s : list nat) (a a' : Np.ndarray) (k : key)
      (v : Np.value) :
  field_ok s a ->
  Np.getitem a k = Ok v -> AtomLayout.as_array v = Ok a' ->
  index_shape k s = Ok (Np.shape a') /\ Np.wfb a' = true.
Proof.
  intros [Hs Hl] G Hv. destruct v as [b|o]; [|discriminate].
  injection Hv as ->. unfold Np.getitem in G. rewrite Hs in G.
  destruct (index_shape k s) as [s'|] eqn:E; cbn [bind] in G; [|discriminate].
  destruct (_ && _).
  - destruct (index_data k s (Np.data a)) as [|o [|]]; discriminate.
  - injection G as <-. split; [reflexivity|].
    unfold Np.wfb. cbn [Np.shape Np.data]. apply Nat.eqb_eq.
    now apply index_data_length with (s := s).
Qed.

Lemma np_getitem_opt_arr (s : list nat) (f oa : option Np.ndarray)
      (k : key) (ov : option Np.value) :
  field_ok_opt s f ->
  AtomLayout.getitem_opt f k = Ok ov -> AtomLayout.as_array_opt ov = Ok oa ->
  AtomLayout.wfb_opt oa = true.
Proof.
  intros Hf G Hv. destruct f as [a|]; cbn [AtomLayout.getitem_opt] in G.
  - apply bind_ok_inv in G as (v & G & [= <-]).
    cbn [AtomLayout.as_array_opt] in Hv.
    apply bind_ok_inv in Hv as (a' & Hv & [= <-]).
    exact (proj2 (np_getitem_arr s a a' k v Hf G Hv)).
  - injection G as <-. now injection Hv as <-.
Qed.

Lemma make_inv (an ri ci : Np.ndarray) (ae rn ct : option Np.ndarray)
      (L : AtomLayout.t) :
  AtomLayout.make an ri ci ae rn ct = Ok L ->
  L = AtomLayout.mk an ri ci ae rn ct /\ AtomLayout.__post_init__ L = Ok tt.
Proof.
  unfold AtomLayout.make. cbv zeta. intros E.
  apply bind_ok_inv in E as ([] & Hp & [= <-]). now split.
Qed.

(** X11: indexing a well-formed layout with a basic key gives, whenever it
    returns, a well-formed layout again, and its shape is the shape that the
    key selects from the shape of the layout. *)
Theorem layout_getitem_well_formed (L L' : AtomLayout.t) (k : key) :
  AtomLayout.wfb L = true ->
  AtomLayout.__getitem__ L k = Ok L' ->
  AtomLayout.wfb L' = true /\
  index_shape k (AtomLayout.shape L) = Ok (AtomLayout.shape L').
Proof.
  intros Hw E.
  destruct (layout_wfb_inv L Hw) as (_ & Fn & Fr & Fc & Fe & Fs & Ft).
  unfold AtomLayout.__getitem__ in E.
  apply bind_ok_inv in E as (v1 & G1 & E).
  apply bind_ok_inv in E as (v2 & G2 & E).
  apply bind_ok_inv in E as (v3 & G3 & E).
  apply bind_ok_inv in E as (v4 & G4 & E).
  apply bind_ok_inv in E as (v5 & G5 & E).
  apply bind_ok_inv in E as (v6 & G6 & E).
  apply bind_ok_inv in E as (an & A1 & E).
  apply bind_ok_inv in E as (ae & A4 & E).
  apply bind_ok_inv in E as (rn & A5 & E).
  apply bind_ok_inv in E as (ri & A2 & E).
  apply bind_ok_inv in E as (ci & A3 & E).
  apply bind_ok_inv in E as (ct & A6 & E).
  apply make_inv in E as [-> Hp].
  destruct (np_getitem_arr _ _ _ _ _ Fn G1 A1) as [S1 W1].
  destruct (np_getitem_arr _ _ _ _ _ Fr G2 A2) as [_ W2].
  destruct (np_getitem_arr _ _ _ _ _ Fc G3 A3) as [_ W3].
  pose proof (np_getitem_opt_arr _ _ _ _ _ Fe G4 A4) as W4.
  pose proof (np_getitem_opt_arr _ _ _ _ _ Fs G5 A5) as W5.
  pose proof (np_getitem_opt_arr _ _ _ _ _ Ft G6 A6) as W6.
  split; [|exact S1].
  unfold AtomLayout.wfb. rewrite Hp.
  cbn [AtomLayout.atom_name AtomLayout.res_id AtomLayout.chain_id
       AtomLayout.atom_element AtomLayout.res_name AtomLayout.chain_type].
  now rewrite W1, W2, W3, W4, W5, W6.
Qed.

Lemma np_getitem_exn (a : Np.ndarray) (k : key) (e : exn) :
  Np.getitem a k = Raise e -> e = IndexError.
Proof.
  unfold Np.getitem.
  destruct (index_shape k (Np.shape a)) as [s'|e'] eqn:E; cbn [bind].
  - destruct (_ && _); [|discriminate].
    destruct (index_data _ _ _) as [|o [|]]; try discriminate;
      now intros [= <-].
  - intros [= <-]. exact (index_shape_exn _ _ _ E).
Qed.

Lemma getitem_opt_exn (f : option Np.ndarray) (k : key) (e : exn) :
  AtomLayout.getitem_opt f k = Raise e -> e = IndexError.
Proof.
  destruct f as [a|]; cbn [AtomLayout.getitem_opt]; [|discriminate].
  destruct (Np.getitem a k) eqn:G; cbn [bind]; [discriminate|].
  intros [= <-]. exact (np_getitem_exn _ _ _ G).
Qed.

(** X12: a key of one integer per axis never selects a layout.  The fields
    are indexed first, which raises [IndexError] when an integer is out of
    bounds; otherwise the constructor receives the stored objects, which
    have no shape, and raises [AttributeError]. *)
Theorem layout_getitem_all_integers (L : AtomLayout.t) (k : key) :
  forallb is_int k = true ->
  length k = length (AtomLayout.shape L) ->
  AtomLayout.__getitem__ L k = Raise IndexError \/
  AtomLayout.__getitem__ L k = Raise AttributeError.
Proof.
  intros Hk Hn. unfold AtomLayout.__getitem__.
  destruct (Np.getitem (AtomLayout.atom_name L) k) as [v1|e] eqn:G1;
    cbn [bind]; [|left; f_equal; exact (np_getitem_exn _ _ _ G1)].
  assert (Hv : exists o, v1 = Np.Scalar o).
  { unfold Np.getitem in G1. fold (AtomLayout.shape L) in G1.
    rewrite Hk, Hn, Nat.eqb_refl in G1.
    destruct (index_shape k _); cbn [bind andb] in G1; [|discriminate].
    destruct (index_data _ _ _) as [|o [|]]; try discriminate.
    injection G1 as <-. now exists o. }
  destruct Hv as [o ->].
  destruct (Np.getitem (AtomLayout.res_id L) k) as [v2|e] eqn:G2;
    cbn [bind]; [|left; f_equal; exact (np_getitem_exn _ _ _ G2)].
  destruct (Np.getitem (AtomLayout.chain_id L) k) as [v3|e] eqn:G3;
    cbn [bind]; [|left; f_equal; exact (np_getitem_exn _ _ _ G3)].
  destruct (AtomLayout.getitem_opt (AtomLayout.atom_element L) k)
    as [v4|e] eqn:G4;
    cbn [bind]; [|left; f_equal; exact (getitem_opt_exn _ _ _ G4)].
  destruct (AtomLayout.getitem_opt (AtomLayout.res_name L) k)
    as [v5|e] eqn:G5;
    cbn [bind]; [|left; f_equal; exact (getitem_opt_exn _ _ _ G5)].
  destruct (AtomLayout.getitem_opt (AtomLayout.chain_type L) k)
    as [v6|e] eqn:G6;
    cbn [bind]; [|left; f_equal; exact (getitem_opt_exn _ _ _ G6)].
  right. reflexivity.
Qed.

Lemma layout_getitem_well_formed_witness :
  exists L',
    AtomLayout.__getitem__ Examples.layout_2x2
      [IEllipsis; ISlice (Some 1%Z) None] = Ok L' /\
    AtomLayout.wfb L' = true /\
    index_shape [IEllipsis; ISlice (Some 1%Z) None]
      (AtomLayout.shape Examples.layout_2x2) = Ok (AtomLayout.shape L').
Proof.
  eexists. split; [reflexivity|].
  apply (layout_getitem_well_formed Examples.layout_2x2); reflexivity.
Defined.

Lemma layout_getitem_all_integers_witness :
  AtomLayout.__getitem__ Examples.layout_2x2 [IInt 0%Z; IInt 1%Z]
  = Raise IndexError \/
  AtomLayout.__getitem__ Examples.layout_2x2 [IInt 0%Z; IInt 1%Z]
  = Raise AttributeError.
Proof.
  apply (layout_getitem_all_integers Examples.layout_2x2); reflexivity.
Defined.

Lemma index_ellipsis {A : Type} (s : list nat) (l : list A) :
  length l = numel s ->
  index_shape [IEllipsis] s = Ok s /\ index_data [IEllipsis] s l = l.
Proof.
  intros Hl. cbn [index_shape index_data filter length existsb orb].
  destruct (length s <? 0) eqn:E; [apply Nat.ltb_lt in E; lia|].
  rewrite Nat.sub_0_r, skipn_all, firstn_all.
  cbn [index_shape bind index_data]. rewrite app_nil_r. split; [reflexivity|].
  change (numel []) with 1. apply flat_map_row_all. lia.
Qed.

(** X13: indexing a well-formed GatherInfo gives, whenever it returns, a
    well-formed GatherInfo: both tensors hold as many elements as their
    shape says. *)
Theorem gather_info_getitem_well_formed (g g' : GatherInfo.t) (k : key) :
  GatherInfo.wfb g = true ->
  GatherInfo.__getitem__ g k = Ok g' ->
  GatherInfo.wfb g' = true.
Proof.
  unfold GatherInfo.wfb, Torch.wfb. rewrite !andb_true_iff, !Nat.eqb_eq.
  intros [[_ Wi] Wm] E. unfold GatherInfo.__getitem__, Torch.getitem in E.
  apply bind_ok_inv in E as (gi & Gi & E).
  apply bind_ok_inv in E as (gm & Gm & E).
  apply bind_ok_inv in Gi as (si & Si & [= <-]).
  apply bind_ok_inv in Gm as (sm & Sm & [= <-]).
  unfold GatherInfo.make in E. cbv zeta in E.
  apply bind_ok_inv in E as ([] & Hp & [= <-]). rewrite Hp.
  cbn [GatherInfo.gather_idxs GatherInfo.gather_mask Torch.shape Torch.data
       raises negb].
  repeat split.
  - now apply index_data_length with (s := Torch.shape (GatherInfo.gather_idxs g)).
  - now apply index_data_length with (s := Torch.shape (GatherInfo.gather_mask g)).
Qed.

(** X14: the key [...] selects everything: on a well-formed layout,
    [L[...]] returns [L]. *)
Theorem layout_getitem_ellipsis (L : AtomLayout.t) :
  AtomLayout.wfb L = true ->
  AtomLayout.__getitem__ L [IEllipsis] = Ok L.
Proof.
  destruct L as [an ri ci oe orn oct]. intros Hw.
  destruct (layout_wfb_inv _ Hw) as (Hpi & Fn & Fr & Fc & Fe & Fs & Ft).
  assert (Hget : forall a, field_ok (Np.shape an) a ->
                   Np.getitem a [IEllipsis] = Ok (Np.Arr a)).
  { intros [dt s l] [Hs Hl]. cbn [Np.shape Np.data] in Hs, Hl.
    rewrite <- Hs in Hl. destruct (index_ellipsis s l Hl) as [E1 E2].
    unfold Np.getitem. cbn [Np.shape Np.data Np.dtype_of].
    rewrite E1, E2. reflexivity. }
  unfold AtomLayout.shape in Fn, Fr, Fc, Fe, Fs, Ft.
  cbn [AtomLayout.atom_name AtomLayout.res_id AtomLayout.chain_id
       AtomLayout.atom_element AtomLayout.res_name AtomLayout.chain_type]
    in Fn, Fr, Fc, Fe, Fs, Ft.
  unfold AtomLayout.__getitem__, AtomLayout.getitem_opt.
  cbn [AtomLayout.atom_name AtomLayout.res_id AtomLayout.chain_id
       AtomLayout.atom_element AtomLayout.res_name AtomLayout.chain_type].
  rewrite !Hget by assumption. cbn [bind].
  destruct oe as [ae|], orn as [rn|], oct as [ct|];
    cbn [field_ok_opt] in Fe, Fs, Ft;
    rewrite ?Hget by assumption;
    cbn [bind AtomLayout.as_array AtomLayout.as_array_opt];
    unfold AtomLayout.make; cbv zeta; now rewrite Hpi.
Qed.

(** X15: on a well-formed GatherInfo, [g[...]] returns [g]. *)
Theorem gather_info_getitem_ellipsis (g : GatherInfo.t) :
  GatherInfo.wfb g = true ->
  GatherInfo.__getitem__ g [IEllipsis] = Ok g.
Proof.
  destruct g as [[si li] [sm lm] ish].
  unfold GatherInfo.wfb, Torch.wfb.
  cbn [GatherInfo.gather_idxs GatherInfo.gather_mask Torch.shape Torch.data].
  rewrite !andb_true_iff, !Nat.eqb_eq. intros [[Hp Wi] Wm].
  destruct (index_ellipsis si li Wi) as [E1 E2].
  destruct (index_ellipsis sm lm Wm) as [E3 E4].
  unfold GatherInfo.__getitem__, Torch.getitem.
  cbn [GatherInfo.gather_idxs GatherInfo.gather_mask GatherInfo.input_shape
       Torch.shape Torch.data].
  rewrite E1, E2, E3, E4. cbn [bind]. unfold GatherInfo.make. cbv zeta.
  destruct (GatherInfo.__post_init__ _) as [[]|]; [reflexivity|discriminate].
Qed.

Lemma gather_info_getitem_well_formed_witness :
  exists g',
    GatherInfo.__getitem__ Examples.map_3_of_2 [ISlice None (Some 2%Z)]
    = Ok g' /\ GatherInfo.wfb g' = true.
Proof.
  eexists. split; [reflexivity|].
  apply (gather_info_getitem_well_formed Examples.map_3_of_2 _
           [ISlice None (Some 2%Z)]); reflexivity.
Defined.

Lemma layout_getitem_ellipsis_witness :
  AtomLayout.__getitem__ Examples.layout_2x2 [IEllipsis]
  = Ok Examples.layout_2x2.
Proof. apply (layout_getitem_ellipsis Examples.layout_2x2). reflexivity. Defined.

Lemma gather_info_getitem_ellipsis_witness :
  GatherInfo.__getitem__ Examples.map_3_of_2 [IEllipsis]
  = Ok Examples.map_3_of_2.
Proof.
  apply (gather_info_getitem_ellipsis Examples.map_3_of_2). reflexivity.
Defined.

(** ** What [convert] returns *)

Section ConvertFacts.

Context {A : Type} `{Torch.Dtype A}.

Lemma gather_data_length (nbatch n w : nat) (idxs : list Z) (l : list A) :
  length l = nbatch * (n * w) ->
  forallb (in_bounds n) idxs = true ->
  length (Torch.gather_data nbatch n w idxs l) = nbatch * (length idxs * w).
Proof.
  intros Hl Hb. unfold Torch.gather_data.
  rewrite (flat_map_length_const _ (length idxs * w)).
  - now rewrite length_seq.
  - intros i Hi. apply in_seq in Hi. cbv zeta.
    apply flat_map_length_const. intros j Hj.
    rewrite forallb_forall in Hb. pose proof (wrap_in_bounds _ _ (Hb j Hj)).
    apply row_length. rewrite row_length by nia. nia.
Qed.

Lemma mask_data_length (nbatch m w : nat) (mask : list bool) (l : list A) :
  length l = nbatch * (m * w) ->
  length mask = m ->
  length (Torch.mask_data nbatch m w mask l) = nbatch * (m * w).
Proof.
  intros Hl Hm. unfold Torch.mask_data.
  rewrite (flat_map_length_const _ (m * w)).
  - now rewrite length_seq.
  - intros i Hi. apply in_seq in Hi. cbv zeta.
    rewrite (flat_map_length_const _ w).
    + now rewrite length_combine, length_seq, Hm, Nat.min_id.
    + intros [j b] Hj. apply in_combine_l, in_seq in Hj. cbn [fst snd].
      rewrite length_map. apply row_length. rewrite row_length by nia. nia.
Qed.

Lemma convert_returns (g : GatherInfo.t) (arr out : Torch.tensor A)
      (layout_axes : list Z) :
  GatherInfo.__post_init__ g = Ok tt ->
  valid_axes arr layout_axes = true ->
  convert g arr layout_axes = Ok out ->
  out = converted g arr layout_axes /\
  listed_errors g arr layout_axes = false /\
  index_out_of_range g arr layout_axes = false.
Proof.
  intros Hinv Hv E. pose proof (convert_cases g arr layout_axes Hinv Hv) as C.
  destruct (listed_errors g arr layout_axes
            || index_out_of_range g arr layout_axes) eqn:D.
  - rewrite E in C. discriminate C.
  - rewrite E in C. injection C as ->. apply orb_false_iff in D. tauto.
Qed.

Lemma wfb_gather_info (g : GatherInfo.t) :
  GatherInfo.wfb g = true ->
  GatherInfo.__post_init__ g = Ok tt /\
  length (Torch.data (GatherInfo.gather_idxs g)) = numel (GatherInfo.shape g) /\
  length (Torch.data (GatherInfo.gather_mask g)) = numel (GatherInfo.shape g).
Proof.
  unfold GatherInfo.wfb, Torch.wfb. rewrite !andb_true_iff, !Nat.eqb_eq.
  intros [[Hp Wi] Wm].
  assert (Hp' : GatherInfo.__post_init__ g = Ok tt).
  { destruct (GatherInfo.__post_init__ g) as [[]|];
      [reflexivity|discriminate]. }
  split; [exact Hp'|]. split; [exact Wi|].
  now rewrite <- (gather_info_invariant g Hp').
Qed.

(** X16: whenever [convert] returns on a well-formed map and a well-formed
    tensor with valid layout axes, the result is a well-formed tensor, and
    its shape is that of the input with the layout axes replaced by the
    axes of the map. *)
Theorem convert_well_formed (g : GatherInfo.t) (arr out : Torch.tensor A)
        (layout_axes : list Z) :
  GatherInfo.wfb g = true ->
  Torch.wfb arr = true ->
  valid_axes arr layout_axes = true ->
  convert g arr layout_axes = Ok out ->
  Torch.wfb out = true /\
  Torch.shape out
  = firstn (Z.to_nat (axes_begin arr layout_axes)) (Torch.shape arr)
    ++ GatherInfo.shape g
    ++ skipn (Z.to_nat (axes_begin arr layout_axes) + length layout_axes)
             (Torch.shape arr).
Proof.
  intros Hg Ha Hv E.
  destruct (wfb_gather_info g Hg) as (Hinv & Wi & Wm).
  destruct (convert_returns g arr out layout_axes Hinv Hv E)
    as (-> & Hle & Hio).
  split; [|reflexivity].
  assert (Hc : not_contiguous arr layout_axes = false).
  { unfold listed_errors in Hle. rewrite !orb_false_iff in Hle. tauto. }
  destruct (contiguous_span arr layout_axes Hv Hc)
    as (b & e & _ & Hb & _ & Hbe & Hen & Hel & Hsz).
  unfold index_out_of_range in Hio. apply negb_false_iff in Hio.
  unfold Torch.wfb in Ha |- *. apply Nat.eqb_eq in Ha. apply Nat.eqb_eq.
  unfold converted, axes_begin. rewrite Hb, Nat2Z.id, <- Hel.
  cbn [Torch.shape Torch.data]. rewrite !numel_app.
  set (nb := numel (firstn b (Torch.shape arr))).
  set (nf := numel (skipn e (Torch.shape arr))).
  assert (Hn : numel (Torch.shape arr)
               = nb * (numel (layout_sizes arr layout_axes) * nf)).
  { rewrite <- (segments_app (Torch.shape arr) b e) at 1 by lia.
    now rewrite !numel_app, <- Hsz. }
  apply mask_data_length; [|exact Wm].
  rewrite gather_data_length; [now rewrite Wi| |exact Hio].
  now rewrite Ha.
Qed.

(** X17: an axis may be counted from the end: shifting every layout axis
    by the rank of the tensor does not change what [convert] does. *)
Theorem convert_negative_axes (g : GatherInfo.t) (arr : Torch.tensor A)
        (layout_axes : list Z) :
  Forall (fun i => (0 <= i < Z.of_nat (Torch.ndim arr))%Z) layout_axes ->
  convert g arr (map (fun i => (i - Z.of_nat (Torch.ndim arr))%Z) layout_axes)
  = convert g arr layout_axes.
Proof.
  intros Hax. unfold convert.
  replace (normalize_axes (Torch.ndim arr) (map _ layout_axes))
    with (normalize_axes (Torch.ndim arr) layout_axes); [reflexivity|].
  unfold normalize_axes. rewrite map_map. apply map_ext_in.
  intros i Hi. rewrite Forall_forall in Hax. specialize (Hax i Hi).
  destruct (i >=? 0)%Z eqn:E1; [|rewrite Z.geb_leb in E1;
                                  apply Z.leb_gt in E1; lia].
  destruct (i - _ >=? 0)%Z eqn:E2; [|lia].
  rewrite Z.geb_leb in E2. apply Z.leb_le in E2. lia.
Qed.

(** X18: [convert] makes up no value: every entry of its result is an
    entry of the input multiplied by a promoted entry of the gather
    mask. *)
Theorem convert_entries (g : GatherInfo.t) (arr out : Torch.tensor A)
        (layout_axes : list Z) (y : A) :
  GatherInfo.__post_init__ g = Ok tt ->
  valid_axes arr layout_axes = true ->
  convert g arr layout_axes = Ok out ->
  In y (Torch.data out) ->
  exists x b,
    In x (Torch.data arr) /\
    In b (Torch.data (GatherInfo.gather_mask g)) /\
    y = Torch.mul x (Torch.of_bool b).
Proof.
  intros Hinv Hv E Hy.
  destruct (convert_returns g arr out layout_axes Hinv Hv E) as (-> & _ & _).
  unfold converted in Hy. cbn [Torch.data] in Hy.
  apply mask_data_elems in Hy. destruct Hy as (x & b & Hx & Hb & ->).
  apply gather_data_elems in Hx. now exists x, b.
Qed.

End ConvertFacts.

Section Convert1D.

Context {A : Type} `{Torch.Dtype A} (d : A).

Lemma row_one (i : nat) (l : list A) :
  i < length l -> row 1 i l = [nth i l d].
Proof.
  unfold row. rewrite Nat.mul_1_r. revert l.
  induction i as [|i IH]; intros [|x l] Hi; simpl in Hi; try lia.
  - reflexivity.
  - cbn [skipn nth]. apply IH. lia.
Qed.

Lemma row_whole (w : nat) (l : list A) : length l = w -> row (w * 1) 0 l = l.
Proof.
  intros Hl. unfold row. cbn [Nat.mul skipn]. apply firstn_all2. lia.
Qed.

Lemma gather_data_1d (n : nat) (idxs : list Z) (l : list A) :
  length l = n ->
  forallb (in_bounds n) idxs = true ->
  Torch.gather_data 1 n 1 idxs l
  = map (fun j => nth (Z.to_nat (wrap n j)) l d) idxs.
Proof.
  intros Hl Hb. unfold Torch.gather_data. cbn [seq flat_map].
  rewrite app_nil_r, (row_whole n l Hl).
  induction idxs as [|j idxs IH]; [reflexivity|].
  cbn [forallb] in Hb. apply andb_true_iff in Hb. destruct Hb as [Hj Hb].
  cbn [flat_map map]. rewrite IH by exact Hb.
  rewrite row_one by (apply wrap_in_bounds in Hj; lia). reflexivity.
Qed.

Lemma combine_seq_nth {B C : Type} (F : A -> B -> C) (l : list A) :
  forall (pre : list A) (mask : list B),
    map (fun jm => F (nth (fst jm) (pre ++ l) d) (snd jm))
        (combine (seq (length pre) (length l)) mask)
    = map (fun xm => F (fst xm) (snd xm)) (combine l mask).
Proof.
  induction l as [|x l IH]; intros pre mask; [reflexivity|].
  destruct mask as [|b mask]; [reflexivity|].
  cbn [length seq combine map fst snd]. rewrite nth_middle. f_equal.
  specialize (IH (pre ++ [x]) mask).
  rewrite <- app_assoc, length_app in IH. cbn [app length] in IH.
  rewrite Nat.add_1_r in IH. exact IH.
Qed.

Lemma mask_data_1d (mask : list bool) (l : list A) :
  Torch.mask_data 1 (length l) 1 mask l
  = map (fun xm => Torch.mul (fst xm) (Torch.of_bool (snd xm)))
        (combine l mask).
Proof.
  unfold Torch.mask_data. cbn [seq flat_map].
  rewrite app_nil_r, (row_whole (length l) l eq_refl).
  rewrite <- (combine_seq_nth (fun x b => Torch.mul x (Torch.of_bool b)) l []).
  cbn [app length].
  assert (G : forall js : list (nat * bool),
             Forall (fun jm => fst jm < length l) js ->
             flat_map (fun jm => map (fun x => Torch.mul x (Torch.of_bool (snd jm)))
                                     (row 1 (fst jm) l)) js
             = map (fun jm => Torch.mul (nth (fst jm) l d)
                                        (Torch.of_bool (snd jm))) js).
  { induction 1 as [|jm js Hj _ IH]; [reflexivity|].
    cbn [flat_map map]. now rewrite IH, row_one. }
  apply G. apply Forall_forall. intros [j b] Hj.
  apply in_combine_l, in_seq in Hj. cbn [fst]. lia.
Qed.

(** X19: converting a 1-D tensor along its only axis: entry [p] of the
    result is the entry of the input at index [gather_idxs[p]], negative
    indices counted from the end, multiplied by the promoted
    [gather_mask[p]]; the result has the shape of the map. *)
Theorem convert_1d (g : GatherInfo.t) (arr : Torch.tensor A) (n : nat)
        (gn : Z) :
  GatherInfo.wfb g = true ->
  Torch.shape arr = [n] ->
  length (Torch.data arr) = n ->
  GatherInfo.input_shape g = [gn] ->
  (gn <= Z.of_nat n)%Z ->
  forallb (in_bounds n) (Torch.data (GatherInfo.gather_idxs g)) = true ->
  convert g arr [0%Z]
  = Ok (Torch.mk (GatherInfo.shape g)
          (gather_masked d (Torch.data arr)
             (Torch.data (GatherInfo.gather_idxs g))
             (Torch.data (GatherInfo.gather_mask g)))).
Proof.
  destruct arr as [s l]. cbn [Torch.shape Torch.data].
  intros Hg -> Hl Hin Hgn Hb.
  destruct (wfb_gather_info g Hg) as (Hinv & Wi & Wm).
  pose proof (convert_cases g (Torch.mk [n] l) [0%Z] Hinv eq_refl) as C.
  assert (Hle : listed_errors g (Torch.mk [n] l) [0%Z] = false).
  { unfold listed_errors, axis_count_differs, first_axis_smaller,
      later_axis_differs. rewrite Hin.
    change (not_contiguous (Torch.mk [n] l) [0%Z]) with false.
    change (too_many_batch_axes (Torch.mk [n] l) [0%Z]) with false.
    cbn. rewrite !orb_false_r. apply Z.ltb_ge. exact Hgn. }
  assert (Hio : index_out_of_range g (Torch.mk [n] l) [0%Z] = false).
  { unfold index_out_of_range. cbn. rewrite Nat.mul_1_r, Hb. reflexivity. }
  rewrite Hle, Hio in C. cbn [orb] in C. rewrite C. f_equal.
  unfold converted.
  change (Z.to_nat (axes_begin (Torch.mk [n] l) [0%Z])) with 0.
  change (layout_sizes (Torch.mk [n] l) [0%Z]) with [n].
  cbn [Torch.shape Torch.data length Nat.add firstn skipn app].
  change (numel []) with 1. change (numel [n]) with (n * 1).
  rewrite app_nil_r, Nat.mul_1_r. f_equal.
  rewrite (gather_data_1d n _ l Hl Hb).
  rewrite <- Wi, <- (length_map (fun j => nth (Z.to_nat (wrap n j)) l d)).
  rewrite mask_data_1d. unfold gather_masked. rewrite Hl.
  generalize (Torch.data (GatherInfo.gather_mask g)) as mask.
  generalize (Torch.data (GatherInfo.gather_idxs g)) as idxs.
  induction idxs as [|j idxs IH]; intros [|b mask]; try reflexivity.
  cbn [map combine fst snd]. now rewrite IH.
Qed.

End Convert1D.

Lemma convert_well_formed_witness :
  exists out,
    convert Examples.map_3_of_2 (Examples.ints [2] [10; 20]%Z) [0%Z] = Ok out /\
    Torch.wfb out = true /\
    Torch.shape out = [3].
Proof.
  eexists. split; [reflexivity|].
  apply (convert_well_formed Examples.map_3_of_2
           (Examples.ints [2] [10; 20]%Z) _ [0%Z]); reflexivity.
Defined.

Lemma convert_negative_axes_witness :
  convert Examples.map_3_of_2 (Examples.ints [2] [10; 20]%Z) [(-1)%Z]
  = convert Examples.map_3_of_2 (Examples.ints [2] [10; 20]%Z) [0%Z].
Proof.
  apply (convert_negative_axes Examples.map_3_of_2
           (Examples.ints [2] [10; 20]%Z) [0%Z]).
  constructor; [simpl; lia|constructor].
Defined.

Lemma convert_entries_witness :
  exists x b,
    In x [10; 20]%Z /\ In b [true; true; false] /\
    20%Z = Torch.mul x (Torch.of_bool b).
Proof.
  apply (convert_entries Examples.map_3_of_2 (Examples.ints [2] [10; 20]%Z)
           (Examples.ints [3] [20; 10; 0]%Z) [0%Z] 20%Z);
    [reflexivity|reflexivity|reflexivity|simpl; auto].
Defined.

Lemma convert_1d_witness :
  convert Examples.map_3_of_2 (Examples.ints [2] [10; 20]%Z) [0%Z]
  = Ok (Torch.mk [3]
          (gather_masked 0%Z [10; 20]%Z [1; 0; 0]%Z [true; true; false])).
Proof.
  apply (convert_1d 0%Z Examples.map_3_of_2 (Examples.ints [2] [10; 20]%Z)
           2 2%Z); first [reflexivity|simpl; lia].
Defined.

(** ** [dot_product_attention]: a mask that excludes nothing *)

Section AttentionFacts.

Import Attention.
Local Open Scope R_scope.

Context `{Arith}.

Lemma fill_row_none (n : nat) (value : R) :
  forall row : list R,
    (length row <= n)%nat -> fill_row row (repeat false n) value = row.
Proof.
  unfold fill_row. induction n as [|n IH]; intros [|x row] Hl;
    try reflexivity; simpl in Hl; [lia|].
  cbn [repeat combine map fst snd]. f_equal. apply IH. lia.
Qed.

Lemma zip_fill_none (n m : nat) (value : R) :
  forall logits : matrix,
    (length logits <= m)%nat ->
    Forall (fun r => (length r <= n)%nat) logits ->
    zip_with (fun row frow => fill_row row frow value) logits
             (repeat (repeat false n) m)
    = logits.
Proof.
  unfold zip_with. induction m as [|m IH]; intros [|r logits] Hl Hr;
    try reflexivity; simpl in Hl; [lia|].
  inversion Hr; subst. cbn [repeat combine map fst snd].
  rewrite fill_row_none by assumption. f_equal. apply IH; [lia|assumption].
Qed.

(** X22: a mask that excludes no key is the same as no mask, with or
    without a bias. *)
Theorem full_mask_is_no_mask (q k v : matrix) (bias : option matrix) :
  dot_product_attention q k v (Some (full_mask q k)) bias
  = dot_product_attention q k v None bias.
Proof.
  unfold dot_product_attention, attention_weights. do 2 f_equal.
  unfold masked_logits.
  destruct (biased_logits q k bias) as [L1|] eqn:E1; cbn [bind];
    [|reflexivity].
  destruct (biased_logits_shape _ _ _ _ E1) as [Lq Lk].
  unfold masked_fill, full_mask, invert.
  rewrite map_repeat. cbn [map]. rewrite map_repeat. cbn [negb].
  rewrite broadcast_to_same.
  - cbn [bind]. rewrite zip_fill_none; [reflexivity|lia|].
    eapply Forall_impl; [|exact Lk]. intros r Hr. cbv beta in Hr. lia.
  - apply repeat_length.
  - apply Forall_forall. intros r Hr. apply repeat_spec in Hr as ->.
    apply repeat_length.
Qed.

End AttentionFacts.

(** ** [AtomCrossAttEncoder.forward]: when it returns, and what *)

Section EncoderFacts.

Context {A : Type} `{Torch.Dtype A} `{Nn.Ops A}.

(** X23: a call whose optional inputs do not match the flags of the
    encoder raises [AssertionError], whatever the batch holds and before
    any unsupported path is reached. *)
Theorem forward_flag_mismatch (self : AtomCrossAttEncoder.t A)
        (batch : AtomCrossAttEncoder.Batch A)
        (token_atoms_act trunk_single_cond trunk_pair_cond
         : option (Torch.tensor A)) :
  flags_match self token_atoms_act trunk_single_cond trunk_pair_cond = false ->
  AtomCrossAttEncoder.forward self batch token_atoms_act trunk_single_cond
                              trunk_pair_cond
  = Raise AssertionError.
Proof.
  unfold flags_match, AtomCrossAttEncoder.forward.
  destruct (Bool.eqb (AtomCrossAttEncoder.is_not_None token_atoms_act) _);
    cbn [assert bind andb]; [|reflexivity].
  destruct (Bool.eqb (AtomCrossAttEncoder.is_not_None trunk_single_cond) _);
    cbn [assert bind andb]; [|reflexivity].
  destruct (Bool.eqb (AtomCrossAttEncoder.is_not_None trunk_pair_cond) _);
    cbn [assert bind andb]; [discriminate|reflexivity].
Qed.

(** X24: [forward] returns an output only on the plain path: without
    [token_atoms_act] and [trunk_pair_cond], on an encoder constructed
    without them, and with a [trunk_single_cond] exactly when the encoder
    was constructed for one. *)
Theorem forward_returns_only_plain (self : AtomCrossAttEncoder.t A)
        (batch : AtomCrossAttEncoder.Batch A)
        (token_atoms_act trunk_single_cond trunk_pair_cond
         : option (Torch.tensor A))
        (out : AtomCrossAttEncoder.AtomCrossAttEncoderOutput A) :
  AtomCrossAttEncoder.forward self batch token_atoms_act trunk_single_cond
                              trunk_pair_cond = Ok out ->
  token_atoms_act = None /\ trunk_pair_cond = None /\
  AtomCrossAttEncoder.with_token_atoms_act self = false /\
  AtomCrossAttEncoder.with_trunk_pair_cond self = false /\
  AtomCrossAttEncoder.is_not_None trunk_single_cond
  = AtomCrossAttEncoder.with_trunk_single_cond self.
Proof.
  intros E.
  destruct token_atoms_act as [t|].
  { pose proof (token_atoms_act_never_returns self batch t trunk_single_cond
                  trunk_pair_cond) as R.
    rewrite E in R. discriminate R. }
  destruct trunk_pair_cond as [t|].
  { pose proof (trunk_pair_cond_never_returns self batch t None
                  trunk_single_cond) as R.
    rewrite E in R. discriminate R. }
  unfold AtomCrossAttEncoder.forward in E.
  cbn [AtomCrossAttEncoder.is_not_None] in E.
  destruct (AtomCrossAttEncoder.with_token_atoms_act self);
    cbn [Bool.eqb assert bind] in E; [discriminate|].
  destruct (Bool.eqb (AtomCrossAttEncoder.is_not_None trunk_single_cond) _)
    eqn:E2; cbn [assert bind] in E; [|discriminate].
  destruct (AtomCrossAttEncoder.with_trunk_pair_cond self);
    cbn [Bool.eqb assert bind] in E; [discriminate|].
  repeat split. now apply Bool.eqb_prop.
Qed.


End EncoderFacts.

Lemma forward_flag_mismatch_witness :
  @AtomCrossAttEncoder.forward
    Z Dtype_Z Examples.plain_ops
    (@AtomCrossAttEncoder.__init__ Z Examples.plain_ops
       384 128 16 false false false)
    Examples.small_batch None (Some Examples.trunk_single) None
  = Raise AssertionError.
Proof.
  apply (@forward_flag_mismatch Z Dtype_Z Examples.plain_ops).
  reflexivity.
Defined.

Lemma forward_returns_only_plain_witness :
  exists out,
    @AtomCrossAttEncoder.forward
      Z Dtype_Z Examples.plain_ops
      (@AtomCrossAttEncoder.__init__ Z Examples.plain_ops
         384 128 16 false true false)
      Examples.small_batch None (Some Examples.trunk_single) None = Ok out /\
    AtomCrossAttEncoder.is_not_None (Some Examples.trunk_single) = true.
Proof.
  eexists. split; [vm_compute; reflexivity|].
  eapply (@forward_returns_only_plain Z Dtype_Z Examples.plain_ops
            (@AtomCrossAttEncoder.__init__ Z Examples.plain_ops
               384 128 16 false true false)
            Examples.small_batch None (Some Examples.trunk_single) None).
  vm_compute. reflexivity.
Defined.


(** ** [__eq__] is transitive only through layouts with the optional fields *)

Lemma array_equal_inv (a b : Np.ndarray) :
  Np.array_equal a b = true <->
  Np.shape a = Np.shape b /\ Np.data a = Np.data b.
Proof.
  unfold Np.array_equal.
  destruct (shape_eqb (Np.shape a) (Np.shape b)) eqn:Es; cbn [negb].
  - apply shape_eqb_eq in Es. rewrite (list_eqb_eq obj_eqb obj_eqb_eq). tauto.
  - split; [discriminate|]. intros [E _]. apply shape_eqb_eq in E. congruence.
Qed.

Lemma same_on_trans (m : list bool) (a b c : Np.ndarray) :
  same_on m a b = true -> same_on m b c = true -> same_on m a c = true.
Proof.
  unfold same_on. rewrite !(list_eqb_eq obj_eqb obj_eqb_eq). congruence.
Qed.

Lemma same_on_opt_trans (m : list bool) (f g h : option Np.ndarray) :
  opt_covered g f h ->
  same_on_opt m f g = true -> same_on_opt m g h = true ->
  same_on_opt m f h = true.
Proof.
  destruct f as [a|], g as [b|], h as [c|]; cbn [opt_covered same_on_opt];
    try reflexivity; intros Hc; [apply same_on_trans|now destruct Hc].
Qed.

(** X26: [__eq__] is transitive through a middle layout that has every
    optional field the two outer layouts share: for well-formed layouts,
    [A == B] and [B == C] give [A == C].  A field that is absent from [B]
    is compared in neither call, so without the condition the outer
    layouts may differ in it. *)
Theorem eq_transitive (X Y Z : AtomLayout.t) :
  AtomLayout.wfb X = true -> AtomLayout.wfb Y = true ->
  AtomLayout.wfb Z = true ->
  opt_covered (AtomLayout.atom_element Y) (AtomLayout.atom_element X)
              (AtomLayout.atom_element Z) ->
  opt_covered (AtomLayout.res_name Y) (AtomLayout.res_name X)
              (AtomLayout.res_name Z) ->
  opt_covered (AtomLayout.chain_type Y) (AtomLayout.chain_type X)
              (AtomLayout.chain_type Z) ->
  AtomLayout.__eq__ X Y = Ok true ->
  AtomLayout.__eq__ Y Z = Ok true ->
  AtomLayout.__eq__ X Z = Ok true.
Proof.
  intros WX WY WZ Ce Cn Ct.
  rewrite (eq_computes X Y WX WY), (eq_computes Y Z WY WZ),
    (eq_computes X Z WX WZ).
  intros [= E1] [= E2]. f_equal. unfold layouts_equal in *.
  rewrite !andb_true_iff in E1, E2.
  destruct E1 as [[[[[N1 R1] C1] A1] S1] T1].
  destruct E2 as [[[[[N2 R2] C2] A2] S2] T2].
  apply array_equal_inv in N1, N2. destruct N1 as [Hs1 Hd1], N2 as [Hs2 Hd2].
  assert (Hm : valid_slots Y = valid_slots X)
    by (unfold valid_slots; now rewrite Hd1).
  rewrite Hm in R2, C2, A2, S2, T2.
  rewrite !andb_true_iff. repeat split.
  - apply array_equal_inv. split; congruence.
  - exact (same_on_trans _ _ _ _ R1 R2).
  - exact (same_on_trans _ _ _ _ C1 C2).
  - exact (same_on_opt_trans _ _ _ _ Ce A1 A2).
  - exact (same_on_opt_trans _ _ _ _ Cn S1 S2).
  - exact (same_on_opt_trans _ _ _ _ Ct T1 T2).
Qed.

Lemma eq_transitive_witness :
  AtomLayout.__eq__ Examples.layout_2x2 (layout_2x2_padded 9 "Y") = Ok true.
Proof.
  apply (eq_transitive Examples.layout_2x2 (layout_2x2_padded 7 "X")
           (layout_2x2_padded 9 "Y"));
    first [reflexivity|simpl; discriminate].
Defined.

(** Without the condition transitivity fails: a layout without the
    element field compares equal to two layouts that differ in it. *)
Lemma eq_not_transitive_without_field :
  AtomLayout.wfb (layout_element "C") = true /\
  AtomLayout.wfb layout_no_element = true /\
  AtomLayout.wfb (layout_element "N") = true /\
  AtomLayout.__eq__ (layout_element "C") layout_no_element = Ok true /\
  AtomLayout.__eq__ layout_no_element (layout_element "N") = Ok true /\
  AtomLayout.__eq__ (layout_element "C") (layout_element "N") = Ok false.
Proof. repeat split. Qed.
